(** * TenantVoice: the case store, the create-issue flow and the timeline chart

    A shallow embedding of [src/App.tsx] (the reducer [caseReducer], the
    handlers [handleUpdateMeta] and [handleCreateIssue]), of
    [src/constants.ts] ([EMPTY_CASE]), of the type declarations of
    [types.ts] and of the drawing effect of the [TimelineChart] component,
    followed by the properties of the specification stated over them.

    Conventions of the embedding:
    - a TypeScript interface is a record in a module of its name, so that
      the fields keep their names ([Issue.id], [Communication.date]);
    - a union of string literals is an inductive type;
    - an optional field ([title?: string]) is an [option];
    - the case metadata is the one object the code addresses by computed
      keys ([{ [parent]: { ...meta[parent], [child]: value } }]); it is a
      finite map from keys to values, and object spread is map union;
    - [uuidv4()] and [new Date()] are ambient; each is a stream indexed by
      the number of reads made so far;
    - a pixel coordinate is an exact rational; [None] stands for the
      [undefined]/[NaN] that d3 and [Math.max] produce on an invalid date. *)

From Stdlib Require Import ZArith QArith Qminmax Lia Ascii String.
From stdpp Require Import gmap strings list fin_maps pretty.

Local Open Scope string_scope.
Local Open Scope list_scope.

(** ** Data model ([types.ts]) *)

Inductive Severity := low | medium | high | emergency.
Inductive IssueStatus := ongoing | resolved | partial.
Inductive CommunicationMethod :=
  text | email | phone | portal | in_person | letter | other.
Inductive PromiseStatus := kept | not_kept | promise_partial | unknown.

Module Issue.
Record t := mk {
  id : string;
  title : string;
  category : string;
  room : string;
  severity : Severity;
  status : IssueStatus;
  first_noticed_at : string;
  description : string;
  habitability_categories : list string
}.
End Issue.

Module EvidenceItem.
Record t := mk {
  id : string;
  issue_id : string;
  file_reference : string;
  captured_at : string;
  uploaded_at : string;
  ai_caption : string;
  user_caption : string
}.
End EvidenceItem.

Module LandlordPromise.
Record t := mk {
  id : string;
  description : string;
  promised_completion_date : string;
  promised_by : string;
  status : PromiseStatus
}.
End LandlordPromise.

Module Communication.
Record t := mk {
  id : string;
  date : string;
  method : CommunicationMethod;
  tenant_message : string;
  landlord_response : string;
  linked_issue_ids : list string;
  promises : list LandlordPromise.t
}.
End Communication.

(** A value stored under a key of the metadata object: a string
    ([property_address], [id]) or a sub-object of strings
    ([landlord_contact], [lease]). *)
Inductive MetaVal :=
| MStr (s : string)
| MObj (o : gmap string string).

Module TenantCase.
Record t := mk {
  meta : gmap string MetaVal;
  issues : list Issue.t;
  evidence : list EvidenceItem.t;
  communications : list Communication.t
}.
End TenantCase.

(** ** JavaScript string and truthiness helpers used by the code *)

Module JS.

(** [s.includes(c)] for a one-character needle. *)
Fixpoint includes (sep : ascii) (s : string) : bool :=
  match s with
  | EmptyString => false
  | String c s' => if Ascii.eqb c sep then true else includes sep s'
  end.

(** [s.split(c)] for a one-character separator: the pieces between the
    separators, never an empty list. *)
Fixpoint split (sep : ascii) (s : string) : list string :=
  match s with
  | EmptyString => [EmptyString]
  | String c s' =>
      if Ascii.eqb c sep then EmptyString :: split sep s'
      else match split sep s' with
           | [] => [String c EmptyString]
           | p :: ps => String c p :: ps
           end
  end.

(** [s.substring(0, n)] *)
Fixpoint substring0 (n : nat) (s : string) : string :=
  match n, s with
  | S n', String c s' => String c (substring0 n' s')
  | _, _ => EmptyString
  end.

(** A string is falsy exactly when it is empty. *)
Definition truthy (s : string) : bool :=
  match s with EmptyString => false | String _ _ => true end.

(** [o || d] for an optional string: [undefined] and the empty string
    both give [d]. *)
Definition or_str (o : option string) (d : string) : string :=
  match o with
  | Some s => if truthy s then s else d
  | None => d
  end.

(** [o || d] for an optional value that is truthy whenever present (a
    non-empty string literal of a union type, an array). *)
Definition or_val {A} (o : option A) (d : A) : A :=
  match o with Some a => a | None => d end.

End JS.

(** ** The case store ([src/App.tsx], [src/constants.ts]) *)

Module Store.

Inductive Action :=
| UPDATE_META (payload : gmap string MetaVal)
| ADD_ISSUE (payload : Issue.t)
| ADD_EVIDENCE (payload : EvidenceItem.t)
| ADD_COMMUNICATION (payload : Communication.t)
| SET_REPORT (snippet timeline pattern : string)
| LOAD_CASE (payload : TenantCase.t)
| RESET_CASE.

(** [EMPTY_CASE] of [constants.ts]. *)
Definition EMPTY_CASE : TenantCase.t :=
  {| TenantCase.meta :=
       <["id" := MStr ""]>
       (<["property_address" := MStr ""]>
       (<["landlord_contact" :=
            MObj (<["name" := ""]> (<["phone" := ""]>
                 (<["email" := ""]> (<["other" := ""]> ∅))))]>
       (<["lease" :=
            MObj (<["start_date" := ""]> (<["end_date" := ""]> ∅))]> ∅)));
     TenantCase.issues := [];
     TenantCase.evidence := [];
     TenantCase.communications := [] |}.

(** [{ ...a, ...b }]: the keys of [b] win, the others come from [a]. *)
Definition spread2 {V} (a b : gmap string V) : gmap string V := b ∪ a.

Definition caseReducer (state : TenantCase.t) (action : Action) : TenantCase.t :=
  match action with
  | UPDATE_META payload =>
      {| TenantCase.meta := spread2 (TenantCase.meta state) payload;
         TenantCase.issues := TenantCase.issues state;
         TenantCase.evidence := TenantCase.evidence state;
         TenantCase.communications := TenantCase.communications state |}
  | ADD_ISSUE payload =>
      {| TenantCase.meta := TenantCase.meta state;
         TenantCase.issues := TenantCase.issues state ++ [payload];
         TenantCase.evidence := TenantCase.evidence state;
         TenantCase.communications := TenantCase.communications state |}
  | ADD_EVIDENCE payload =>
      {| TenantCase.meta := TenantCase.meta state;
         TenantCase.issues := TenantCase.issues state;
         TenantCase.evidence := TenantCase.evidence state ++ [payload];
         TenantCase.communications := TenantCase.communications state |}
  | ADD_COMMUNICATION payload =>
      {| TenantCase.meta := TenantCase.meta state;
         TenantCase.issues := TenantCase.issues state;
         TenantCase.evidence := TenantCase.evidence state;
         TenantCase.communications :=
           TenantCase.communications state ++ [payload] |}
  | LOAD_CASE payload => payload
  | RESET_CASE => EMPTY_CASE
  | SET_REPORT _ _ _ => state
  end.

(** [{ ...v }] for the value found under a metadata key: an object gives
    its own entries, [undefined] gives none, a string gives one entry per
    character under the decimal of its index. *)
Definition spread_val (v : option MetaVal) : gmap string string :=
  match v with
  | Some (MObj o) => o
  | Some (MStr s) =>
      list_to_map
        (imap (fun i c => (pretty i, String c EmptyString))
              (list_ascii_of_string s))
  | None => ∅
  end.

(** [handleUpdateMeta(field, value)]: the action it dispatches.
    [tenantCase] is the case of the current render, from which the
    siblings of a nested field are copied. The [value] is the string of
    the form input ([e.target.value]) at every call site. *)
Definition handleUpdateMeta (tenantCase : TenantCase.t)
    (field value : string) : Action :=
  if JS.includes "."%char field then
    match JS.split "."%char field with
    | parent :: child :: _ =>
        UPDATE_META
          {[ parent :=
               MObj (<[child := value]>
                       (spread_val (TenantCase.meta tenantCase !! parent))) ]}
    | _ => UPDATE_META ∅
    end
  else UPDATE_META {[ field := MStr value ]}.

(** The store after a sequence of dispatched actions. *)
Definition dispatchAll (state : TenantCase.t) (actions : list Action)
  : TenantCase.t :=
  fold_left caseReducer actions state.

(** The three append operations of the store. *)
Inductive AddCall :=
| addIssue (issue : Issue.t)
| addEvidence (item : EvidenceItem.t)
| addCommunication (comm : Communication.t).

Definition actionOf (c : AddCall) : Action :=
  match c with
  | addIssue i => ADD_ISSUE i
  | addEvidence e => ADD_EVIDENCE e
  | addCommunication m => ADD_COMMUNICATION m
  end.

Definition issuesAdded (calls : list AddCall) : list Issue.t :=
  omap (fun c => match c with addIssue i => Some i | _ => None end) calls.

Definition evidenceAdded (calls : list AddCall) : list EvidenceItem.t :=
  omap (fun c => match c with addEvidence e => Some e | _ => None end) calls.

Definition communicationsAdded (calls : list AddCall)
  : list Communication.t :=
  omap (fun c => match c with addCommunication m => Some m | _ => None end)
       calls.

End Store.

(** ** The create-issue flow ([src/App.tsx], [src/services/geminiService.ts]) *)

Module CreateIssue.
Import Store.

(** [Partial<Issue>]: every field may be absent. *)
Module PartialIssue.
Record t := mk {
  id : option string;
  title : option string;
  category : option string;
  room : option string;
  severity : option Severity;
  status : option IssueStatus;
  first_noticed_at : option string;
  description : option string;
  habitability_categories : option (list string)
}.
End PartialIssue.

(** [Partial<EvidenceItem>] *)
Module PartialEvidence.
Record t := mk {
  id : option string;
  issue_id : option string;
  file_reference : option string;
  captured_at : option string;
  uploaded_at : option string;
  ai_caption : option string;
  user_caption : option string
}.
End PartialEvidence.

(** [AIAnalysisResponse], without its [case] and [communications]
    fields, which no code reads. *)
Module AIAnalysisResponse.
Record t := mk {
  issue : option PartialIssue.t;
  evidence_items : option (list PartialEvidence.t);
  timeline_summary : option string;
  pattern_summary : option string;
  report_snippet : option string;
  disclaimer : string
}.
End AIAnalysisResponse.

(** What the flow reads of a browser [File]. *)
Module File.
Record t := mk { name : string; type : string }.
End File.

(** A thrown value. *)
Definition Error := string.

(** A part of the request sent to the model. *)
Inductive Part :=
| TextPart (text : string)
| InlineData (mimeType data : string).

(** The ambient sources and the remote collaborators of the flow. A
    promise is given by how it settles: [inl] rejected, [inr] resolved. *)
Record Env := {
  uuidv4 : nat -> string;
  toISOString : nat -> string;
  fileToBase64 : File.t -> Error + string;
  generateContent : list Part -> Error + option string;
  JSON_parse : string -> Error + AIAnalysisResponse.t
}.

(** The state of the [App] component that the flow reads and writes,
    with the observable traces ([dispatch], [console.error], [alert]) and
    the read counters of the two ambient streams. *)
Record App := {
  tenantCase : TenantCase.t;
  isAnalyzing : bool;
  newIssueText : string;
  newIssueImage : option File.t;
  dispatched : list Action;
  console : list Error;
  alerts : list string;
  uuids : nat;
  dates : nat
}.

(** Computations that read and write the component state and may throw;
    what was written before a throw stays written. *)
Definition M (A : Type) : Type := App -> (Error + A) * App.

Definition ret {A} (a : A) : M A := fun st => (inr a, st).

Definition bind {A B} (m : M A) (f : A -> M B) : M B :=
  fun st =>
    match m st with
    | (inl e, st') => (inl e, st')
    | (inr a, st') => f a st'
    end.

Notation "x <- m ;; k" := (bind m (fun x => k))
  (at level 100, m at next level, right associativity).
Notation "m ;; k" := (bind m (fun _ => k))
  (at level 100, right associativity).

Definition throw {A} (e : Error) : M A := fun st => (inl e, st).

(** [await p] for a promise that settles as [p]. *)
Definition await {A} (p : Error + A) : M A := fun st => (p, st).

(** [try { body } catch (e) { handler }] *)
Definition try_catch {A} (body : M A) (handler : Error -> M A) : M A :=
  fun st =>
    match body st with
    | (inl e, st') => handler e st'
    | (inr a, st') => (inr a, st')
    end.

(** [try { body } catch (e) { handler } finally { fin }] *)
Definition try_catch_finally {A} (body : M A) (handler : Error -> M A)
    (fin : M unit) : M A :=
  fun st =>
    let '(r, st1) := try_catch body handler st in
    match fin st1 with
    | (inl e, st2) => (inl e, st2)
    | (inr _, st2) => (r, st2)
    end.

Definition update (f : App -> App) : M unit := fun st => (inr tt, f st).

Definition setIsAnalyzing (b : bool) : M unit :=
  update (fun st =>
    {| tenantCase := tenantCase st; isAnalyzing := b;
       newIssueText := newIssueText st; newIssueImage := newIssueImage st;
       dispatched := dispatched st; console := console st;
       alerts := alerts st; uuids := uuids st; dates := dates st |}).

Definition setNewIssueText (s : string) : M unit :=
  update (fun st =>
    {| tenantCase := tenantCase st; isAnalyzing := isAnalyzing st;
       newIssueText := s; newIssueImage := newIssueImage st;
       dispatched := dispatched st; console := console st;
       alerts := alerts st; uuids := uuids st; dates := dates st |}).

Definition setNewIssueImage (f : option File.t) : M unit :=
  update (fun st =>
    {| tenantCase := tenantCase st; isAnalyzing := isAnalyzing st;
       newIssueText := newIssueText st; newIssueImage := f;
       dispatched := dispatched st; console := console st;
       alerts := alerts st; uuids := uuids st; dates := dates st |}).

(** [dispatch(action)]: the reducer is applied to the case, and the
    action is recorded. *)
Definition dispatch (a : Action) : M unit :=
  update (fun st =>
    {| tenantCase := caseReducer (tenantCase st) a;
       isAnalyzing := isAnalyzing st;
       newIssueText := newIssueText st; newIssueImage := newIssueImage st;
       dispatched := dispatched st ++ [a]; console := console st;
       alerts := alerts st; uuids := uuids st; dates := dates st |}).

Definition console_error (e : Error) : M unit :=
  update (fun st =>
    {| tenantCase := tenantCase st; isAnalyzing := isAnalyzing st;
       newIssueText := newIssueText st; newIssueImage := newIssueImage st;
       dispatched := dispatched st; console := console st ++ [e];
       alerts := alerts st; uuids := uuids st; dates := dates st |}).

Definition alert (s : string) : M unit :=
  update (fun st =>
    {| tenantCase := tenantCase st; isAnalyzing := isAnalyzing st;
       newIssueText := newIssueText st; newIssueImage := newIssueImage st;
       dispatched := dispatched st; console := console st;
       alerts := alerts st ++ [s]; uuids := uuids st; dates := dates st |}).

Section Flow.
Variable env : Env.

(** [uuidv4()] *)
Definition new_uuid : M string :=
  fun st =>
    (inr (uuidv4 env (uuids st)),
     {| tenantCase := tenantCase st; isAnalyzing := isAnalyzing st;
        newIssueText := newIssueText st; newIssueImage := newIssueImage st;
        dispatched := dispatched st; console := console st;
        alerts := alerts st; uuids := S (uuids st); dates := dates st |}).

(** [new Date().toISOString()] *)
Definition new_Date_ISO : M string :=
  fun st =>
    (inr (toISOString env (dates st)),
     {| tenantCase := tenantCase st; isAnalyzing := isAnalyzing st;
        newIssueText := newIssueText st; newIssueImage := newIssueImage st;
        dispatched := dispatched st; console := console st;
        alerts := alerts st; uuids := uuids st; dates := S (dates st) |}).

(** [s.split(c)[0]] *)
Definition split0 (sep : ascii) (s : string) : string :=
  match JS.split sep s with p :: _ => p | [] => EmptyString end.

(** [geminiService.analyzeIssueWithEvidence(description, imageBase64,
    mimeType = 'image/jpeg')] *)
Definition analyzeIssueWithEvidence (description : string)
    (imageBase64 mimeType : option string) : M AIAnalysisResponse.t :=
  let mimeType := JS.or_val mimeType "image/jpeg" in
  try_catch
    (let parts :=
       [TextPart ("Analyze this housing issue description and/or image. Extract issue details and suggest a caption if image is present. Description: " +:+ description)] in
     let parts :=
       match imageBase64 with
       | Some b =>
           if JS.truthy b then
             let cleanBase64 := JS.or_str (JS.split ","%char b !! 1%nat) b in
             (parts ++ [InlineData mimeType cleanBase64])%list
           else parts
       | None => parts
       end in
     text <- await (generateContent env parts) ;;
     match text with
     | Some t =>
         if JS.truthy t then await (JSON_parse env t)
         else throw "No response from AI"
     | None => throw "No response from AI"
     end)
    (fun error => console_error error ;; throw error).

(** The object literal of lines 139-149: the issue built from the
    response, with its defaults. The clock is read only when the
    response carries no usable [first_noticed_at]. *)
Definition buildIssue (response : AIAnalysisResponse.t)
    (newIssueText : string) : M Issue.t :=
  let issue := AIAnalysisResponse.issue response in
  id <- new_uuid ;;
  first <- match issue ≫= PartialIssue.first_noticed_at with
           | Some s =>
               if JS.truthy s then ret s
               else (d <- new_Date_ISO ;; ret (split0 "T"%char d))
           | None => (d <- new_Date_ISO ;; ret (split0 "T"%char d))
           end ;;
  ret {| Issue.id := id;
         Issue.title := JS.or_str (issue ≫= PartialIssue.title) "New Issue";
         Issue.category :=
           JS.or_str (issue ≫= PartialIssue.category) "General";
         Issue.room := JS.or_str (issue ≫= PartialIssue.room) "Unknown";
         Issue.severity :=
           JS.or_val (issue ≫= PartialIssue.severity) medium;
         Issue.status := JS.or_val (issue ≫= PartialIssue.status) ongoing;
         Issue.first_noticed_at := first;
         Issue.description :=
           JS.or_str (issue ≫= PartialIssue.description) newIssueText;
         Issue.habitability_categories :=
           JS.or_val (issue ≫= PartialIssue.habitability_categories) [] |}.

(** Lines 129-135: [imageBase64], [undefined] without an image. *)
Definition encodeImage (newIssueImage : option File.t) : M (option string) :=
  match newIssueImage with
  | Some f => (b <- await (fileToBase64 env f) ;; ret (Some b))
  | None => ret None
  end.

(** [handleCreateIssue]. [newIssueText] and [newIssueImage] are the
    values of the render in which the handler was created. *)
Definition handleCreateIssue : M unit :=
  fun st0 =>
  let newIssueText := newIssueText st0 in
  let newIssueImage := newIssueImage st0 in
  (if negb (JS.truthy newIssueText) && negb (bool_decide (is_Some newIssueImage))
   then ret tt
   else
     setIsAnalyzing true ;;
     try_catch_finally
       (imageBase64 <- encodeImage newIssueImage ;;
        let mimeType := File.type <$> newIssueImage in
        response <-
          analyzeIssueWithEvidence newIssueText imageBase64 mimeType ;;
        newIssue <- buildIssue response newIssueText ;;
        dispatch (ADD_ISSUE newIssue) ;;
        match imageBase64, AIAnalysisResponse.evidence_items response with
        | Some b, Some (ev :: _) =>
            if JS.truthy b then
              id <- new_uuid ;;
              captured <- new_Date_ISO ;;
              uploaded <- new_Date_ISO ;;
              dispatch (ADD_EVIDENCE
                {| EvidenceItem.id := id;
                   EvidenceItem.issue_id := Issue.id newIssue;
                   EvidenceItem.file_reference := b;
                   EvidenceItem.captured_at := captured;
                   EvidenceItem.uploaded_at := uploaded;
                   EvidenceItem.ai_caption :=
                     JS.or_str (PartialEvidence.ai_caption ev)
                               "Evidence image";
                   EvidenceItem.user_caption := "" |})
            else ret tt
        | _, _ => ret tt
        end ;;
        setNewIssueText "" ;;
        setNewIssueImage None)
       (fun e => console_error e ;;
                 alert "Failed to analyze issue. Check console.")
       (setIsAnalyzing false)) st0.

End Flow.

(** The computation [m] settles as [r]: it returns [r] from some state
    of the component. *)
Definition settles {A} (m : M A) (r : Error + A) : Prop :=
  ∃ st, fst (m st) = r.

(** A response none of whose issue fields is present: the [issue] object
    is missing, or each of the fields the flow reads is. *)
Definition issue_fields_absent (response : AIAnalysisResponse.t) : Prop :=
  let issue := AIAnalysisResponse.issue response in
  issue ≫= PartialIssue.title = None
  ∧ issue ≫= PartialIssue.category = None
  ∧ issue ≫= PartialIssue.room = None
  ∧ issue ≫= PartialIssue.severity = None
  ∧ issue ≫= PartialIssue.status = None
  ∧ issue ≫= PartialIssue.first_noticed_at = None
  ∧ issue ≫= PartialIssue.description = None
  ∧ issue ≫= PartialIssue.habitability_categories = None.

End CreateIssue.

(** ** The timeline chart (the drawing effect of [TimelineChart])

    The component draws with d3, which is a dependency and not part of
    the repository. What the effect uses of it is written here after the
    library: [d3.extent] by its loop, [d3.scaleBand] and the linear map
    of [d3.scaleTime] by their formulas. The widening [.nice()], which
    rests on d3's table of calendar intervals, and the parsing of a date
    string by [new Date(d)] are parameters of the chart. *)

Module Timeline.

(** An SVG attribute that is a number: [None] is [undefined] or [NaN]. *)
Definition num := option Q.

Record Rect := {
  rect_x : num;
  rect_y : Q;
  rect_width : num;
  rect_height : Q;
  rect_rx : Z;
  rect_fill : string
}.

Record Circle := {
  cx : num;
  cy : Q;
  r : Z;
  fill : string;
  stroke_width : Z;
  tooltip : string
}.

(** What one run of the effect leaves in the SVG element: its height
    attribute, the placeholder text position when there is no data, the
    domain of the time axis, the labels of the row axis, the bars and the
    communication dots, in drawing order. *)
Record Chart := {
  svg_height : Z;
  placeholder : option (Q * Q);
  x_domain : option (Z * Z);
  row_labels : list string;
  bars : list Rect;
  circles : list Circle
}.

Definition rowHeight : Z := 60.
Definition minHeight : Z := 300.
Definition margin_top : Z := 30.
Definition margin_right : Z := 30.
Definition margin_bottom : Z := 40.
Definition margin_left : Z := 180.

(** One step of the loop of [d3.extent]: a value that is not a number is
    skipped, the first number starts both ends, a later one moves the
    end it passes. *)
Definition extent_step (acc : option (Z * Z)) (value : option Z)
  : option (Z * Z) :=
  match value with
  | None => acc
  | Some v =>
      match acc with
      | None => Some (v, v)
      | Some (lo, hi) =>
          Some (if (lo >? v)%Z then v else lo, if (hi <? v)%Z then v else hi)
      end
  end.

(** [d3.extent(values)]; [None] is the pair [[undefined, undefined]]. *)
Definition extent (values : list (option Z)) : option (Z * Z) :=
  fold_left extent_step values None.

(** The band scale [d3.scaleBand().domain(names).range([0, height])
    .padding(p)]: the domain keeps the first occurrence of each name. *)
Definition bandDomain (names : list string) : list string :=
  fold_left
    (fun (dom : list string) t =>
       if bool_decide (t ∈ dom) then dom else (dom ++ [t])%list)
    names [].

Record Band := {
  band_domain : list string;
  band_start : Q;
  band_step : Q;
  bandwidth : Q
}.

Definition scaleBand (names : list string) (height : Z) (padding : Q) : Band :=
  let domain := bandDomain names in
  let n := inject_Z (Z.of_nat (length domain)) in
  let stop := inject_Z height in
  let step := (stop / Qmax 1 (n - padding + padding * 2))%Q in
  {| band_domain := domain;
     band_start := ((stop - step * (n - padding)) * (1 # 2))%Q;
     band_step := step;
     bandwidth := (step * (1 - padding))%Q |}.

Fixpoint index_of (t : string) (l : list string) : option nat :=
  match l with
  | [] => None
  | s :: l' => if String.eqb s t then Some 0%nat else S <$> index_of t l'
  end.

(** [y(name)]: the start of the band of [name], [undefined] for a name
    outside the domain. *)
Definition band_y (y : Band) (name : string) : num :=
  (fun i => (band_start y + band_step y * inject_Z (Z.of_nat i))%Q)
    <$> index_of name (band_domain y).

(** [v || 0] *)
Definition or_zero (v : num) : Q :=
  match v with
  | Some q => if Qeq_bool q 0 then 0%Q else q
  | None => 0%Q
  end.

(** The time scale [d3.scaleTime().domain(d).range([0, width])] applied
    to a date: linear between the ends of the domain, the middle of the
    range when the domain is a single instant, [undefined] on an invalid
    date. *)
Definition scaleTime (domain : option (Z * Z)) (width : Z) (d : option Z)
  : num :=
  match d, domain with
  | Some t, Some (d0, d1) =>
      Some (if (d1 - d0 =? 0)%Z then ((1 # 2) * inject_Z width)%Q
            else (inject_Z (t - d0) / inject_Z (d1 - d0) * inject_Z width)%Q)
  | _, _ => None
  end.

(** [a - b] and [Math.max(5, w)] on numbers that may be [NaN]. *)
Definition num_sub (a b : num) : num :=
  match a, b with
  | Some p, Some q => Some (p - q)%Q
  | _, _ => None
  end.

Definition max5 (w : num) : num := Qmax 5 <$> w.

Definition severity_fill (s : Severity) : string :=
  match s with
  | emergency => "#ef4444"
  | high => "#f97316"
  | medium => "#eab308"
  | low => "#3b82f6"
  end.

Definition method_name (m : CommunicationMethod) : string :=
  match m with
  | text => "text"
  | email => "email"
  | phone => "phone"
  | portal => "portal"
  | in_person => "in-person"
  | letter => "letter"
  | other => "other"
  end.

(** The label of a row: a title of more than 25 characters is cut to 22
    and three dots. *)
Definition truncate_label (str : string) : string :=
  if (25 <? String.length str)%nat
  then JS.substring0 22 str +:+ "..."
  else str.

Section Chart.

(** [new Date(d)] as milliseconds since the epoch, [None] for an invalid
    date; and the widening [.nice()] of d3's time scale. Both depend on
    the JavaScript runtime (parsing rules, time zone) and on d3's table
    of tick intervals, and are taken as given. *)
Variable parseDate : string -> option Z.
Variable nice : Z * Z -> Z * Z.

(** Lines 50-52: the dates the extent is taken of. [now] is the
    [new Date()] read on line 52. *)
Definition allDates (issues : list Issue.t)
    (communications : list Communication.t) (now : Z) : list (option Z) :=
  let issueDates := map (fun d => parseDate (Issue.first_noticed_at d)) issues in
  let commDates := map (fun d => parseDate (Communication.date d)) communications in
  (issueDates ++ commDates ++ [Some now])%list.

(** Lines 54-57: the domain of [x] after [.nice()]. *)
Definition timeDomain (issues : list Issue.t)
    (communications : list Communication.t) (now : Z) : option (Z * Z) :=
  nice <$> extent (allDates issues communications now).

(** Lines 89-111: the bar of the issue [d], the [k]-th of the list. Its
    width callback makes the [k+1]-th read of the clock after the one of
    line 52, whatever the status. *)
Definition bar (x : option Z -> num) (y : Band) (clock : nat -> Z)
    (k : nat) (d : Issue.t) : Rect :=
  {| rect_x := x (parseDate (Issue.first_noticed_at d));
     rect_y := or_zero (band_y y (Issue.title d));
     rect_width :=
       (let start := parseDate (Issue.first_noticed_at d) in
        let end_ := match Issue.status d with
                    | resolved => clock (S k)
                    | _ => clock (S k)
                    end in
        let w := num_sub (x (Some end_)) (x start) in
        max5 w);
     rect_height := bandwidth y;
     rect_rx := 4;
     rect_fill := severity_fill (Issue.severity d) |}.

(** Lines 121-129: the dot of [comm] on the row of [issue]. *)
Definition rowCircle (x : option Z -> num) (y : Band)
    (comm : Communication.t) (issue : Issue.t) : Circle :=
  {| cx := x (parseDate (Communication.date comm));
     cy := (or_zero (band_y y (Issue.title issue)) + bandwidth y / 2)%Q;
     r := 6;
     fill := "#1e293b";
     stroke_width := 2;
     tooltip := method_name (Communication.method comm) +:+ ": "
                +:+ JS.substring0 30 (Communication.tenant_message comm)
                +:+ "..." |}.

(** Lines 135-143: the dot of [comm] on the top line. *)
Definition generalCircle (x : option Z -> num) (comm : Communication.t)
  : Circle :=
  {| cx := x (parseDate (Communication.date comm));
     cy := (-15)%Q;
     r := 5;
     fill := "#64748b";
     stroke_width := 1;
     tooltip := "General " +:+ method_name (Communication.method comm)
                +:+ ": " +:+ Communication.tenant_message comm |}.

(** [issues.find(i => i.id === issueId)] *)
Definition findIssue (issues : list Issue.t) (issueId : string)
  : option Issue.t :=
  List.find (fun i => String.eqb (Issue.id i) issueId) issues.

(** Lines 117-131, the body of [comm.linked_issue_ids.forEach]: the
    state is the flag [linked] and the dots appended so far. *)
Definition linkStep (x : option Z -> num) (y : Band)
    (issues : list Issue.t) (comm : Communication.t)
    (state : bool * list Circle) (issueId : string) : bool * list Circle :=
  let '(linked, dots) := state in
  match findIssue issues issueId with
  | Some issue => (true, dots ++ [rowCircle x y comm issue])
  | None => (linked, dots)
  end.

(** Lines 114-145, the body of [communications.forEach]: the loop over
    the linked ids, then the top-line dot when the flag is still
    false. *)
Definition commCircles (x : option Z -> num) (y : Band)
    (issues : list Issue.t) (comm : Communication.t) : list Circle :=
  let '(linked, dots) :=
    fold_left (linkStep x y issues comm)
              (Communication.linked_issue_ids comm) (false, []) in
  if negb linked then dots ++ [generalCircle x comm] else dots.

(** The effect of lines 13-154. [svgRef] is [svgRef.current], given by
    its [clientWidth] when the element is mounted; [clock k] is the value
    of the [k]-th [new Date()] of the run. Axis ticks and grid lines,
    which d3 derives from [x_domain], are not part of the result. *)
Definition TimelineChart (svgRef : option Z) (clock : nat -> Z)
    (issues : list Issue.t) (communications : list Communication.t)
  : option Chart :=
  let contentHeight := (Z.of_nat (length issues) * rowHeight)%Z in
  let totalHeight := Z.max minHeight contentHeight in
  match svgRef with
  | None => None
  | Some clientWidth =>
      let svg_h := (totalHeight + margin_top + margin_bottom)%Z in
      if (length issues =? 0)%nat && (length communications =? 0)%nat then
        Some {| svg_height := svg_h;
                placeholder :=
                  Some ((inject_Z (if (clientWidth =? 0)%Z then 800
                                   else clientWidth) / 2)%Q,
                        (inject_Z totalHeight / 2)%Q);
                x_domain := None;
                row_labels := [];
                bars := [];
                circles := [] |}
      else
        let width := (clientWidth - margin_left - margin_right)%Z in
        let height := totalHeight in
        let domain := timeDomain issues communications (clock 0%nat) in
        let x := scaleTime domain width in
        let y := scaleBand (map Issue.title issues) height (4 # 10) in
        Some {| svg_height := svg_h;
                placeholder := None;
                x_domain := domain;
                row_labels := map truncate_label (band_domain y);
                bars := imap (bar x y clock) issues;
                circles := flat_map (commCircles x y issues) communications |}
  end.

(** The dots of one communication as the specification words them, with
    the top-line rule of the code: one dot per linked id that resolves,
    on the row of the issue it resolves to, and one top-line dot when no
    linked id resolves. *)
Definition spec_markers (x : option Z -> num) (y : Band)
    (issues : list Issue.t) (comm : Communication.t) : list Circle :=
  let resolvable := omap (findIssue issues) (Communication.linked_issue_ids comm) in
  (map (rowCircle x y comm) resolvable
   ++ match resolvable with
      | [] => [generalCircle x comm]
      | _ :: _ => []
      end)%list.

End Chart.

End Timeline.

(** ** The other handlers and views of [App] and [IssueCard] *)

Module Page.

(** The tabs of the page, the state of the save button and the report
    kept by [setReportData]. *)
Inductive Tab := tab_meta | tab_issues | tab_comms | tab_report.
Inductive SaveStatus := idle | saved.

Record ReportData := {
  snippet : string;
  timeline : string;
  pattern : string
}.

(** The inputs of the communication form. *)
Record CommForm := {
  commDate : string;
  commMethod : CommunicationMethod;
  commMessage : string;
  commResponse : string;
  commLinkedIssues : list string;
  hasPromise : bool;
  promiseDesc : string;
  promiseDate : string
}.

(** The whole state of the component: the part the create-issue flow
    uses, and the rest. [evidenceInput] is the value of the hidden file
    input when [evidenceInputRef.current] is set; [fileDialogs] counts its
    [click()]s; [timeouts] holds the delays passed to [setTimeout];
    [localStorage] is the storage of the browser. *)
Record t := mk {
  app : CreateIssue.App;
  activeTab : Tab;
  saveStatus : SaveStatus;
  reportData : option ReportData;
  uploadingIssueId : option string;
  evidenceInput : option string;
  fileDialogs : nat;
  form : CommForm;
  localStorage : gmap string string;
  timeouts : list Z
}.

(** What the handlers below need beyond [CreateIssue.Env]:
    [JSON.stringify] and [JSON.parse] of a case, the remote call of the
    report request, and whether the browser accepts to store a value
    under a key on top of what its storage holds ([setItem] throws when
    the quota would be exceeded). *)
Record Env := {
  base : CreateIssue.Env;
  storageAccepts : gmap string string -> string -> string -> bool;
  JSON_stringify : TenantCase.t -> string;
  JSON_stringify_pretty : TenantCase.t -> string;
  JSON_parse_case : string -> CreateIssue.Error + TenantCase.t;
  generateReportContent : string -> CreateIssue.Error + option string
}.

Definition storageKey : string := "tenant_voice_case_data".

(** Computations over the state of the page that may throw. *)
Definition P (A : Type) : Type := t -> (CreateIssue.Error + A) * t.

Definition ret {A} (a : A) : P A := fun pg => (inr a, pg).

Definition bind {A B} (m : P A) (f : A -> P B) : P B :=
  fun pg =>
    match m pg with
    | (inl e, pg') => (inl e, pg')
    | (inr a, pg') => f a pg'
    end.

Notation "x <~ m ; k" := (bind m (fun x => k))
  (at level 100, m at next level, right associativity).
Notation "m ;;; k" := (bind m (fun _ => k))
  (at level 100, right associativity).

Definition try_catch {A} (body : P A) (handler : CreateIssue.Error -> P A)
  : P A :=
  fun pg =>
    match body pg with
    | (inl e, pg') => handler e pg'
    | (inr a, pg') => (inr a, pg')
    end.

Definition try_catch_finally {A} (body : P A)
    (handler : CreateIssue.Error -> P A) (fin : P unit) : P A :=
  fun pg =>
    let '(r, pg1) := try_catch body handler pg in
    match fin pg1 with
    | (inl e, pg2) => (inl e, pg2)
    | (inr _, pg2) => (r, pg2)
    end.

Definition throw {A} (e : CreateIssue.Error) : P A := fun pg => (inl e, pg).

Definition await {A} (p : CreateIssue.Error + A) : P A := fun pg => (p, pg).

(** A computation of the create-issue part, run on the page. *)
Definition liftApp {A} (m : CreateIssue.M A) : P A :=
  fun pg =>
    let '(r, a) := m (app pg) in
    (r, {| app := a; activeTab := activeTab pg; saveStatus := saveStatus pg;
           reportData := reportData pg;
           uploadingIssueId := uploadingIssueId pg;
           evidenceInput := evidenceInput pg; fileDialogs := fileDialogs pg;
           form := form pg; localStorage := localStorage pg;
           timeouts := timeouts pg |}).

Definition setActiveTab (tab : Tab) : P unit :=
  fun pg =>
    (inr tt,
     {| app := app pg; activeTab := tab; saveStatus := saveStatus pg;
        reportData := reportData pg;
        uploadingIssueId := uploadingIssueId pg;
        evidenceInput := evidenceInput pg; fileDialogs := fileDialogs pg;
        form := form pg; localStorage := localStorage pg;
        timeouts := timeouts pg |}).

Definition setSaveStatus (s : SaveStatus) : P unit :=
  fun pg =>
    (inr tt,
     {| app := app pg; activeTab := activeTab pg; saveStatus := s;
        reportData := reportData pg;
        uploadingIssueId := uploadingIssueId pg;
        evidenceInput := evidenceInput pg; fileDialogs := fileDialogs pg;
        form := form pg; localStorage := localStorage pg;
        timeouts := timeouts pg |}).

Definition setReportData (r : option ReportData) : P unit :=
  fun pg =>
    (inr tt,
     {| app := app pg; activeTab := activeTab pg; saveStatus := saveStatus pg;
        reportData := r;
        uploadingIssueId := uploadingIssueId pg;
        evidenceInput := evidenceInput pg; fileDialogs := fileDialogs pg;
        form := form pg; localStorage := localStorage pg;
        timeouts := timeouts pg |}).

Definition setUploadingIssueId (i : option string) : P unit :=
  fun pg =>
    (inr tt,
     {| app := app pg; activeTab := activeTab pg; saveStatus := saveStatus pg;
        reportData := reportData pg;
        uploadingIssueId := i;
        evidenceInput := evidenceInput pg; fileDialogs := fileDialogs pg;
        form := form pg; localStorage := localStorage pg;
        timeouts := timeouts pg |}).

(** [if (evidenceInputRef.current) evidenceInputRef.current.value = ''] *)
Definition clearEvidenceInput : P unit :=
  fun pg =>
    (inr tt,
     {| app := app pg; activeTab := activeTab pg; saveStatus := saveStatus pg;
        reportData := reportData pg;
        uploadingIssueId := uploadingIssueId pg;
        evidenceInput := match evidenceInput pg with
                         | Some _ => Some ""
                         | None => None
                         end;
        fileDialogs := fileDialogs pg;
        form := form pg; localStorage := localStorage pg;
        timeouts := timeouts pg |}).

(** [if (evidenceInputRef.current) evidenceInputRef.current.click()] *)
Definition clickEvidenceInput : P unit :=
  fun pg =>
    (inr tt,
     {| app := app pg; activeTab := activeTab pg; saveStatus := saveStatus pg;
        reportData := reportData pg;
        uploadingIssueId := uploadingIssueId pg;
        evidenceInput := evidenceInput pg;
        fileDialogs := match evidenceInput pg with
                       | Some _ => S (fileDialogs pg)
                       | None => fileDialogs pg
                       end;
        form := form pg; localStorage := localStorage pg;
        timeouts := timeouts pg |}).

Definition setForm (f : CommForm -> CommForm) : P unit :=
  fun pg =>
    (inr tt,
     {| app := app pg; activeTab := activeTab pg; saveStatus := saveStatus pg;
        reportData := reportData pg;
        uploadingIssueId := uploadingIssueId pg;
        evidenceInput := evidenceInput pg; fileDialogs := fileDialogs pg;
        form := f (form pg); localStorage := localStorage pg;
        timeouts := timeouts pg |}).

Definition setStorage (f : gmap string string -> gmap string string)
  : P unit :=
  fun pg =>
    (inr tt,
     {| app := app pg; activeTab := activeTab pg; saveStatus := saveStatus pg;
        reportData := reportData pg;
        uploadingIssueId := uploadingIssueId pg;
        evidenceInput := evidenceInput pg; fileDialogs := fileDialogs pg;
        form := form pg; localStorage := f (localStorage pg);
        timeouts := timeouts pg |}).

(** [setTimeout(callback, delay)]: the delay is recorded, the callback
    runs in a later task. *)
Definition setTimeout (delay : Z) : P unit :=
  fun pg =>
    (inr tt,
     {| app := app pg; activeTab := activeTab pg; saveStatus := saveStatus pg;
        reportData := reportData pg;
        uploadingIssueId := uploadingIssueId pg;
        evidenceInput := evidenceInput pg; fileDialogs := fileDialogs pg;
        form := form pg; localStorage := localStorage pg;
        timeouts := timeouts pg ++ [delay] |}).

Definition setCommMessage (s : string) : P unit :=
  setForm (fun f =>
    {| commDate := commDate f; commMethod := commMethod f; commMessage := s;
       commResponse := commResponse f;
       commLinkedIssues := commLinkedIssues f; hasPromise := hasPromise f;
       promiseDesc := promiseDesc f; promiseDate := promiseDate f |}).

Definition setCommResponse (s : string) : P unit :=
  setForm (fun f =>
    {| commDate := commDate f; commMethod := commMethod f;
       commMessage := commMessage f; commResponse := s;
       commLinkedIssues := commLinkedIssues f; hasPromise := hasPromise f;
       promiseDesc := promiseDesc f; promiseDate := promiseDate f |}).

(** [setCommLinkedIssues(prev => g(prev))] *)
Definition setCommLinkedIssues (g : list string -> list string) : P unit :=
  setForm (fun f =>
    {| commDate := commDate f; commMethod := commMethod f;
       commMessage := commMessage f; commResponse := commResponse f;
       commLinkedIssues := g (commLinkedIssues f); hasPromise := hasPromise f;
       promiseDesc := promiseDesc f; promiseDate := promiseDate f |}).

Definition setHasPromise (b : bool) : P unit :=
  setForm (fun f =>
    {| commDate := commDate f; commMethod := commMethod f;
       commMessage := commMessage f; commResponse := commResponse f;
       commLinkedIssues := commLinkedIssues f; hasPromise := b;
       promiseDesc := promiseDesc f; promiseDate := promiseDate f |}).

Definition setPromiseDesc (s : string) : P unit :=
  setForm (fun f =>
    {| commDate := commDate f; commMethod := commMethod f;
       commMessage := commMessage f; commResponse := commResponse f;
       commLinkedIssues := commLinkedIssues f; hasPromise := hasPromise f;
       promiseDesc := s; promiseDate := promiseDate f |}).

Definition setPromiseDate (s : string) : P unit :=
  setForm (fun f =>
    {| commDate := commDate f; commMethod := commMethod f;
       commMessage := commMessage f; commResponse := commResponse f;
       commLinkedIssues := commLinkedIssues f; hasPromise := hasPromise f;
       promiseDesc := promiseDesc f; promiseDate := s |}).

(** [prev.includes(issueId) ? prev.filter(id => id !== issueId)
    : [...prev, issueId]] *)
Definition toggleLink (issueId : string) (prev : list string) : list string :=
  if existsb (String.eqb issueId) prev
  then List.filter (fun id => negb (String.eqb id issueId)) prev
  else prev ++ [issueId].

Section Handlers.
Variable env : Env.

(** Lines 83-93, the effect run on mount. *)
Definition loadOnMount : P unit :=
  fun pg0 =>
  let savedData := localStorage pg0 !! storageKey in
  (match savedData with
   | Some data =>
       if JS.truthy data then
         try_catch
           (parsedData <~ await (JSON_parse_case env data) ;
            liftApp (CreateIssue.dispatch (Store.LOAD_CASE parsedData)))
           (fun e =>
              liftApp (CreateIssue.console_error
                         ("Failed to load saved case " +:+ e)))
       else ret tt
   | None => ret tt
   end) pg0.

(** [localStorage.setItem(key, value)]: the entry is written, or the
    call throws and the storage is as before. *)
Definition setItem (key value : string) : P unit :=
  fun pg =>
    if storageAccepts env (localStorage pg) key value
    then setStorage (fun s => <[key := value]> s) pg
    else throw "QuotaExceededError" pg.

(** [handleSaveCase]; nothing catches what [setItem] throws. *)
Definition handleSaveCase : P unit :=
  fun pg0 =>
  let tenantCase := CreateIssue.tenantCase (app pg0) in
  (setItem storageKey (JSON_stringify env tenantCase) ;;;
   setSaveStatus saved ;;;
   setTimeout 2000) pg0.

(** [handleResetCase]; [confirmed] is the answer to [window.confirm]. *)
Definition handleResetCase (confirmed : bool) : P unit :=
  if confirmed then
    setStorage (fun s => delete storageKey s) ;;;
    liftApp (CreateIssue.dispatch Store.RESET_CASE) ;;;
    setActiveTab tab_meta ;;;
    setReportData None
  else ret tt.

(** [handleRequestAddEvidence(issueId)] *)
Definition handleRequestAddEvidence (issueId : string) : P unit :=
  setUploadingIssueId (Some issueId) ;;;
  clickEvidenceInput.

(** [handleEvidenceUpload(e)]; [file] is [e.target.files?.[0]]. *)
Definition handleEvidenceUpload (file : option CreateIssue.File.t) : P unit :=
  fun pg0 =>
  let uploadingIssueId := uploadingIssueId pg0 in
  (match file, uploadingIssueId with
   | Some file, Some issueId =>
       if JS.truthy issueId then
         liftApp (CreateIssue.setIsAnalyzing true) ;;;
         try_catch_finally
           (base64 <~ await (CreateIssue.fileToBase64 (base env) file) ;
            response <~ liftApp
              (CreateIssue.analyzeIssueWithEvidence (base env)
                 "Analyze this image and provide a factual caption."
                 (Some base64) (Some (CreateIssue.File.type file))) ;
            let caption :=
              JS.or_str
                (match CreateIssue.AIAnalysisResponse.evidence_items response with
                 | Some (ev :: _) => CreateIssue.PartialEvidence.ai_caption ev
                 | _ => None
                 end) "Uploaded evidence" in
            id <~ liftApp (CreateIssue.new_uuid (base env)) ;
            captured <~ liftApp (CreateIssue.new_Date_ISO (base env)) ;
            uploaded <~ liftApp (CreateIssue.new_Date_ISO (base env)) ;
            liftApp (CreateIssue.dispatch (Store.ADD_EVIDENCE
              {| EvidenceItem.id := id;
                 EvidenceItem.issue_id := issueId;
                 EvidenceItem.file_reference := base64;
                 EvidenceItem.captured_at := captured;
                 EvidenceItem.uploaded_at := uploaded;
                 EvidenceItem.ai_caption := caption;
                 EvidenceItem.user_caption := "" |})))
           (fun err =>
              liftApp (CreateIssue.console_error err) ;;;
              liftApp (CreateIssue.alert "Failed to upload evidence."))
           (liftApp (CreateIssue.setIsAnalyzing false) ;;;
            setUploadingIssueId None ;;;
            clearEvidenceInput)
       else setUploadingIssueId None
   | _, _ => setUploadingIssueId None
   end) pg0.

(** [handleToggleIssueLink(issueId)] *)
Definition handleToggleIssueLink (issueId : string) : P unit :=
  setCommLinkedIssues (toggleLink issueId).

(** [handleLogCommunication]; the form is the one of the render in which
    the handler was created. *)
Definition handleLogCommunication : P unit :=
  fun pg0 =>
  let f := form pg0 in
  (if negb (JS.truthy (commMessage f)) then ret tt
   else
     promises <~
       (if hasPromise f && JS.truthy (promiseDesc f) then
          id <~ liftApp (CreateIssue.new_uuid (base env)) ;
          ret [ {| LandlordPromise.id := id;
                   LandlordPromise.description := promiseDesc f;
                   LandlordPromise.promised_completion_date := promiseDate f;
                   LandlordPromise.promised_by := "Landlord";
                   LandlordPromise.status := unknown |} ]
        else ret []) ;
     id <~ liftApp (CreateIssue.new_uuid (base env)) ;
     let newComm :=
       {| Communication.id := id;
          Communication.date := commDate f;
          Communication.method := commMethod f;
          Communication.tenant_message := commMessage f;
          Communication.landlord_response := commResponse f;
          Communication.linked_issue_ids := commLinkedIssues f;
          Communication.promises := promises |} in
     liftApp (CreateIssue.dispatch (Store.ADD_COMMUNICATION newComm)) ;;;
     setCommMessage "" ;;;
     setCommResponse "" ;;;
     setCommLinkedIssues (fun _ => []) ;;;
     setHasPromise false ;;;
     setPromiseDesc "" ;;;
     setPromiseDate "") pg0.

(** [geminiService.generateReport(caseData)] *)
Definition generateReport (caseData : TenantCase.t)
  : P CreateIssue.AIAnalysisResponse.t :=
  try_catch
    (let prompt :=
       "
        Generate a formal habitability report for the following case data.
        Return a 'report_snippet' in Markdown format that serves as the body of a formal letter or record.
        Include a 'timeline_summary' and 'pattern_summary'.
        
        CASE DATA:
        " +:+ JSON_stringify_pretty env caseData +:+ "
      " in
     text <~ await (generateReportContent env prompt) ;
     match text with
     | Some s =>
         if JS.truthy s then await (CreateIssue.JSON_parse (base env) s)
         else throw "No response from AI"
     | None => throw "No response from AI"
     end)
    (fun error => liftApp (CreateIssue.console_error error) ;;; throw error).

(** [handleGenerateReport] *)
Definition handleGenerateReport : P unit :=
  fun pg0 =>
  let tenantCase := CreateIssue.tenantCase (app pg0) in
  (liftApp (CreateIssue.setIsAnalyzing true) ;;;
   try_catch_finally
     (response <~ generateReport tenantCase ;
      setReportData (Some
        {| snippet :=
             JS.or_str (CreateIssue.AIAnalysisResponse.report_snippet response) "";
           timeline :=
             JS.or_str (CreateIssue.AIAnalysisResponse.timeline_summary response) "";
           pattern :=
             JS.or_str (CreateIssue.AIAnalysisResponse.pattern_summary response) "" |}))
     (fun e => liftApp (CreateIssue.console_error e))
     (liftApp (CreateIssue.setIsAnalyzing false))) pg0.

End Handlers.

(** The computation [m] settles as [r]: it returns [r] from some state
    of the page. *)
Definition settles {A} (m : P A) (r : CreateIssue.Error + A) : Prop :=
  ∃ pg, fst (m pg) = r.

(** *** What the page shows *)

(** Line 504: the evidence handed to the card of [issue]. *)
Definition cardEvidence (c : TenantCase.t) (issue : Issue.t)
  : list EvidenceItem.t :=
  List.filter
    (fun e => String.eqb (EvidenceItem.issue_id e) (Issue.id issue))
    (TenantCase.evidence c).

(** Line 506: the card of [issue] is shown as uploading. *)
Definition cardUploading (pg : t) (issue : Issue.t) : bool :=
  CreateIssue.isAnalyzing (app pg)
  && match uploadingIssueId pg with
     | Some i => String.eqb i (Issue.id issue)
     | None => false
     end.

(** Line 481: the [Analyze & Add] button is disabled. *)
Definition createDisabled (pg : t) : bool :=
  CreateIssue.isAnalyzing (app pg)
  || (negb (JS.truthy (CreateIssue.newIssueText (app pg)))
      && negb (bool_decide (is_Some (CreateIssue.newIssueImage (app pg))))).

(** Line 653: the [Log Interaction] button is disabled. *)
Definition logDisabled (pg : t) : bool :=
  negb (JS.truthy (commMessage (form pg))).

(** Line 594: the link button of [issue] is shown as selected. *)
Definition linkSelected (pg : t) (issue : Issue.t) : bool :=
  existsb (String.eqb (Issue.id issue)) (commLinkedIssues (form pg)).

(** Lines 520-531: the three numbers of the case summary. *)
Definition totalIssues (c : TenantCase.t) : nat :=
  length (TenantCase.issues c).

Definition emergencyIssues (c : TenantCase.t) : nat :=
  length (List.filter
            (fun i => match Issue.severity i with
                      | emergency => true
                      | _ => false
                      end)
            (TenantCase.issues c)).

Definition resolvedIssues (c : TenantCase.t) : nat :=
  length (List.filter
            (fun i => match Issue.status i with
                      | resolved => true
                      | _ => false
                      end)
            (TenantCase.issues c)).

(** Lines 678-691: the chips of a logged communication, one entry per
    linked id, [None] where the id names no issue; no container at all
    without linked ids. *)
Definition commChips (c : TenantCase.t) (comm : Communication.t)
  : option (list (option string)) :=
  if (0 <? length (Communication.linked_issue_ids comm))%nat then
    Some (map (fun id =>
                 Issue.title <$>
                   List.find (fun i => String.eqb (Issue.id i) id)
                             (TenantCase.issues c))
              (Communication.linked_issue_ids comm))
  else None.

(** [IssueCard], lines 13-18: the classes of the severity badge. *)
Definition severityColor (s : Severity) : string :=
  match s with
  | low => "bg-blue-100 text-blue-800 border-blue-200"
  | medium => "bg-yellow-100 text-yellow-800 border-yellow-200"
  | high => "bg-orange-100 text-orange-800 border-orange-200"
  | emergency => "bg-red-100 text-red-800 border-red-200"
  end.

(** [IssueCard], lines 36-40: the status badge. *)
Definition statusBadge (s : IssueStatus) : string :=
  match s with
  | resolved => "Resolved"
  | _ => "Ongoing"
  end.

(** [IssueCard], line 89: [item.ai_caption || item.user_caption]. *)
Definition caption (item : EvidenceItem.t) : string :=
  if JS.truthy (EvidenceItem.ai_caption item)
  then EvidenceItem.ai_caption item
  else EvidenceItem.user_caption item.

(** [IssueCard], line 80: the card shows [No evidence uploaded yet]. *)
Definition showsNoEvidence (evidence : list EvidenceItem.t)
    (isUploading : bool) : bool :=
  (length evidence =? 0)%nat && negb isUploading.

End Page.

(** ** Sample data, used to run the definitions on concrete inputs *)

Module Sample.
Import Store CreateIssue Timeline.

(** A case whose landlord contact has a name. *)
Definition named_case : TenantCase.t :=
  caseReducer EMPTY_CASE (handleUpdateMeta EMPTY_CASE "landlord_contact.name" "Ann").

Definition named_contact : gmap string string :=
  <["name" := "Ann"]> (<["phone" := ""]> (<["email" := ""]> (<["other" := ""]> ∅))).

(** Three dates as the runtime parses them (UTC midnight, in
    milliseconds), every other string being an invalid date. *)
Definition parseDate (d : string) : option Z :=
  if String.eqb d "2024-01-01" then Some 1704067200000%Z
  else if String.eqb d "2024-02-01" then Some 1706745600000%Z
  else if String.eqb d "2024-03-01" then Some 1709251200000%Z
  else None.

(** A widening to whole days. *)
Definition msPerDay : Z := 86400000.

Definition nice (d : Z * Z) : Z * Z :=
  ((fst d / msPerDay * msPerDay)%Z, (- ((- snd d) / msPerDay) * msPerDay)%Z).

(** A clock that stands at 2024-03-01 during the whole run. *)
Definition clock (k : nat) : Z := 1709251200000%Z.

(** A clock that stands there for its first two reads and a minute
    later afterwards. *)
Definition clock_drifting (k : nat) : Z :=
  if (k <=? 1)%nat then 1709251200000%Z else 1709251260000%Z.

Definition leak : Issue.t :=
  {| Issue.id := "i1"; Issue.title := "Leak"; Issue.category := "Plumbing";
     Issue.room := "Kitchen"; Issue.severity := high; Issue.status := ongoing;
     Issue.first_noticed_at := "2024-01-01"; Issue.description := "";
     Issue.habitability_categories := [] |}.

(** An issue first noticed at the very instant of the clock. *)
Definition today_issue : Issue.t :=
  {| Issue.id := "i2"; Issue.title := "Mold"; Issue.category := "General";
     Issue.room := "Unknown"; Issue.severity := medium; Issue.status := ongoing;
     Issue.first_noticed_at := "2024-03-01"; Issue.description := "";
     Issue.habitability_categories := [] |}.

(** A communication whose only link names no issue. *)
Definition dangling : Communication.t :=
  {| Communication.id := "c1"; Communication.date := "2024-02-01";
     Communication.method := email;
     Communication.tenant_message := "Please fix the leak";
     Communication.landlord_response := "";
     Communication.linked_issue_ids := ["ghost"];
     Communication.promises := [] |}.

Definition linked_comm : Communication.t :=
  {| Communication.id := "c2"; Communication.date := "2024-02-01";
     Communication.method := phone;
     Communication.tenant_message := "Called about the leak";
     Communication.landlord_response := "";
     Communication.linked_issue_ids := ["i1"];
     Communication.promises := [] |}.

(** A classifier that answers with an object without any field. *)
Definition empty_response : AIAnalysisResponse.t :=
  {| AIAnalysisResponse.issue := None;
     AIAnalysisResponse.evidence_items := None;
     AIAnalysisResponse.timeline_summary := None;
     AIAnalysisResponse.pattern_summary := None;
     AIAnalysisResponse.report_snippet := None;
     AIAnalysisResponse.disclaimer := "" |}.

Definition env_empty_answer : Env :=
  {| uuidv4 := fun k => "uuid-" +:+ pretty k;
     toISOString := fun _ => "2024-03-01T09:30:00.000Z";
     fileToBase64 := fun _ => inr "data:image/png;base64,AAAA";
     generateContent := fun _ => inr (Some "{}");
     JSON_parse := fun _ => inr empty_response |}.

(** A classifier whose remote call is rejected. *)
Definition env_failing : Env :=
  {| uuidv4 := fun k => "uuid-" +:+ pretty k;
     toISOString := fun _ => "2024-03-01T09:30:00.000Z";
     fileToBase64 := fun _ => inr "data:image/png;base64,AAAA";
     generateContent := fun _ => inl "503";
     JSON_parse := fun _ => inr empty_response |}.

(** The component with the text [ceiling mold] typed in and no image. *)
Definition app_mold : App :=
  {| tenantCase := named_case; isAnalyzing := false;
     newIssueText := "ceiling mold"; newIssueImage := None;
     dispatched := []; console := []; alerts := [];
     uuids := 0; dates := 0 |}.

End Sample.

(** ** More sample data *)

Module Fixtures.
Import Page.

(** A case with the issue [Sample.leak], and the component showing it. *)
Definition case_leak : TenantCase.t :=
  Store.caseReducer Sample.named_case (Store.ADD_ISSUE Sample.leak).

Definition app_leak : CreateIssue.App :=
  {| CreateIssue.tenantCase := case_leak; CreateIssue.isAnalyzing := false;
     CreateIssue.newIssueText := ""; CreateIssue.newIssueImage := None;
     CreateIssue.dispatched := []; CreateIssue.console := [];
     CreateIssue.alerts := []; CreateIssue.uuids := 0; CreateIssue.dates := 0 |}.

Definition form_blank : CommForm :=
  {| commDate := "2024-03-01"; commMethod := text; commMessage := "";
     commResponse := ""; commLinkedIssues := []; hasPromise := false;
     promiseDesc := ""; promiseDate := "" |}.

(** A form about the leak, with a promise. *)
Definition form_leak : CommForm :=
  {| commDate := "2024-02-01"; commMethod := phone;
     commMessage := "Called about the leak";
     commResponse := "Will send a plumber"; commLinkedIssues := ["i1"];
     hasPromise := true; promiseDesc := "Plumber by Friday";
     promiseDate := "2024-02-09" |}.

Definition page_with (f : CommForm) (uploading : option string)
    (storage : gmap string string) : Page.t :=
  {| app := app_leak; activeTab := tab_comms; saveStatus := idle;
     reportData := None; uploadingIssueId := uploading;
     evidenceInput := Some "C:\fakepath\leak.png"; fileDialogs := 0;
     form := f; localStorage := storage; timeouts := [] |}.

Definition page_blank : Page.t := page_with form_blank None ∅.
Definition page_leak : Page.t := page_with form_leak None ∅.
Definition page_uploading : Page.t := page_with form_blank (Some "i1") ∅.

Definition photo : CreateIssue.File.t :=
  {| CreateIssue.File.name := "leak.png"; CreateIssue.File.type := "image/png" |}.

(** A classifier that returns one caption. *)
Definition caption_response : CreateIssue.AIAnalysisResponse.t :=
  {| CreateIssue.AIAnalysisResponse.issue := None;
     CreateIssue.AIAnalysisResponse.evidence_items :=
       Some [ {| CreateIssue.PartialEvidence.id := None;
                 CreateIssue.PartialEvidence.issue_id := None;
                 CreateIssue.PartialEvidence.file_reference := None;
                 CreateIssue.PartialEvidence.captured_at := None;
                 CreateIssue.PartialEvidence.uploaded_at := None;
                 CreateIssue.PartialEvidence.ai_caption :=
                   Some "Water stain under the sink";
                 CreateIssue.PartialEvidence.user_caption := None |} ];
     CreateIssue.AIAnalysisResponse.timeline_summary := None;
     CreateIssue.AIAnalysisResponse.pattern_summary := Some "Slow repairs";
     CreateIssue.AIAnalysisResponse.report_snippet := Some "# Report";
     CreateIssue.AIAnalysisResponse.disclaimer := "" |}.

Definition base_captioning : CreateIssue.Env :=
  {| CreateIssue.uuidv4 := fun k => "uuid-" +:+ pretty k;
     CreateIssue.toISOString := fun _ => "2024-03-01T09:30:00.000Z";
     CreateIssue.fileToBase64 := fun _ => inr "data:image/png;base64,AAAA";
     CreateIssue.generateContent := fun _ => inr (Some "{...}");
     CreateIssue.JSON_parse := fun _ => inr caption_response |}.

(** An environment in which the case [case_leak] is stored as [leak-json]
    and read back from it, every other string being malformed; the remote
    calls answer. *)
Definition env_ok : Page.Env :=
  {| base := base_captioning;
     storageAccepts := fun _ _ _ => true;
     JSON_stringify := fun _ => "leak-json";
     JSON_stringify_pretty := fun _ => "leak-json";
     JSON_parse_case := fun s =>
       if String.eqb s "leak-json" then inr case_leak
       else inl "SyntaxError";
     generateReportContent := fun _ => inr (Some "{...}") |}.

(** The same with remote calls that are rejected and a storage that is
    full. *)
Definition env_down : Page.Env :=
  {| base := Sample.env_failing;
     storageAccepts := fun _ _ _ => false;
     JSON_stringify := fun _ => "leak-json";
     JSON_stringify_pretty := fun _ => "leak-json";
     JSON_parse_case := fun s =>
       if String.eqb s "leak-json" then inr case_leak
       else inl "SyntaxError";
     generateReportContent := fun _ => inl "503" |}.

(** A page that has just mounted, on a storage that holds what
    [env_ok] saves, and on one that holds a malformed entry. *)
Definition app_fresh : CreateIssue.App :=
  {| CreateIssue.tenantCase := Store.EMPTY_CASE;
     CreateIssue.isAnalyzing := false;
     CreateIssue.newIssueText := ""; CreateIssue.newIssueImage := None;
     CreateIssue.dispatched := []; CreateIssue.console := [];
     CreateIssue.alerts := []; CreateIssue.uuids := 0; CreateIssue.dates := 0 |}.

Definition page_mounting (storage : gmap string string) : Page.t :=
  {| app := app_fresh; activeTab := tab_meta; saveStatus := idle;
     reportData := None; uploadingIssueId := None;
     evidenceInput := Some ""; fileDialogs := 0;
     form := form_blank; localStorage := storage; timeouts := [] |}.

Definition page_saved : Page.t :=
  page_mounting (<[storageKey := "leak-json"]> ∅).

Definition page_corrupt : Page.t :=
  page_mounting (<[storageKey := "{broken"]> ∅).

(** The component with a photo chosen and no text, and an environment
    in which the photo cannot be read. *)
Definition app_photo : CreateIssue.App :=
  {| CreateIssue.tenantCase := case_leak; CreateIssue.isAnalyzing := false;
     CreateIssue.newIssueText := ""; CreateIssue.newIssueImage := Some photo;
     CreateIssue.dispatched := []; CreateIssue.console := [];
     CreateIssue.alerts := []; CreateIssue.uuids := 0; CreateIssue.dates := 0 |}.

Definition env_unreadable : CreateIssue.Env :=
  {| CreateIssue.uuidv4 := fun k => "uuid-" +:+ pretty k;
     CreateIssue.toISOString := fun _ => "2024-03-01T09:30:00.000Z";
     CreateIssue.fileToBase64 := fun _ => inl "NotReadableError";
     CreateIssue.generateContent := fun _ => inr (Some "{...}");
     CreateIssue.JSON_parse := fun _ => inr caption_response |}.

End Fixtures.

(** * Properties *)

(** ** The case store *)

Module StoreProps.
Import Store.

Lemma fold_add_issues (calls : list AddCall) (state : TenantCase.t) :
  TenantCase.issues (dispatchAll state (map actionOf calls))
  = TenantCase.issues state ++ issuesAdded calls.
Proof.
  revert state. induction calls as [|c calls IH]; intros state; simpl.
  - by rewrite app_nil_r.
  - unfold dispatchAll in *. rewrite IH.
    destruct c; simpl; [by rewrite <- app_assoc | done | done].
Qed.

Lemma fold_add_evidence (calls : list AddCall) (state : TenantCase.t) :
  TenantCase.evidence (dispatchAll state (map actionOf calls))
  = TenantCase.evidence state ++ evidenceAdded calls.
Proof.
  revert state. induction calls as [|c calls IH]; intros state; simpl.
  - by rewrite app_nil_r.
  - unfold dispatchAll in *. rewrite IH.
    destruct c; simpl; [done | by rewrite <- app_assoc | done].
Qed.

Lemma fold_add_communications (calls : list AddCall) (state : TenantCase.t) :
  TenantCase.communications (dispatchAll state (map actionOf calls))
  = TenantCase.communications state ++ communicationsAdded calls.
Proof.
  revert state. induction calls as [|c calls IH]; intros state; simpl.
  - by rewrite app_nil_r.
  - unfold dispatchAll in *. rewrite IH.
    destruct c; simpl; [done | done | by rewrite <- app_assoc].
Qed.

Lemma fold_add_meta (calls : list AddCall) (state : TenantCase.t) :
  TenantCase.meta (dispatchAll state (map actionOf calls))
  = TenantCase.meta state.
Proof.
  revert state. induction calls as [|c calls IH]; intros state; simpl.
  - done.
  - unfold dispatchAll in *. rewrite IH. by destruct c.
Qed.

Lemma added_counts (calls : list AddCall) :
  length (issuesAdded calls)
    = length (List.filter (fun c => match c with addIssue _ => true | _ => false end) calls)
  ∧ length (evidenceAdded calls)
    = length (List.filter (fun c => match c with addEvidence _ => true | _ => false end) calls)
  ∧ length (communicationsAdded calls)
    = length (List.filter (fun c => match c with addCommunication _ => true | _ => false end) calls).
Proof.
  induction calls as [|c calls (IH1 & IH2 & IH3)]; [done |].
  destruct c; simpl; rewrite ?IH1, ?IH2, ?IH3; done.
Qed.

(** C8. Whatever the starting case and the sequence of [addIssue],
    [addEvidence] and [addCommunication] calls, each collection ends as
    its start followed by the elements of the calls that target it, in
    call order; so its length grows by the number of those calls; and the
    metadata is untouched. *)
Theorem add_calls_append_in_order (state : TenantCase.t) (calls : list AddCall) :
  let final := dispatchAll state (map actionOf calls) in
  TenantCase.issues final = TenantCase.issues state ++ issuesAdded calls
  ∧ TenantCase.evidence final = TenantCase.evidence state ++ evidenceAdded calls
  ∧ TenantCase.communications final
    = TenantCase.communications state ++ communicationsAdded calls
  ∧ TenantCase.meta final = TenantCase.meta state
  ∧ length (TenantCase.issues final)
    = (length (TenantCase.issues state)
       + length (List.filter (fun c => match c with addIssue _ => true | _ => false end) calls))%nat
  ∧ length (TenantCase.evidence final)
    = (length (TenantCase.evidence state)
       + length (List.filter (fun c => match c with addEvidence _ => true | _ => false end) calls))%nat
  ∧ length (TenantCase.communications final)
    = (length (TenantCase.communications state)
       + length (List.filter (fun c => match c with addCommunication _ => true | _ => false end) calls))%nat.
Proof.
  intros final. subst final.
  destruct (added_counts calls) as (H1 & H2 & H3).
  rewrite fold_add_issues, fold_add_evidence, fold_add_communications,
    fold_add_meta, !length_app, H1, H2, H3.
  done.
Qed.

(** C9. From every case, [RESET_CASE] gives [EMPTY_CASE]: no issue, no
    evidence, no communication, and the metadata with an empty id, an
    empty address, four empty contact fields and two empty lease dates. *)
Theorem reset_gives_empty_case (state : TenantCase.t) :
  let fresh := caseReducer state RESET_CASE in
  fresh = EMPTY_CASE
  ∧ TenantCase.issues fresh = []
  ∧ TenantCase.evidence fresh = []
  ∧ TenantCase.communications fresh = []
  ∧ TenantCase.meta fresh !! "id" = Some (MStr "")
  ∧ TenantCase.meta fresh !! "property_address" = Some (MStr "")
  ∧ (∃ contact, TenantCase.meta fresh !! "landlord_contact" = Some (MObj contact)
       ∧ contact !! "name" = Some "" ∧ contact !! "phone" = Some ""
       ∧ contact !! "email" = Some "" ∧ contact !! "other" = Some ""
       ∧ size contact = 4%nat)
  ∧ (∃ lease, TenantCase.meta fresh !! "lease" = Some (MObj lease)
       ∧ lease !! "start_date" = Some "" ∧ lease !! "end_date" = Some ""
       ∧ size lease = 2%nat)
  ∧ size (TenantCase.meta fresh) = 4%nat.
Proof.
  simpl. repeat split; try reflexivity.
  - eexists. repeat split; try reflexivity.
  - eexists. repeat split; try reflexivity.
Qed.

Lemma includes_app_sep (sep : ascii) (p s : string) :
  JS.includes sep (p +:+ String sep s) = true.
Proof.
  induction p as [|c p IH]; simpl.
  - by rewrite Ascii.eqb_refl.
  - destruct (Ascii.eqb c sep); [done | exact IH].
Qed.

Lemma split_without_sep (sep : ascii) (s : string) :
  JS.includes sep s = false → JS.split sep s = [s].
Proof.
  induction s as [|c s IH]; simpl; [done |].
  destruct (Ascii.eqb c sep); [done |].
  intros H. by rewrite (IH H).
Qed.

Lemma split_app_sep (sep : ascii) (p s : string) :
  JS.includes sep p = false →
  JS.split sep (p +:+ String sep s) = p :: JS.split sep s.
Proof.
  induction p as [|c p IH]; simpl.
  - by rewrite Ascii.eqb_refl.
  - destruct (Ascii.eqb c sep); [done |].
    intros H. by rewrite (IH H).
Qed.

(** The action dispatched for the dotted field [parent.child]. *)
Lemma handleUpdateMeta_nested (state : TenantCase.t) (parent child value : string) :
  JS.includes "." parent = false →
  JS.includes "." child = false →
  handleUpdateMeta state (parent +:+ "." +:+ child) value
  = UPDATE_META
      {[ parent := MObj (<[child := value]>
                           (spread_val (TenantCase.meta state !! parent))) ]}.
Proof.
  intros Hp Hc. unfold handleUpdateMeta.
  change (parent +:+ "." +:+ child) with (parent +:+ String "." child).
  rewrite includes_app_sep, (split_app_sep _ _ _ Hp), (split_without_sep _ _ Hc).
  done.
Qed.

(** C7. Updating the nested field [parent.child] of a case whose
    [parent] is a sub-object sets that field and nothing else: every
    sibling field of the sub-object and every other metadata key keeps
    its value, and the three collections are unchanged. *)
Theorem nested_update_keeps_siblings (state : TenantCase.t)
    (parent child value : string) (o : gmap string string) :
  JS.includes "." parent = false →
  JS.includes "." child = false →
  TenantCase.meta state !! parent = Some (MObj o) →
  let state' := caseReducer state
                  (handleUpdateMeta state (parent +:+ "." +:+ child) value) in
  (∃ o', TenantCase.meta state' !! parent = Some (MObj o')
         ∧ o' !! child = Some value
         ∧ ∀ sibling, sibling ≠ child → o' !! sibling = o !! sibling)
  ∧ (∀ key, key ≠ parent →
       TenantCase.meta state' !! key = TenantCase.meta state !! key)
  ∧ TenantCase.issues state' = TenantCase.issues state
  ∧ TenantCase.evidence state' = TenantCase.evidence state
  ∧ TenantCase.communications state' = TenantCase.communications state.
Proof.
  intros Hp Hc Ho state'. subst state'.
  rewrite (handleUpdateMeta_nested _ _ _ _ Hp Hc), Ho. simpl.
  unfold spread2. repeat split.
  - exists (<[child := value]> o). repeat split.
    + rewrite lookup_union_l'; [apply lookup_singleton_eq |].
      rewrite lookup_singleton_eq. eauto.
    + apply lookup_insert_eq.
    + intros sibling Hne. by apply lookup_insert_ne.
  - intros key Hne. rewrite lookup_union_r; [done |].
    by apply lookup_singleton_ne.
Qed.

(** The update of the specification: [landlord_contact.phone] set to
    [555] on a case whose contact is named [Ann]. *)
Lemma nested_update_keeps_siblings_witness :
  let state' := caseReducer Sample.named_case
                  (handleUpdateMeta Sample.named_case
                     ("landlord_contact" +:+ "." +:+ "phone") "555") in
  (∃ o', TenantCase.meta state' !! "landlord_contact" = Some (MObj o')
         ∧ o' !! "phone" = Some "555"
         ∧ ∀ sibling, sibling ≠ "phone" →
             o' !! sibling = Sample.named_contact !! sibling)
  ∧ (∀ key, key ≠ "landlord_contact" →
       TenantCase.meta state' !! key = TenantCase.meta Sample.named_case !! key)
  ∧ TenantCase.issues state' = TenantCase.issues Sample.named_case
  ∧ TenantCase.evidence state' = TenantCase.evidence Sample.named_case
  ∧ TenantCase.communications state'
    = TenantCase.communications Sample.named_case.
Proof.
  apply (nested_update_keeps_siblings Sample.named_case
           "landlord_contact" "phone" "555" Sample.named_contact);
    reflexivity.
Defined.

End StoreProps.

(** ** The create-issue flow *)

Module CreateIssueProps.
Import Store CreateIssue.

Section Flow.
Variable env : Env.

(** Encoding the image writes nothing. *)
Lemma encodeImage_spec (image : option File.t) (st : App) :
  encodeImage env image st
  = (match image with
     | Some f => match fileToBase64 env f with
                 | inl e => inl e
                 | inr b => inr (Some b)
                 end
     | None => inr None
     end, st).
Proof.
  destruct image as [f|]; [| done].
  unfold encodeImage, bind, await, ret. by destruct (fileToBase64 env f).
Qed.

(** The classifier call settles the same way from every state; it
    writes the console when it throws and nothing otherwise. *)
Lemma analyze_spec (description : string) (imageBase64 mimeType : option string) :
  ∃ r, ∀ st,
    analyzeIssueWithEvidence env description imageBase64 mimeType st
    = (r, match r with
          | inl e => snd (console_error e st)
          | inr _ => st
          end).
Proof.
  unfold analyzeIssueWithEvidence, try_catch, bind, await, throw.
  destruct (generateContent env _) as [e|[t|]].
  - exists (inl e). done.
  - destruct (JS.truthy t).
    + destruct (JSON_parse env t) as [e|resp].
      * exists (inl e). done.
      * exists (inr resp). done.
    + exists (inl "No response from AI"). done.
  - exists (inl "No response from AI"). done.
Qed.

Lemma settles_analyze (description : string) (imageBase64 mimeType : option string)
    (r : Error + AIAnalysisResponse.t) (st : App) :
  settles (analyzeIssueWithEvidence env description imageBase64 mimeType) r →
  analyzeIssueWithEvidence env description imageBase64 mimeType st
  = (r, match r with
        | inl e => snd (console_error e st)
        | inr _ => st
        end).
Proof.
  intros [st1 H1].
  destruct (analyze_spec description imageBase64 mimeType) as [r' Hr'].
  rewrite Hr' in H1. simpl in H1. subst r'. apply Hr'.
Qed.

Lemma settles_encodeImage (image : option File.t) (r : Error + option string)
    (st : App) :
  settles (encodeImage env image) r → encodeImage env image st = (r, st).
Proof.
  intros [st1 H1]. rewrite encodeImage_spec in H1. simpl in H1. subst r.
  apply encodeImage_spec.
Qed.

(** C6. If the classifier call of the flow throws, the flow ends with
    the case it started from, and has dispatched nothing: no issue, no
    evidence, no other change to the case. *)
Theorem classifier_error_leaves_case_unchanged (st : App)
    (imageBase64 : option string) (e : Error) :
  settles (encodeImage env (newIssueImage st)) (inr imageBase64) →
  settles (analyzeIssueWithEvidence env (newIssueText st) imageBase64
             (File.type <$> newIssueImage st)) (inl e) →
  let st' := snd (handleCreateIssue env st) in
  tenantCase st' = tenantCase st ∧ dispatched st' = dispatched st.
Proof.
  intros Himg Hcls st'. subst st'. unfold handleCreateIssue.
  destruct (negb (JS.truthy (newIssueText st)) && _); [done |].
  unfold try_catch_finally, try_catch, bind.
  cbn [setIsAnalyzing update].
  rewrite (settles_encodeImage _ _ _ Himg).
  rewrite (settles_analyze _ _ _ _ _ Hcls).
  done.
Qed.

(** Building the issue never throws; it takes one uuid, reads the clock
    at most once, and writes nothing else. *)
Lemma buildIssue_spec (response : AIAnalysisResponse.t) (text : string) (st : App) :
  ∃ newIssue n,
    buildIssue env response text st
    = (inr newIssue,
       {| tenantCase := tenantCase st; isAnalyzing := isAnalyzing st;
          newIssueText := newIssueText st; newIssueImage := newIssueImage st;
          dispatched := dispatched st; console := console st;
          alerts := alerts st; uuids := S (uuids st); dates := n |})
    ∧ Issue.id newIssue = uuidv4 env (uuids st).
Proof.
  unfold buildIssue, bind, new_uuid, new_Date_ISO, ret. simpl.
  destruct (AIAnalysisResponse.issue response ≫= PartialIssue.first_noticed_at)
    as [s|]; [destruct (JS.truthy s) |]; simpl; eauto.
Qed.

(** The first piece of an ISO timestamp cut at its [T] is its date. *)
Lemma split0_date (today time : string) :
  JS.includes "T" today = false →
  split0 "T" (today +:+ "T" +:+ time) = today.
Proof.
  intros Hdate. unfold split0.
  change (today +:+ "T" +:+ time) with (today +:+ String "T" time).
  by rewrite (StoreProps.split_app_sep _ _ _ Hdate).
Qed.

(** The issue the flow appends when the answer has no issue field, as
    the flow computes it. *)
Lemma absent_fields_issue (st : App) (imageBase64 : option string)
    (response : AIAnalysisResponse.t) :
  JS.truthy (newIssueText st) = true ∨ is_Some (newIssueImage st) →
  settles (encodeImage env (newIssueImage st)) (inr imageBase64) →
  settles (analyzeIssueWithEvidence env (newIssueText st) imageBase64
             (File.type <$> newIssueImage st)) (inr response) →
  issue_fields_absent response →
  let st' := snd (handleCreateIssue env st) in
  ∃ newIssue,
    TenantCase.issues (tenantCase st')
    = TenantCase.issues (tenantCase st) ++ [newIssue]
    ∧ Issue.title newIssue = "New Issue"
    ∧ Issue.category newIssue = "General"
    ∧ Issue.room newIssue = "Unknown"
    ∧ Issue.severity newIssue = medium
    ∧ Issue.status newIssue = ongoing
    ∧ Issue.first_noticed_at newIssue
      = split0 "T" (toISOString env (dates st))
    ∧ Issue.description newIssue = newIssueText st
    ∧ Issue.habitability_categories newIssue = []
    ∧ Issue.id newIssue = uuidv4 env (uuids st).
Proof.
  intros Hguard Himg Hcls (Ht & Hc & Hr & Hs & Hst & Hf & Hd & Hh) st'.
  subst st'. unfold handleCreateIssue.
  assert (negb (JS.truthy (newIssueText st))
          && negb (bool_decide (is_Some (newIssueImage st))) = false) as ->.
  { destruct Hguard as [-> | Hi]; [done |].
    rewrite (bool_decide_eq_true_2 _ Hi). by rewrite andb_false_r. }
  unfold try_catch_finally, try_catch, bind.
  cbn [setIsAnalyzing update].
  rewrite (settles_encodeImage _ _ _ Himg).
  rewrite (settles_analyze _ _ _ _ _ Hcls).
  unfold buildIssue, bind, new_uuid, new_Date_ISO, ret.
  rewrite Ht, Hc, Hr, Hs, Hst, Hf, Hd, Hh. simpl.
  eexists.
  destruct imageBase64 as [b|];
    [destruct (AIAnalysisResponse.evidence_items response) as [[|ev evs]|];
     [| destruct (JS.truthy b) |] |];
    simpl; repeat split; reflexivity.
Qed.

(** C5. When the classifier answers with no issue field at all, the
    flow appends one issue, made of the defaults: title [New Issue],
    category [General], room [Unknown], severity [medium], status
    [ongoing], today's date as [first_noticed_at] (what stands before the
    [T] of the current ISO timestamp), the text the user typed as
    description, and no habitability category. *)
Theorem absent_fields_get_defaults (st : App) (imageBase64 : option string)
    (response : AIAnalysisResponse.t) :
  JS.truthy (newIssueText st) = true ∨ is_Some (newIssueImage st) →
  settles (encodeImage env (newIssueImage st)) (inr imageBase64) →
  settles (analyzeIssueWithEvidence env (newIssueText st) imageBase64
             (File.type <$> newIssueImage st)) (inr response) →
  issue_fields_absent response →
  let st' := snd (handleCreateIssue env st) in
  ∃ newIssue,
    TenantCase.issues (tenantCase st')
    = TenantCase.issues (tenantCase st) ++ [newIssue]
    ∧ Issue.title newIssue = "New Issue"
    ∧ Issue.category newIssue = "General"
    ∧ Issue.room newIssue = "Unknown"
    ∧ Issue.severity newIssue = medium
    ∧ Issue.status newIssue = ongoing
    ∧ (∀ today time,
         toISOString env (dates st) = today +:+ "T" +:+ time →
         JS.includes "T" today = false →
         Issue.first_noticed_at newIssue = today)
    ∧ Issue.description newIssue = newIssueText st
    ∧ Issue.habitability_categories newIssue = []
    ∧ Issue.id newIssue = uuidv4 env (uuids st).
Proof.
  intros Hguard Himg Hcls Habsent.
  destruct (absent_fields_issue st imageBase64 response Hguard Himg Hcls Habsent)
    as (newIssue & H1 & H2 & H3 & H4 & H5 & H6 & H7 & H8 & H9 & H10).
  exists newIssue. do 6 (split; [assumption |]).
  split; [| by repeat split].
  intros today time Hiso Hdate. rewrite H7, Hiso. by apply split0_date.
Qed.

Local Ltac nothing_added :=
  rewrite app_nil_r; split; [reflexivity |]; split; [reflexivity |];
  left; reflexivity.

Local Ltac only_issue :=
  simpl; split; [reflexivity |]; split; [reflexivity |];
  right; left; eexists; reflexivity.

(** C10. Whatever the flow meets, it dispatches nothing, or one
    [ADD_ISSUE], or one [ADD_ISSUE] followed by one [ADD_EVIDENCE]; in the
    last case the evidence carries the id of the issue just appended,
    which is then an issue of the case, an image had been supplied and
    the classifier had returned at least one evidence item. *)
Theorem evidence_references_new_issue (st : App) :
  let st' := snd (handleCreateIssue env st) in
  ∃ added,
    dispatched st' = dispatched st ++ added
    ∧ tenantCase st' = dispatchAll (tenantCase st) added
    ∧ (added = []
       ∨ (∃ newIssue, added = [ADD_ISSUE newIssue])
       ∨ (∃ newIssue item f b response ev rest,
            added = [ADD_ISSUE newIssue; ADD_EVIDENCE item]
            ∧ EvidenceItem.issue_id item = Issue.id newIssue
            ∧ newIssue ∈ TenantCase.issues (tenantCase st')
            ∧ TenantCase.evidence (tenantCase st')
              = TenantCase.evidence (tenantCase st) ++ [item]
            ∧ newIssueImage st = Some f
            ∧ fileToBase64 env f = inr b
            ∧ EvidenceItem.file_reference item = b
            ∧ settles (analyzeIssueWithEvidence env (newIssueText st) (Some b)
                         (Some (File.type f))) (inr response)
            ∧ AIAnalysisResponse.evidence_items response = Some (ev :: rest))).
Proof.
  intros st'. subst st'. unfold handleCreateIssue.
  destruct (negb (JS.truthy (newIssueText st)) && _).
  { exists []. nothing_added. }
  unfold try_catch_finally, try_catch, bind.
  cbn [setIsAnalyzing update].
  rewrite encodeImage_spec.
  destruct (newIssueImage st) as [f|] eqn:Himage.
  - destruct (fileToBase64 env f) as [e|b] eqn:Hfile.
    { exists []. nothing_added. }
    destruct (analyze_spec (newIssueText st) (Some b) (File.type <$> Some f))
      as [[e|response] Hr]; rewrite Hr.
    { exists []. nothing_added. }
    match goal with
    | |- context [buildIssue env response ?t ?s] =>
        destruct (buildIssue_spec response t s) as (newIssue & n & -> & Hid)
    end.
    destruct (AIAnalysisResponse.evidence_items response) as [[|ev evs]|] eqn:Hev;
      [| destruct (JS.truthy b) eqn:Hb |].
    + exists [ADD_ISSUE newIssue]. only_issue.
    + exists [ADD_ISSUE newIssue;
              ADD_EVIDENCE
                {| EvidenceItem.id := uuidv4 env (S (uuids st));
                   EvidenceItem.issue_id := Issue.id newIssue;
                   EvidenceItem.file_reference := b;
                   EvidenceItem.captured_at := toISOString env n;
                   EvidenceItem.uploaded_at := toISOString env (S n);
                   EvidenceItem.ai_caption :=
                     JS.or_str (PartialEvidence.ai_caption ev) "Evidence image";
                   EvidenceItem.user_caption := "" |}].
      simpl. rewrite <- app_assoc. split; [done |]. split; [done |].
      right. right. do 7 eexists. repeat split; try done.
      * apply elem_of_app. right. apply list_elem_of_singleton. done.
      * exists st. by rewrite Hr.
    + exists [ADD_ISSUE newIssue]. only_issue.
    + exists [ADD_ISSUE newIssue]. only_issue.
  - destruct (analyze_spec (newIssueText st) None (File.type <$> None))
      as [[e|response] Hr]; rewrite Hr.
    { exists []. nothing_added. }
    match goal with
    | |- context [buildIssue env response ?t ?s] =>
        destruct (buildIssue_spec response t s) as (newIssue & n & -> & Hid)
    end.
    exists [ADD_ISSUE newIssue]. only_issue.
Qed.

End Flow.

(** A classifier whose remote call is rejected, met with the text
    [ceiling mold] and no image. *)
Lemma classifier_error_leaves_case_unchanged_witness :
  let st' := snd (handleCreateIssue Sample.env_failing Sample.app_mold) in
  tenantCase st' = tenantCase Sample.app_mold
  ∧ dispatched st' = dispatched Sample.app_mold.
Proof.
  apply (classifier_error_leaves_case_unchanged Sample.env_failing
           Sample.app_mold None "503");
    exists Sample.app_mold; reflexivity.
Defined.

(** The scenario of the specification: an answer without any field to
    the description [ceiling mold]. *)
Lemma absent_fields_get_defaults_witness :
  let st' := snd (handleCreateIssue Sample.env_empty_answer Sample.app_mold) in
  ∃ newIssue,
    TenantCase.issues (tenantCase st')
    = TenantCase.issues (tenantCase Sample.app_mold) ++ [newIssue]
    ∧ Issue.title newIssue = "New Issue"
    ∧ Issue.category newIssue = "General"
    ∧ Issue.room newIssue = "Unknown"
    ∧ Issue.severity newIssue = medium
    ∧ Issue.status newIssue = ongoing
    ∧ Issue.first_noticed_at newIssue = "2024-03-01"
    ∧ Issue.description newIssue = "ceiling mold"
    ∧ Issue.habitability_categories newIssue = []
    ∧ Issue.id newIssue = "uuid-0".
Proof.
  destruct (absent_fields_get_defaults Sample.env_empty_answer Sample.app_mold
              None Sample.empty_response)
    as (newIssue & H1 & H2 & H3 & H4 & H5 & H6 & H7 & H8 & H9 & H10).
  - left. reflexivity.
  - exists Sample.app_mold. reflexivity.
  - exists Sample.app_mold. reflexivity.
  - repeat split.
  - exists newIssue. do 6 (split; [assumption |]).
    split; [apply (H7 "2024-03-01" "09:30:00.000Z"); reflexivity |].
    split; [assumption |]. split; assumption.
Defined.

End CreateIssueProps.

(** ** The timeline chart *)

Module TimelineProps.
Import Timeline.

Local Open Scope Z_scope.

(** *** The extent of a list of dates *)

Lemma extent_from_some (values : list (option Z)) (lo0 hi0 : Z) :
  ∃ lo hi,
    fold_left extent_step values (Some (lo0, hi0)) = Some (lo, hi)
    ∧ lo <= lo0 ∧ hi0 <= hi
    ∧ ∀ t, Some t ∈ values → lo <= t <= hi.
Proof.
  revert lo0 hi0. induction values as [|v values IH]; intros lo0 hi0.
  - exists lo0, hi0. split; [done |]. split; [lia |]. split; [lia |].
    intros t Ht. inversion Ht.
  - destruct v as [v|]; simpl.
    + destruct (IH (if lo0 >? v then v else lo0) (if hi0 <? v then v else hi0))
        as (lo & hi & Heq & Hlo & Hhi & Hall).
      exists lo, hi. split; [exact Heq |].
      destruct (Z.gtb_spec lo0 v), (Z.ltb_spec hi0 v);
        (split; [lia |]; split; [lia |];
         intros t Ht; apply elem_of_cons in Ht as [Ht | Ht];
         [injection Ht as ->; lia | apply Hall, Ht]).
    + destruct (IH lo0 hi0) as (lo & hi & Heq & Hlo & Hhi & Hall).
      exists lo, hi. split; [exact Heq |]. split; [lia |]. split; [lia |].
      intros t Ht. apply elem_of_cons in Ht as [Ht | Ht]; [done |].
      apply Hall, Ht.
Qed.

Lemma extent_bounds (values : list (option Z)) (t0 : Z) :
  Some t0 ∈ values →
  ∃ lo hi, extent values = Some (lo, hi)
           ∧ lo <= hi
           ∧ ∀ t, Some t ∈ values → lo <= t <= hi.
Proof.
  unfold extent. induction values as [|v values IH]; intros Hin.
  - inversion Hin.
  - destruct v as [v|]; simpl.
    + destruct (extent_from_some values v v) as (lo & hi & Heq & Hlo & Hhi & Hall).
      exists lo, hi. split; [exact Heq |]. split; [lia |].
      intros t Ht. apply elem_of_cons in Ht as [Ht | Ht];
        [injection Ht as ->; lia | apply Hall, Ht].
    + apply elem_of_cons in Hin as [Hin | Hin]; [done |].
      destruct (IH Hin) as (lo & hi & Heq & Hle & Hall).
      exists lo, hi. split; [exact Heq |]. split; [lia |].
      intros t Ht. apply elem_of_cons in Ht as [Ht | Ht];
        [done | apply Hall, Ht].
Qed.

Section Chart.
Variable parseDate : string → option Z.
Variable nice : Z * Z → Z * Z.

Lemma now_in_allDates issues communications now :
  Some now ∈ allDates parseDate issues communications now.
Proof.
  unfold allDates. rewrite !elem_of_app. right. right.
  by apply list_elem_of_singleton.
Qed.

Lemma issue_in_allDates issues communications now (d : Issue.t) (t : Z) :
  d ∈ issues → parseDate (Issue.first_noticed_at d) = Some t →
  Some t ∈ allDates parseDate issues communications now.
Proof.
  intros Hd Ht. unfold allDates. rewrite !elem_of_app. left.
  rewrite <- Ht.
  by apply (list_elem_of_fmap_2 (fun d => parseDate (Issue.first_noticed_at d))).
Qed.

Lemma comm_in_allDates issues communications now (c : Communication.t) (t : Z) :
  c ∈ communications → parseDate (Communication.date c) = Some t →
  Some t ∈ allDates parseDate issues communications now.
Proof.
  intros Hc Ht. unfold allDates. rewrite !elem_of_app. right. left.
  rewrite <- Ht.
  by apply (list_elem_of_fmap_2 (fun c => parseDate (Communication.date c))).
Qed.

(** Because the current instant is among the dates, the extent always
    exists, and so does the domain. *)
Lemma timeDomain_some issues communications now :
  ∃ lo hi,
    extent (allDates parseDate issues communications now) = Some (lo, hi)
    ∧ timeDomain parseDate nice issues communications now = Some (nice (lo, hi))
    ∧ lo <= hi
    ∧ ∀ t, Some t ∈ allDates parseDate issues communications now →
           lo <= t <= hi.
Proof.
  destruct (extent_bounds _ now (now_in_allDates issues communications now))
    as (lo & hi & Heq & Hle & Hall).
  exists lo, hi. unfold timeDomain. rewrite Heq. done.
Qed.

(** What the effect draws when there is an issue or a communication. *)
Lemma chart_with_data (clientWidth : Z) (clock : nat → Z) issues communications :
  issues ≠ [] ∨ communications ≠ [] →
  TimelineChart parseDate nice (Some clientWidth) clock issues communications
  = let width := clientWidth - margin_left - margin_right in
    let height := Z.max minHeight (Z.of_nat (length issues) * rowHeight) in
    let domain := timeDomain parseDate nice issues communications (clock 0%nat) in
    let x := scaleTime domain width in
    let y := scaleBand (map Issue.title issues) height (4 # 10) in
    Some {| svg_height := height + margin_top + margin_bottom;
            placeholder := None;
            x_domain := domain;
            row_labels := map truncate_label (band_domain y);
            bars := imap (bar parseDate x y clock) issues;
            circles := flat_map (commCircles parseDate x y issues) communications |}.
Proof.
  intros Hdata. unfold TimelineChart.
  destruct issues as [|d issues]; [| done].
  destruct communications as [|c communications]; [| done].
  by destruct Hdata.
Qed.

(** The time scale is defined on every valid date once the domain
    exists. *)
Lemma scaleTime_some (domain : Z * Z) (width t : Z) :
  ∃ q, scaleTime (Some domain) width (Some t) = Some q.
Proof. destruct domain as [d0 d1]. simpl. eauto. Qed.

(** The bar does not read the status. *)
Lemma bar_ignores_status x y clock k (d d' : Issue.t) :
  Issue.title d' = Issue.title d →
  Issue.first_noticed_at d' = Issue.first_noticed_at d →
  Issue.severity d' = Issue.severity d →
  bar parseDate x y clock k d' = bar parseDate x y clock k d.
Proof.
  intros Ht Hf Hs. unfold bar. rewrite Ht, Hf, Hs.
  by destruct (Issue.status d), (Issue.status d').
Qed.

(** The bar of the [k]-th issue, when its date is valid. *)
Lemma bar_of_valid_date x y clock k (d : Issue.t) (t : Z) (x0 x1 : Q) :
  parseDate (Issue.first_noticed_at d) = Some t →
  x (Some t) = Some x0 →
  x (Some (clock (S k))) = Some x1 →
  rect_x (bar parseDate x y clock k d) = Some x0
  ∧ rect_width (bar parseDate x y clock k d) = Some (Qmax 5 (x1 - x0)).
Proof.
  intros Ht H0 H1. unfold bar. simpl. rewrite Ht, H0.
  split; [done |].
  destruct (Issue.status d); by rewrite H1.
Qed.

(** C3 (amended). The bar of every issue with a valid date starts at
    the position of [first_noticed_at]; its width is the distance from
    there to the position of the current instant, but never less than
    the fixed 5 units, whatever the width of the chart; so it ends at the
    current instant whenever that distance is at least 5; and an issue
    that differs only by its status (or by fields the bar does not show)
    gets the very same bar. *)
Theorem bar_spans_first_noticed_to_now (clientWidth : Z) (clock : nat → Z)
    (issues : list Issue.t) (communications : list Communication.t)
    (k : nat) (d : Issue.t) (t : Z) :
  issues !! k = Some d →
  parseDate (Issue.first_noticed_at d) = Some t →
  ∃ chart rect x0 x1,
    let x := scaleTime (x_domain chart)
               (clientWidth - margin_left - margin_right) in
    let y := scaleBand (map Issue.title issues)
               (Z.max minHeight (Z.of_nat (length issues) * rowHeight))
               (4 # 10) in
    TimelineChart parseDate nice (Some clientWidth) clock issues communications
    = Some chart
    ∧ bars chart !! k = Some rect
    ∧ x (Some t) = Some x0
    ∧ x (Some (clock (S k))) = Some x1
    ∧ rect_x rect = Some x0
    ∧ rect_width rect = Some (Qmax 5 (x1 - x0))
    ∧ (5 <= Qmax 5 (x1 - x0))%Q
    ∧ ((5 <= x1 - x0)%Q → (x0 + Qmax 5 (x1 - x0) == x1)%Q)
    ∧ (∀ d', Issue.title d' = Issue.title d →
             Issue.first_noticed_at d' = Issue.first_noticed_at d →
             Issue.severity d' = Issue.severity d →
             bar parseDate x y clock k d' = rect).
Proof.
  intros Hk Ht.
  assert (issues ≠ [] ∨ communications ≠ []) as Hdata.
  { left. intros ->. inversion Hk. }
  rewrite (chart_with_data _ _ _ _ Hdata). cbv zeta.
  destruct (timeDomain_some issues communications (clock 0%nat))
    as (lo & hi & _ & Hdom & _ & _).
  rewrite Hdom.
  destruct (scaleTime_some (nice (lo, hi))
              (clientWidth - margin_left - margin_right) t) as [x0 H0].
  destruct (scaleTime_some (nice (lo, hi))
              (clientWidth - margin_left - margin_right) (clock (S k)))
    as [x1 H1].
  eexists _, _, x0, x1.
  split; [reflexivity |]. cbn [x_domain bars].
  split; [rewrite list_lookup_imap, Hk; reflexivity |].
  split; [exact H0 |]. split; [exact H1 |].
  destruct (bar_of_valid_date _
              (scaleBand (map Issue.title issues)
                 (Z.max minHeight (Z.of_nat (length issues) * rowHeight)) (4 # 10))
              clock k d t x0 x1 Ht H0 H1) as [Hx Hw].
  split; [exact Hx |]. split; [exact Hw |].
  split; [apply Q.le_max_l |].
  split.
  - intros Hge. rewrite (Q.max_r _ _ Hge). ring.
  - intros d' Ht' Hf' Hs'. by apply bar_ignores_status.
Qed.

(** C2 (amended). The result of the effect is fixed by the element it
    draws into (mounted or not, and its client width), the two lists, and
    the values of the clock reads it makes: the one of line 52 and one
    per issue. *)
Theorem chart_determined_by_inputs (svgRef : option Z) (clock1 clock2 : nat → Z)
    (issues : list Issue.t) (communications : list Communication.t) :
  (∀ k, (k <= length issues)%nat → clock1 k = clock2 k) →
  TimelineChart parseDate nice svgRef clock1 issues communications
  = TimelineChart parseDate nice svgRef clock2 issues communications.
Proof.
  intros Hclock. unfold TimelineChart.
  destruct svgRef as [clientWidth|]; [| done].
  destruct ((length issues =? 0)%nat && (length communications =? 0)%nat);
    [done |].
  rewrite (Hclock 0%nat) by lia.
  do 2 f_equal.
  apply imap_ext. intros k d Hk.
  apply lookup_lt_Some in Hk.
  unfold bar. rewrite (Hclock (S k)) by lia. done.
Qed.

(** The loop over the linked ids: the flag ends true when it started
    true or some id resolved, and the dots are those of the ids that
    resolve, in order. *)
Lemma linkStep_loop x y issues comm (ids : list string) (linked : bool)
    (dots : list Circle) :
  fold_left (linkStep parseDate x y issues comm) ids (linked, dots)
  = (linked || match omap (findIssue issues) ids with
               | [] => false
               | _ :: _ => true
               end,
     dots ++ map (rowCircle parseDate x y comm) (omap (findIssue issues) ids)).
Proof.
  revert linked dots. induction ids as [|issueId ids IH]; intros linked dots.
  - simpl. by rewrite orb_false_r, app_nil_r.
  - simpl. destruct (findIssue issues issueId) as [issue|]; rewrite IH.
    + simpl. rewrite orb_true_r, <- app_assoc. done.
    + done.
Qed.

(** The dots the code draws for a communication are those of the
    specification. *)
Lemma commCircles_spec x y issues (comm : Communication.t) :
  commCircles parseDate x y issues comm = spec_markers parseDate x y issues comm.
Proof.
  unfold commCircles, spec_markers. rewrite linkStep_loop. simpl.
  destruct (omap (findIssue issues) (Communication.linked_issue_ids comm));
    simpl; [done | by rewrite app_nil_r].
Qed.

(** C1 (amended). The dots of the chart are those of its
    communications, one communication after the other. A communication
    gets one dot per linked id that resolves, at the date of the
    communication and at mid-height of the bar of the issue it resolves
    to, ids that do not resolve being skipped; and it gets the single
    top-line dot, at its date and 15 units above the rows, exactly when
    none of its linked ids resolves, be it that it has none. *)
Theorem markers_of_each_communication (clientWidth : Z) (clock : nat → Z)
    (issues : list Issue.t) (communications : list Communication.t) :
  ∃ chart,
    let x := scaleTime (x_domain chart)
               (clientWidth - margin_left - margin_right) in
    let y := scaleBand (map Issue.title issues)
               (Z.max minHeight (Z.of_nat (length issues) * rowHeight))
               (4 # 10) in
    TimelineChart parseDate nice (Some clientWidth) clock issues communications
    = Some chart
    ∧ circles chart
      = flat_map (spec_markers parseDate x y issues) communications
    ∧ ∀ comm,
        let resolved :=
          omap (findIssue issues) (Communication.linked_issue_ids comm) in
        (resolved = [] →
           spec_markers parseDate x y issues comm
           = [generalCircle parseDate x comm])
        ∧ (resolved ≠ [] →
           spec_markers parseDate x y issues comm
           = map (rowCircle parseDate x y comm) resolved)
        ∧ (∀ issue k,
             cx (rowCircle parseDate x y comm issue)
             = x (parseDate (Communication.date comm))
             ∧ cy (rowCircle parseDate x y comm issue)
               = (rect_y (bar parseDate x y clock k issue)
                  + rect_height (bar parseDate x y clock k issue) / 2)%Q)
        ∧ cx (generalCircle parseDate x comm)
          = x (parseDate (Communication.date comm))
        ∧ cy (generalCircle parseDate x comm) = (-15)%Q.
Proof.
  assert (∀ x y comm,
            let resolved :=
              omap (findIssue issues) (Communication.linked_issue_ids comm) in
            (resolved = [] →
               spec_markers parseDate x y issues comm
               = [generalCircle parseDate x comm])
            ∧ (resolved ≠ [] →
               spec_markers parseDate x y issues comm
               = map (rowCircle parseDate x y comm) resolved)
            ∧ (∀ issue k,
                 cx (rowCircle parseDate x y comm issue)
                 = x (parseDate (Communication.date comm))
                 ∧ cy (rowCircle parseDate x y comm issue)
                   = (rect_y (bar parseDate x y clock k issue)
                      + rect_height (bar parseDate x y clock k issue) / 2)%Q)
            ∧ cx (generalCircle parseDate x comm)
              = x (parseDate (Communication.date comm))
            ∧ cy (generalCircle parseDate x comm) = (-15)%Q) as Hper.
  { intros x y comm resolved. subst resolved. unfold spec_markers.
    destruct (omap (findIssue issues) (Communication.linked_issue_ids comm)).
    - split; [done |]. split; [by intros [] |]. done.
    - split; [done |]. split; [intros _; by rewrite app_nil_r |]. done. }
  destruct issues as [|d issues'] eqn:Hissues;
    [destruct communications as [|c communications'] eqn:Hcomms |].
  - eexists. split; [reflexivity |]. split; [reflexivity | apply Hper].
  - rewrite chart_with_data by (right; done).
    eexists. split; [reflexivity |]. cbn [x_domain circles].
    split; [| apply Hper].
    apply flat_map_ext. intros comm. apply commCircles_spec.
  - rewrite chart_with_data by (left; done).
    eexists. split; [reflexivity |]. cbn [x_domain circles].
    split; [| apply Hper].
    apply flat_map_ext. intros comm. apply commCircles_spec.
Qed.

Section Widening.

(** What the specification asks of the widening: the niced domain
    contains the extent it is made from. *)
Hypothesis nice_widens :
  ∀ d : Z * Z, fst d <= snd d → fst (nice d) <= fst d ∧ snd d <= snd (nice d).

(** C4. For all issues, communications and current instant, the domain
    of the time axis exists and lies around the current instant, around
    the date of every issue and around the date of every communication;
    and it is the domain of every chart drawn from these inputs. *)
Theorem time_domain_contains_inputs (issues : list Issue.t)
    (communications : list Communication.t) (now : Z) :
  ∃ lo hi,
    timeDomain parseDate nice issues communications now = Some (lo, hi)
    ∧ lo <= now <= hi
    ∧ (∀ d t, d ∈ issues → parseDate (Issue.first_noticed_at d) = Some t →
              lo <= t <= hi)
    ∧ (∀ c t, c ∈ communications → parseDate (Communication.date c) = Some t →
              lo <= t <= hi)
    ∧ (∀ clientWidth clock chart,
         clock 0%nat = now →
         TimelineChart parseDate nice (Some clientWidth) clock issues communications
         = Some chart →
         placeholder chart = None →
         x_domain chart = Some (lo, hi)).
Proof.
  destruct (timeDomain_some issues communications now)
    as (lo & hi & Hext & Hdom & Hle & Hall).
  destruct (nice_widens (lo, hi) Hle) as [Hlo Hhi]. simpl in Hlo, Hhi.
  exists (fst (nice (lo, hi))), (snd (nice (lo, hi))).
  rewrite <- surjective_pairing. split; [exact Hdom |].
  assert (∀ t, Some t ∈ allDates parseDate issues communications now →
               fst (nice (lo, hi)) <= t <= snd (nice (lo, hi))) as Hin.
  { intros t Ht. specialize (Hall t Ht). lia. }
  split; [apply Hin, now_in_allDates |].
  split; [intros d t Hd Ht; eapply Hin, issue_in_allDates; eauto |].
  split; [intros c t Hc Ht; eapply Hin, comm_in_allDates; eauto |].
  intros clientWidth clock chart Hnow Hchart Hplace.
  unfold TimelineChart in Hchart.
  destruct ((length issues =? 0)%nat && (length communications =? 0)%nat);
    injection Hchart as <-; [done |].
  simpl. by rewrite Hnow.
Qed.

End Widening.

End Chart.

(** *** The properties on the sample data *)

Lemma sample_nice_widens (d : Z * Z) :
  fst d <= snd d →
  fst (Sample.nice d) <= fst d ∧ snd d <= snd (Sample.nice d).
Proof.
  intros _. unfold Sample.nice, Sample.msPerDay. simpl.
  pose proof (Z.mul_div_le (fst d) 86400000 eq_refl).
  pose proof (Z.mul_div_le (- snd d) 86400000 eq_refl).
  lia.
Qed.

Lemma time_domain_contains_inputs_witness :
  ∃ lo hi,
    timeDomain Sample.parseDate Sample.nice [Sample.leak] [Sample.linked_comm]
               (Sample.clock 0%nat) = Some (lo, hi)
    ∧ lo <= Sample.clock 0%nat <= hi
    ∧ (∀ d t, d ∈ [Sample.leak] →
              Sample.parseDate (Issue.first_noticed_at d) = Some t →
              lo <= t <= hi)
    ∧ (∀ c t, c ∈ [Sample.linked_comm] →
              Sample.parseDate (Communication.date c) = Some t →
              lo <= t <= hi)
    ∧ (∀ clientWidth clock chart,
         clock 0%nat = Sample.clock 0%nat →
         TimelineChart Sample.parseDate Sample.nice (Some clientWidth) clock
           [Sample.leak] [Sample.linked_comm] = Some chart →
         placeholder chart = None →
         x_domain chart = Some (lo, hi)).
Proof.
  apply (time_domain_contains_inputs Sample.parseDate Sample.nice
           sample_nice_widens).
Defined.

(** The scenario of the specification: one issue first noticed on
    2024-01-01, drawn on 2024-03-01. *)
Lemma bar_spans_first_noticed_to_now_witness :
  ∃ chart rect x0 x1,
    let x := scaleTime (x_domain chart) (1010 - margin_left - margin_right) in
    let y := scaleBand (map Issue.title [Sample.leak])
               (Z.max minHeight (Z.of_nat (length [Sample.leak]) * rowHeight))
               (4 # 10) in
    TimelineChart Sample.parseDate Sample.nice (Some 1010) Sample.clock
      [Sample.leak] [] = Some chart
    ∧ bars chart !! 0%nat = Some rect
    ∧ x (Some 1704067200000) = Some x0
    ∧ x (Some (Sample.clock 1%nat)) = Some x1
    ∧ rect_x rect = Some x0
    ∧ rect_width rect = Some (Qmax 5 (x1 - x0))
    ∧ (5 <= Qmax 5 (x1 - x0))%Q
    ∧ ((5 <= x1 - x0)%Q → (x0 + Qmax 5 (x1 - x0) == x1)%Q)
    ∧ (∀ d', Issue.title d' = Issue.title Sample.leak →
             Issue.first_noticed_at d' = Issue.first_noticed_at Sample.leak →
             Issue.severity d' = Issue.severity Sample.leak →
             bar Sample.parseDate x y Sample.clock 0 d' = rect).
Proof.
  apply (bar_spans_first_noticed_to_now Sample.parseDate Sample.nice 1010
           Sample.clock [Sample.leak] [] 0 Sample.leak 1704067200000);
    reflexivity.
Defined.

(** C3, the claim as stated fails: no positive fraction [c] of the chart
    width is a lower bound of the bar widths. The bar of an issue first
    noticed at the current instant is 5 units wide at every chart width,
    and [c] times the width passes 5 on a chart wide enough. *)
Lemma minimum_bar_width_is_not_a_fraction :
  ¬ ∃ c : Q, (0 < c)%Q ∧
      ∀ (clientWidth : Z) chart rect w,
        TimelineChart Sample.parseDate Sample.nice (Some clientWidth)
          Sample.clock [Sample.today_issue] [] = Some chart →
        bars chart !! 0%nat = Some rect →
        rect_width rect = Some w →
        (c * inject_Z (clientWidth - margin_left - margin_right) <= w)%Q.
Proof.
  intros ([a b] & Hc & H).
  set (cw := 210 + 6 * Z.pos b).
  assert ([Sample.today_issue] ≠ [] ∨ @nil Communication.t ≠ []) as Hdata
    by (left; done).
  pose proof (chart_with_data Sample.parseDate Sample.nice cw Sample.clock
                [Sample.today_issue] [] Hdata) as Hchart.
  cbv zeta in Hchart.
  destruct (timeDomain_some Sample.parseDate Sample.nice [Sample.today_issue] []
              (Sample.clock 0%nat)) as (lo & hi & _ & Hdom & _ & _).
  rewrite Hdom in Hchart.
  destruct (scaleTime_some (Sample.nice (lo, hi))
              (cw - margin_left - margin_right) 1709251200000) as [q Hq].
  destruct (bar_of_valid_date Sample.parseDate
              (scaleTime (Some (Sample.nice (lo, hi)))
                 (cw - margin_left - margin_right))
              (scaleBand (map Issue.title [Sample.today_issue])
                 (Z.max minHeight
                    (Z.of_nat (length [Sample.today_issue]) * rowHeight))
                 (4 # 10))
              Sample.clock 0 Sample.today_issue 1709251200000 q q
              eq_refl Hq Hq) as [_ Hw].
  specialize (H cw _ _ _ Hchart eq_refl Hw).
  assert (Qmax 5 (q - q) == 5)%Q as Hmax.
  { apply Q.max_l. assert (q - q == 0)%Q as -> by ring. discriminate. }
  rewrite Hmax in H.
  unfold cw, margin_left, margin_right in H.
  replace (210 + 6 * Z.pos b - 180 - 30) with (6 * Z.pos b) in H by lia.
  unfold Qlt in Hc. unfold Qle in H. simpl in Hc, H. nia.
Qed.

(** A second clock that agrees with the first on the two reads of a
    one-issue chart and differs afterwards. *)
Lemma chart_determined_by_inputs_witness :
  TimelineChart Sample.parseDate Sample.nice (Some 1010) Sample.clock
    [Sample.leak] [Sample.linked_comm]
  = TimelineChart Sample.parseDate Sample.nice (Some 1010) Sample.clock_drifting
      [Sample.leak] [Sample.linked_comm].
Proof.
  apply (chart_determined_by_inputs Sample.parseDate Sample.nice (Some 1010)
           Sample.clock Sample.clock_drifting [Sample.leak] [Sample.linked_comm]).
  intros [|[|k]] Hk; simpl in Hk; [reflexivity | reflexivity | lia].
Defined.

(** C2, the claim as stated fails: the same issues, communications and
    clock drawn into an element 710 wide and into one 1210 wide give two
    different charts. *)
Lemma chart_depends_on_client_width :
  TimelineChart Sample.parseDate Sample.nice (Some 710) Sample.clock
    [Sample.leak] []
  ≠ TimelineChart Sample.parseDate Sample.nice (Some 1210) Sample.clock
      [Sample.leak] [].
Proof. vm_compute. discriminate. Qed.

(** The first scenario of the specification, on an element 1010 wide:
    one row labelled [Leak], one bar from the left end of the axis over
    the whole width of 800, no dot. *)
Example leak_chart :
  ∃ chart rect x0 w,
    TimelineChart Sample.parseDate Sample.nice (Some 1010) Sample.clock
      [Sample.leak] [] = Some chart
    ∧ x_domain chart = Some (1704067200000, 1709251200000)
    ∧ row_labels chart = ["Leak"]
    ∧ bars chart = [rect]
    ∧ rect_x rect = Some x0 ∧ (x0 == 0)%Q
    ∧ rect_width rect = Some w ∧ (w == 800)%Q
    ∧ circles chart = [].
Proof.
  eexists _, _, _, _. split; [reflexivity |].
  vm_compute. repeat split; reflexivity.
Qed.

(** C1, the claim as stated fails: a communication whose only linked id
    names no issue gets one dot, on the top line. *)
Lemma unresolved_links_get_the_general_marker :
  Communication.linked_issue_ids Sample.dangling = ["ghost"]
  ∧ findIssue [Sample.leak] "ghost" = None
  ∧ ∃ chart,
      TimelineChart Sample.parseDate Sample.nice (Some 1010) Sample.clock
        [Sample.leak] [Sample.dangling] = Some chart
      ∧ length (circles chart) = 1%nat
      ∧ map cy (circles chart) = [(-15)%Q]
      ∧ map r (circles chart) = [5].
Proof.
  split; [reflexivity |]. split; [reflexivity |].
  eexists. split; [reflexivity |]. vm_compute. done.
Qed.

End TimelineProps.

(** ** More on the case store *)

Module StoreMore.
Import Store.

Lemma reducer_prefix (state : TenantCase.t) (a : Action) :
  match a with LOAD_CASE _ | RESET_CASE => False | _ => True end →
  TenantCase.issues state `prefix_of` TenantCase.issues (caseReducer state a)
  ∧ TenantCase.evidence state `prefix_of` TenantCase.evidence (caseReducer state a)
  ∧ TenantCase.communications state
    `prefix_of` TenantCase.communications (caseReducer state a).
Proof.
  destruct a; simpl; intros H; try done;
    repeat split; try reflexivity; by apply prefix_app_r.
Qed.

(** X1. No action other than [LOAD_CASE] and [RESET_CASE] ever removes
    or reorders an issue, an evidence item or a communication: after any
    sequence of the other actions, each collection starts with what it
    was. *)
Theorem collections_only_grow (state : TenantCase.t) (actions : list Action) :
  Forall (fun a => match a with
                   | LOAD_CASE _ | RESET_CASE => False
                   | _ => True
                   end) actions →
  let final := dispatchAll state actions in
  TenantCase.issues state `prefix_of` TenantCase.issues final
  ∧ TenantCase.evidence state `prefix_of` TenantCase.evidence final
  ∧ TenantCase.communications state
    `prefix_of` TenantCase.communications final.
Proof.
  intros Hall. revert state.
  induction Hall as [|a actions Ha _ IH]; intros state; simpl.
  - done.
  - destruct (reducer_prefix state a Ha) as (H1 & H2 & H3).
    destruct (IH (caseReducer state a)) as (I1 & I2 & I3).
    repeat split; etrans; eauto.
Qed.

Lemma collections_only_grow_witness :
  let final := dispatchAll Sample.named_case
                 [ADD_ISSUE Sample.leak; SET_REPORT "a" "b" "c";
                  handleUpdateMeta Sample.named_case "property_address" "1 Main St";
                  ADD_COMMUNICATION Sample.dangling] in
  TenantCase.issues Sample.named_case `prefix_of` TenantCase.issues final
  ∧ TenantCase.evidence Sample.named_case `prefix_of` TenantCase.evidence final
  ∧ TenantCase.communications Sample.named_case
    `prefix_of` TenantCase.communications final.
Proof.
  apply (collections_only_grow Sample.named_case
           [ADD_ISSUE Sample.leak; SET_REPORT "a" "b" "c";
            handleUpdateMeta Sample.named_case "property_address" "1 Main St";
            ADD_COMMUNICATION Sample.dangling]).
  repeat constructor.
Defined.

(** X2. Updating a field whose name has no dot stores the string under
    that key and changes no other key and no collection; a sub-object
    stored under that key is replaced by the string. *)
Theorem flat_update_sets_one_key (state : TenantCase.t) (field value : string) :
  JS.includes "." field = false →
  let state' := caseReducer state (handleUpdateMeta state field value) in
  TenantCase.meta state' !! field = Some (MStr value)
  ∧ (∀ key, key ≠ field →
       TenantCase.meta state' !! key = TenantCase.meta state !! key)
  ∧ TenantCase.issues state' = TenantCase.issues state
  ∧ TenantCase.evidence state' = TenantCase.evidence state
  ∧ TenantCase.communications state' = TenantCase.communications state.
Proof.
  intros Hf state'. subst state'. unfold handleUpdateMeta. rewrite Hf. simpl.
  unfold spread2. repeat split.
  - rewrite lookup_union_l'; rewrite lookup_singleton_eq; eauto.
  - intros key Hne. rewrite lookup_union_r; [done |].
    by apply lookup_singleton_ne.
Qed.

Lemma flat_update_sets_one_key_witness :
  let state' := caseReducer Sample.named_case
                  (handleUpdateMeta Sample.named_case "landlord_contact" "Ann") in
  TenantCase.meta state' !! "landlord_contact" = Some (MStr "Ann")
  ∧ (∀ key, key ≠ "landlord_contact" →
       TenantCase.meta state' !! key = TenantCase.meta Sample.named_case !! key)
  ∧ TenantCase.issues state' = TenantCase.issues Sample.named_case
  ∧ TenantCase.evidence state' = TenantCase.evidence Sample.named_case
  ∧ TenantCase.communications state'
    = TenantCase.communications Sample.named_case.
Proof.
  apply (flat_update_sets_one_key Sample.named_case "landlord_contact" "Ann").
  reflexivity.
Defined.

(** The sub-object under [parent] after a nested update dispatched by a
    handler that saw [seen] and reduced on [state]. *)
Lemma nested_update_lookup (seen state : TenantCase.t)
    (parent child value : string) :
  JS.includes "." parent = false →
  JS.includes "." child = false →
  TenantCase.meta
    (caseReducer state (handleUpdateMeta seen (parent +:+ "." +:+ child) value))
    !! parent
  = Some (MObj (<[child := value]>
                  (spread_val (TenantCase.meta seen !! parent)))).
Proof.
  intros Hp Hc.
  rewrite (StoreProps.handleUpdateMeta_nested _ _ _ _ Hp Hc). simpl.
  unfold spread2. rewrite lookup_union_l'; rewrite lookup_singleton_eq; eauto.
Qed.

(** X3. Two nested updates of the same sub-object, each dispatched by
    the handler of the render that follows the previous one, both take
    effect: the sub-object ends with the two fields set and its other
    fields as they were. *)
Theorem successive_nested_updates_compose (state : TenantCase.t)
    (parent c1 c2 v1 v2 : string) (o : gmap string string) :
  JS.includes "." parent = false →
  JS.includes "." c1 = false →
  JS.includes "." c2 = false →
  TenantCase.meta state !! parent = Some (MObj o) →
  let s1 := caseReducer state
              (handleUpdateMeta state (parent +:+ "." +:+ c1) v1) in
  let s2 := caseReducer s1 (handleUpdateMeta s1 (parent +:+ "." +:+ c2) v2) in
  TenantCase.meta s2 !! parent = Some (MObj (<[c2 := v2]> (<[c1 := v1]> o))).
Proof.
  intros Hp H1 H2 Ho s1 s2. subst s2.
  rewrite (nested_update_lookup s1 s1 _ _ _ Hp H2).
  subst s1. rewrite (nested_update_lookup state state _ _ _ Hp H1), Ho.
  done.
Qed.

Lemma successive_nested_updates_compose_witness :
  let s1 := caseReducer Sample.named_case
              (handleUpdateMeta Sample.named_case
                 ("landlord_contact" +:+ "." +:+ "phone") "555") in
  let s2 := caseReducer s1
              (handleUpdateMeta s1 ("landlord_contact" +:+ "." +:+ "email") "a@b") in
  TenantCase.meta s2 !! "landlord_contact"
  = Some (MObj (<["email" := "a@b"]> (<["phone" := "555"]> Sample.named_contact))).
Proof.
  apply (successive_nested_updates_compose Sample.named_case
           "landlord_contact" "phone" "email" "555" "a@b" Sample.named_contact);
    reflexivity.
Defined.

(** X4. Two nested updates of two different fields of the same
    sub-object dispatched by the handler of one and the same render: the
    second is built from the sub-object that render saw, so the first
    update is lost and its field is back to its old value. *)
Theorem same_render_updates_lose_the_first (state : TenantCase.t)
    (parent c1 c2 v1 v2 : string) (o : gmap string string) :
  JS.includes "." parent = false →
  JS.includes "." c1 = false →
  JS.includes "." c2 = false →
  c1 ≠ c2 →
  TenantCase.meta state !! parent = Some (MObj o) →
  let s1 := caseReducer state
              (handleUpdateMeta state (parent +:+ "." +:+ c1) v1) in
  let s2 := caseReducer s1
              (handleUpdateMeta state (parent +:+ "." +:+ c2) v2) in
  ∃ o2, TenantCase.meta s2 !! parent = Some (MObj o2)
        ∧ o2 !! c2 = Some v2
        ∧ o2 !! c1 = o !! c1.
Proof.
  intros Hp H1 H2 Hne Ho s1 s2. subst s2.
  rewrite (nested_update_lookup state s1 _ _ _ Hp H2), Ho. simpl.
  eexists. split; [reflexivity |]. split.
  - apply lookup_insert_eq.
  - by apply lookup_insert_ne.
Qed.

Lemma same_render_updates_lose_the_first_witness :
  let s1 := caseReducer Sample.named_case
              (handleUpdateMeta Sample.named_case
                 ("landlord_contact" +:+ "." +:+ "phone") "555") in
  let s2 := caseReducer s1
              (handleUpdateMeta Sample.named_case
                 ("landlord_contact" +:+ "." +:+ "email") "a@b") in
  ∃ o2, TenantCase.meta s2 !! "landlord_contact" = Some (MObj o2)
        ∧ o2 !! "email" = Some "a@b"
        ∧ o2 !! "phone" = Sample.named_contact !! "phone".
Proof.
  apply (same_render_updates_lose_the_first Sample.named_case
           "landlord_contact" "phone" "email" "555" "a@b" Sample.named_contact);
    done.
Defined.

(** X5. A field name with more than one dot updates [parent.child] and
    ignores what follows the second dot. *)
Theorem deeper_path_is_cut (state : TenantCase.t)
    (parent child rest value : string) :
  JS.includes "." parent = false →
  JS.includes "." child = false →
  handleUpdateMeta state (parent +:+ "." +:+ child +:+ "." +:+ rest) value
  = handleUpdateMeta state (parent +:+ "." +:+ child) value.
Proof.
  intros Hp Hc.
  rewrite (StoreProps.handleUpdateMeta_nested _ _ _ _ Hp Hc).
  unfold handleUpdateMeta.
  change (parent +:+ "." +:+ child +:+ "." +:+ rest)
    with (parent +:+ String "." (child +:+ String "." rest)).
  rewrite StoreProps.includes_app_sep, (StoreProps.split_app_sep _ _ _ Hp),
    (StoreProps.split_app_sep _ _ _ Hc).
  done.
Qed.

Lemma deeper_path_is_cut_witness :
  handleUpdateMeta Sample.named_case
    ("lease" +:+ "." +:+ "start_date" +:+ "." +:+ "year") "2024"
  = handleUpdateMeta Sample.named_case ("lease" +:+ "." +:+ "start_date") "2024".
Proof.
  apply (deeper_path_is_cut Sample.named_case "lease" "start_date" "year" "2024");
    reflexivity.
Defined.

(** X6. A nested update under a key the metadata does not have creates
    a sub-object that holds the one field. *)
Theorem nested_update_creates_parent (state : TenantCase.t)
    (parent child value : string) :
  JS.includes "." parent = false →
  JS.includes "." child = false →
  TenantCase.meta state !! parent = None →
  let state' := caseReducer state
                  (handleUpdateMeta state (parent +:+ "." +:+ child) value) in
  TenantCase.meta state' !! parent = Some (MObj {[ child := value ]})
  ∧ ∀ key, key ≠ parent →
      TenantCase.meta state' !! key = TenantCase.meta state !! key.
Proof.
  intros Hp Hc Hnone state'. subst state'. split.
  - rewrite (nested_update_lookup state state _ _ _ Hp Hc), Hnone. simpl.
    by rewrite insert_empty.
  - intros key Hne.
    rewrite (StoreProps.handleUpdateMeta_nested _ _ _ _ Hp Hc). simpl.
    unfold spread2. rewrite lookup_union_r; [done |].
    by apply lookup_singleton_ne.
Qed.

Lemma nested_update_creates_parent_witness :
  let state' := caseReducer Sample.named_case
                  (handleUpdateMeta Sample.named_case
                     ("agent" +:+ "." +:+ "name") "Bo") in
  TenantCase.meta state' !! "agent" = Some (MObj {[ "name" := "Bo" ]})
  ∧ ∀ key, key ≠ "agent" →
      TenantCase.meta state' !! key = TenantCase.meta Sample.named_case !! key.
Proof.
  apply (nested_update_creates_parent Sample.named_case "agent" "name" "Bo");
    reflexivity.
Defined.

End StoreMore.

(** ** The communication form *)

Module FormProps.
Import Page.

Lemma existsb_eqb_elem (id : string) (l : list string) :
  existsb (String.eqb id) l = true ↔ id ∈ l.
Proof.
  rewrite existsb_exists. split.
  - intros (x & Hx & Heq). apply String.eqb_eq in Heq as ->.
    by apply list_elem_of_In.
  - intros Hin. exists id. split; [by apply list_elem_of_In |].
    apply String.eqb_refl.
Qed.

Lemma elem_of_filter_ne (id x : string) (l : list string) :
  x ∈ List.filter (fun i => negb (String.eqb i id)) l ↔ x ∈ l ∧ x ≠ id.
Proof.
  rewrite !list_elem_of_In, filter_In, negb_true_iff, String.eqb_neq.
  done.
Qed.

Lemma filter_ne_absent (id : string) (l : list string) :
  id ∉ l → List.filter (fun i => negb (String.eqb i id)) l = l.
Proof.
  induction l as [|x l IH]; [done |].
  intros Hnot. apply not_elem_of_cons in Hnot as [Hne Hnot]. simpl.
  destruct (String.eqb_spec x id) as [-> | _]; [done |].
  simpl. by rewrite IH.
Qed.

Lemma toggleLink_elem (id x : string) (prev : list string) :
  x ∈ toggleLink id prev ↔ (x = id ∧ id ∉ prev) ∨ (x ≠ id ∧ x ∈ prev).
Proof.
  unfold toggleLink.
  destruct (existsb (String.eqb id) prev) eqn:Hex.
  - apply existsb_eqb_elem in Hex. rewrite elem_of_filter_ne.
    split; [intros [? ?]; by right | intros [[-> ?] | [? ?]]; done].
  - assert (id ∉ prev) as Hnot.
    { intros Hin. apply existsb_eqb_elem in Hin. congruence. }
    rewrite elem_of_app, list_elem_of_singleton. split.
    + intros [Hin | ->]; [| by left].
      right. split; [| done]. by intros ->.
    + intros [[-> _] | [_ ?]]; [by right | by left].
Qed.

(** X7. Pressing the link button of an issue flips its selection and
    leaves the selection of every issue with another id as it was; the
    page after the press is the page before it with another list of
    links, every other input of the form and every other part of the
    state being the same. *)
Theorem toggle_flips_one_selection (pg : Page.t) (issue other : Issue.t) :
  let pg' := snd (handleToggleIssueLink (Issue.id issue) pg) in
  fst (handleToggleIssueLink (Issue.id issue) pg) = inr tt
  ∧ linkSelected pg' issue = negb (linkSelected pg issue)
  ∧ (Issue.id other ≠ Issue.id issue →
     linkSelected pg' other = linkSelected pg other)
  ∧ pg'
    = {| app := app pg; activeTab := activeTab pg;
         saveStatus := saveStatus pg; reportData := reportData pg;
         uploadingIssueId := uploadingIssueId pg;
         evidenceInput := evidenceInput pg; fileDialogs := fileDialogs pg;
         form :=
           {| commDate := commDate (form pg);
              commMethod := commMethod (form pg);
              commMessage := commMessage (form pg);
              commResponse := commResponse (form pg);
              commLinkedIssues := commLinkedIssues (form pg');
              hasPromise := hasPromise (form pg);
              promiseDesc := promiseDesc (form pg);
              promiseDate := promiseDate (form pg) |};
         localStorage := localStorage pg; timeouts := timeouts pg |}.
Proof.
  simpl. unfold linkSelected. simpl.
  set (links := commLinkedIssues (form pg)).
  assert (∀ i, existsb (String.eqb i) (toggleLink (Issue.id issue) links)
               = if decide (i = Issue.id issue)
                 then negb (existsb (String.eqb i) links)
                 else existsb (String.eqb i) links) as Hflip.
  { intros i. apply eq_true_iff_eq. rewrite existsb_eqb_elem, toggleLink_elem.
    destruct (decide (i = Issue.id issue)) as [-> | Hne].
    - rewrite negb_true_iff, <- not_true_iff_false, existsb_eqb_elem.
      split; [intros [[_ ?] | [? _]]; done | intros ?; by left].
    - rewrite existsb_eqb_elem.
      split; [intros [[? _] | [_ ?]]; done | intros ?; by right]. }
  split; [reflexivity |]. split; [| split; [| reflexivity]].
  - rewrite Hflip. by rewrite decide_True.
  - intros Hne. rewrite Hflip. by rewrite decide_False.
Qed.

Lemma toggleLink_absent (id : string) (prev : list string) :
  id ∉ prev → toggleLink id prev = prev ++ [id].
Proof.
  intros Hnot. unfold toggleLink.
  assert (existsb (String.eqb id) prev = false) as ->; [| done].
  apply not_true_iff_false. by rewrite existsb_eqb_elem.
Qed.

Lemma toggleLink_present (id : string) (before after : list string) :
  id ∉ before → id ∉ after →
  toggleLink id (before ++ id :: after) = before ++ after.
Proof.
  intros Hb Ha. unfold toggleLink.
  assert (existsb (String.eqb id) (before ++ id :: after) = true) as ->.
  { apply existsb_eqb_elem, elem_of_app. right. by left. }
  rewrite List.filter_app. simpl. rewrite String.eqb_refl. simpl.
  by rewrite !filter_ne_absent.
Qed.

(** X8. On a selection without duplicates: toggling an id that is not
    selected puts it at the end, and toggling it again gives back the very
    list; toggling an id that is selected takes it out and leaves the
    others in their order, and toggling it again puts it at the end, so
    that a selected id toggled twice has moved to the end. In both cases
    the selection stays free of duplicates and the set of links after two
    toggles is the one before. *)
Theorem toggle_twice_restores (id : string) (prev : list string) :
  NoDup prev →
  NoDup (toggleLink id prev)
  ∧ toggleLink id (toggleLink id prev) ≡ₚ prev
  ∧ (id ∉ prev →
     toggleLink id prev = prev ++ [id]
     ∧ toggleLink id (toggleLink id prev) = prev)
  ∧ (∀ before after, prev = before ++ id :: after →
     toggleLink id prev = before ++ after
     ∧ toggleLink id (toggleLink id prev) = before ++ after ++ [id]).
Proof.
  intros Hnd.
  assert (∀ before after, prev = before ++ id :: after →
            (id ∉ before) ∧ (id ∉ after) ∧ (id ∉ (before ++ after))
            ∧ NoDup (before ++ after)) as Hsplit.
  { intros before after ->.
    apply NoDup_app in Hnd as (Hb & Hba & Ha).
    apply NoDup_cons in Ha as [Hnot Ha].
    assert (id ∉ before) as Hnb.
    { intros Hin. apply (Hba id Hin). by left. }
    split; [done |]. split; [done |]. split.
    - rewrite elem_of_app. by intros [? | ?].
    - apply NoDup_app. split; [done |]. split; [| done].
      intros x Hx Hx'. apply (Hba x Hx). by right. }
  assert (∀ l, NoDup l → id ∉ l → NoDup (l ++ [id])) as Hsnoc.
  { intros l Hl Hnot. apply NoDup_app. split; [done |].
    split; [| apply NoDup_singleton].
    intros x Hx Hx'. apply list_elem_of_singleton in Hx' as ->. done. }
  assert (∀ l, id ∉ l → toggleLink id (l ++ [id]) = l) as Hback.
  { intros l Hnot.
    rewrite (toggleLink_present id l [] Hnot); [by rewrite app_nil_r |].
    by apply not_elem_of_nil. }
  assert (∀ before after, prev = before ++ id :: after →
            toggleLink id prev = before ++ after
            ∧ toggleLink id (toggleLink id prev) = before ++ after ++ [id])
    as Hmove.
  { intros before after Heq.
    destruct (Hsplit before after Heq) as (Hb & Ha & Hba & _).
    rewrite Heq, (toggleLink_present id before after Hb Ha),
      (toggleLink_absent id _ Hba), <- app_assoc.
    done. }
  destruct (decide (id ∈ prev)) as [Hin | Hnot].
  - apply list_elem_of_split in Hin as (before & after & Heq).
    destruct (Hsplit before after Heq) as (_ & _ & _ & Hndba).
    destruct (Hmove before after Heq) as [Hout Hend].
    split; [by rewrite Hout |]. split; [| split; [| exact Hmove]].
    + rewrite Hend, Heq. apply Permutation_app_head.
      symmetry. apply Permutation_cons_append.
    + intros Hno. exfalso. apply Hno. rewrite Heq.
      apply elem_of_app. right. by left.
  - rewrite (toggleLink_absent id prev Hnot), (Hback prev Hnot).
    split; [by apply Hsnoc |]. split; [done |]. split; [done |].
    intros before after Heq. exfalso. apply Hnot. rewrite Heq.
    apply elem_of_app. right. by left.
Qed.

Lemma toggle_twice_restores_witness :
  NoDup (toggleLink "i2" ["i1"; "i2"; "i3"])
  ∧ toggleLink "i2" ["i1"; "i2"; "i3"] = ["i1"; "i3"]
  ∧ toggleLink "i2" (toggleLink "i2" ["i1"; "i2"; "i3"]) = ["i1"; "i3"; "i2"]
  ∧ toggleLink "i2" (toggleLink "i2" ["i1"; "i2"; "i3"]) ≡ₚ ["i1"; "i2"; "i3"].
Proof.
  destruct (toggle_twice_restores "i2" ["i1"; "i2"; "i3"])
    as (Hnd & Hperm & _ & Hmove); [compute_done |].
  destruct (Hmove ["i1"] ["i3"] eq_refl) as [Hout Hend].
  split; [exact Hnd |]. split; [exact Hout |]. split; [exact Hend |].
  exact Hperm.
Defined.

Section Log.
Variable env : Env.

(** What logging does when there is a message. *)
Lemma log_run (pg : Page.t) :
  logDisabled pg = false →
  let f := form pg in
  let a := app pg in
  let k := CreateIssue.uuids a in
  let withPromise := hasPromise f && JS.truthy (promiseDesc f) in
  let comm :=
    {| Communication.id :=
         CreateIssue.uuidv4 (base env) (if withPromise then S k else k);
       Communication.date := commDate f;
       Communication.method := commMethod f;
       Communication.tenant_message := commMessage f;
       Communication.landlord_response := commResponse f;
       Communication.linked_issue_ids := commLinkedIssues f;
       Communication.promises :=
         if withPromise then
           [ {| LandlordPromise.id := CreateIssue.uuidv4 (base env) k;
                LandlordPromise.description := promiseDesc f;
                LandlordPromise.promised_completion_date := promiseDate f;
                LandlordPromise.promised_by := "Landlord";
                LandlordPromise.status := unknown |} ]
         else [] |} in
  handleLogCommunication env pg
  = (inr tt,
     {| app :=
          {| CreateIssue.tenantCase :=
               Store.caseReducer (CreateIssue.tenantCase a)
                 (Store.ADD_COMMUNICATION comm);
             CreateIssue.isAnalyzing := CreateIssue.isAnalyzing a;
             CreateIssue.newIssueText := CreateIssue.newIssueText a;
             CreateIssue.newIssueImage := CreateIssue.newIssueImage a;
             CreateIssue.dispatched :=
               CreateIssue.dispatched a ++ [Store.ADD_COMMUNICATION comm];
             CreateIssue.console := CreateIssue.console a;
             CreateIssue.alerts := CreateIssue.alerts a;
             CreateIssue.uuids := if withPromise then S (S k) else S k;
             CreateIssue.dates := CreateIssue.dates a |};
        activeTab := activeTab pg; saveStatus := saveStatus pg;
        reportData := reportData pg; uploadingIssueId := uploadingIssueId pg;
        evidenceInput := evidenceInput pg; fileDialogs := fileDialogs pg;
        form :=
          {| commDate := commDate f; commMethod := commMethod f;
             commMessage := ""; commResponse := ""; commLinkedIssues := [];
             hasPromise := false; promiseDesc := ""; promiseDate := "" |};
        localStorage := localStorage pg; timeouts := timeouts pg |}).
Proof.
  unfold logDisabled, handleLogCommunication. intros ->. cbv zeta.
  unfold bind, liftApp, ret.
  destruct (hasPromise (form pg) && JS.truthy (promiseDesc (form pg)));
    reflexivity.
Qed.
(** X9. With an empty message, which is when the [Log Interaction]
    button is disabled, logging does nothing at all: nothing is
    dispatched and the form keeps what was typed. *)
Theorem log_without_message_is_a_no_op (pg : Page.t) :
  logDisabled pg = true →
  handleLogCommunication env pg = (inr tt, pg).
Proof.
  unfold logDisabled, handleLogCommunication. intros ->. done.
Qed.

(** X10. With a message, logging appends exactly one communication,
    made of the date, method, message, response and links of the form;
    it touches no issue, no evidence and no metadata; and it clears the
    message, the response, the links and the promise inputs while the
    date and the method stay. *)
Theorem log_appends_one_and_resets (pg : Page.t) :
  logDisabled pg = false →
  let f := form pg in
  let c := CreateIssue.tenantCase (app pg) in
  let pg' := snd (handleLogCommunication env pg) in
  let c' := CreateIssue.tenantCase (app pg') in
  ∃ comm,
    fst (handleLogCommunication env pg) = inr tt
    ∧ CreateIssue.dispatched (app pg')
      = CreateIssue.dispatched (app pg) ++ [Store.ADD_COMMUNICATION comm]
    ∧ TenantCase.communications c' = TenantCase.communications c ++ [comm]
    ∧ TenantCase.issues c' = TenantCase.issues c
    ∧ TenantCase.evidence c' = TenantCase.evidence c
    ∧ TenantCase.meta c' = TenantCase.meta c
    ∧ Communication.date comm = commDate f
    ∧ Communication.method comm = commMethod f
    ∧ Communication.tenant_message comm = commMessage f
    ∧ Communication.landlord_response comm = commResponse f
    ∧ Communication.linked_issue_ids comm = commLinkedIssues f
    ∧ form pg'
      = {| commDate := commDate f; commMethod := commMethod f;
           commMessage := ""; commResponse := ""; commLinkedIssues := [];
           hasPromise := false; promiseDesc := ""; promiseDate := "" |}.
Proof.
  intros Hmsg. cbv zeta. rewrite (log_run pg Hmsg). cbv zeta.
  cbn [fst snd app form CreateIssue.tenantCase CreateIssue.dispatched].
  eexists. repeat split.
Qed.

(** X11. The logged communication carries one promise exactly when the
    promise box is ticked and a description is typed, and none
    otherwise; the promise has the typed description and date, is
    attributed to [Landlord] with status [unknown], and its id is drawn
    before the id of the communication, from which it differs as soon as
    the two uuids drawn differ. *)
Theorem log_builds_at_most_one_promise (pg : Page.t) :
  logDisabled pg = false →
  let f := form pg in
  let k := CreateIssue.uuids (app pg) in
  let pg' := snd (handleLogCommunication env pg) in
  ∃ comm,
    last (TenantCase.communications (CreateIssue.tenantCase (app pg')))
    = Some comm
    ∧ if hasPromise f && JS.truthy (promiseDesc f) then
        ∃ p, Communication.promises comm = [p]
             ∧ LandlordPromise.description p = promiseDesc f
             ∧ LandlordPromise.promised_completion_date p = promiseDate f
             ∧ LandlordPromise.promised_by p = "Landlord"
             ∧ LandlordPromise.status p = unknown
             ∧ LandlordPromise.id p = CreateIssue.uuidv4 (base env) k
             ∧ Communication.id comm = CreateIssue.uuidv4 (base env) (S k)
             ∧ (CreateIssue.uuidv4 (base env) k
                ≠ CreateIssue.uuidv4 (base env) (S k) →
                LandlordPromise.id p ≠ Communication.id comm)
      else
        Communication.promises comm = []
        ∧ Communication.id comm = CreateIssue.uuidv4 (base env) k.
Proof.
  intros Hmsg. cbv zeta. rewrite (log_run pg Hmsg). cbv zeta.
  cbn [fst snd app form CreateIssue.tenantCase Store.caseReducer
       TenantCase.communications].
  eexists. split; [apply last_snoc |].
  destruct (hasPromise (form pg) && JS.truthy (promiseDesc (form pg))).
  - eexists. repeat split. done.
  - done.
Qed.

End Log.

Lemma log_without_message_is_a_no_op_witness :
  handleLogCommunication Fixtures.env_ok Fixtures.page_blank
  = (inr tt, Fixtures.page_blank).
Proof.
  apply (log_without_message_is_a_no_op Fixtures.env_ok Fixtures.page_blank).
  reflexivity.
Defined.

Lemma log_appends_one_and_resets_witness :
  let f := form Fixtures.page_leak in
  let c := CreateIssue.tenantCase (app Fixtures.page_leak) in
  let pg' := snd (handleLogCommunication Fixtures.env_ok Fixtures.page_leak) in
  let c' := CreateIssue.tenantCase (app pg') in
  ∃ comm,
    fst (handleLogCommunication Fixtures.env_ok Fixtures.page_leak) = inr tt
    ∧ CreateIssue.dispatched (app pg')
      = CreateIssue.dispatched (app Fixtures.page_leak)
        ++ [Store.ADD_COMMUNICATION comm]
    ∧ TenantCase.communications c' = TenantCase.communications c ++ [comm]
    ∧ TenantCase.issues c' = TenantCase.issues c
    ∧ TenantCase.evidence c' = TenantCase.evidence c
    ∧ TenantCase.meta c' = TenantCase.meta c
    ∧ Communication.date comm = commDate f
    ∧ Communication.method comm = commMethod f
    ∧ Communication.tenant_message comm = commMessage f
    ∧ Communication.landlord_response comm = commResponse f
    ∧ Communication.linked_issue_ids comm = commLinkedIssues f
    ∧ form pg'
      = {| commDate := commDate f; commMethod := commMethod f;
           commMessage := ""; commResponse := ""; commLinkedIssues := [];
           hasPromise := false; promiseDesc := ""; promiseDate := "" |}.
Proof.
  apply (log_appends_one_and_resets Fixtures.env_ok Fixtures.page_leak).
  reflexivity.
Defined.

Lemma log_builds_at_most_one_promise_witness :
  let f := form Fixtures.page_leak in
  let k := CreateIssue.uuids (app Fixtures.page_leak) in
  let pg' := snd (handleLogCommunication Fixtures.env_ok Fixtures.page_leak) in
  ∃ comm,
    last (TenantCase.communications (CreateIssue.tenantCase (app pg')))
    = Some comm
    ∧ if hasPromise f && JS.truthy (promiseDesc f) then
        ∃ p, Communication.promises comm = [p]
             ∧ LandlordPromise.description p = promiseDesc f
             ∧ LandlordPromise.promised_completion_date p = promiseDate f
             ∧ LandlordPromise.promised_by p = "Landlord"
             ∧ LandlordPromise.status p = unknown
             ∧ LandlordPromise.id p
               = CreateIssue.uuidv4 (base Fixtures.env_ok) k
             ∧ Communication.id comm
               = CreateIssue.uuidv4 (base Fixtures.env_ok) (S k)
             ∧ (CreateIssue.uuidv4 (base Fixtures.env_ok) k
                ≠ CreateIssue.uuidv4 (base Fixtures.env_ok) (S k) →
                LandlordPromise.id p ≠ Communication.id comm)
      else
        Communication.promises comm = []
        ∧ Communication.id comm = CreateIssue.uuidv4 (base Fixtures.env_ok) k.
Proof.
  apply (log_builds_at_most_one_promise Fixtures.env_ok Fixtures.page_leak).
  reflexivity.
Defined.

End FormProps.

(** ** Adding a photo to an issue *)

Module UploadProps.
Import Page.

Lemma filter_issue_id_app (c : TenantCase.t) (item : EvidenceItem.t)
    (issue : Issue.t) :
  cardEvidence (Store.caseReducer c (Store.ADD_EVIDENCE item)) issue
  = cardEvidence c issue
    ++ (if String.eqb (EvidenceItem.issue_id item) (Issue.id issue)
        then [item] else []).
Proof.
  unfold cardEvidence. simpl. rewrite List.filter_app. simpl.
  by destruct (String.eqb (EvidenceItem.issue_id item) (Issue.id issue)).
Qed.

Section Upload.
Variable env : Env.

(** X12. Without a file, or without an issue waiting for one, or when
    the id of that issue is the empty string, the upload only forgets
    the waiting issue: no call is made, nothing is dispatched, nothing
    else changes. *)
Theorem upload_without_target_only_clears (file : option CreateIssue.File.t)
    (pg : Page.t) :
  file = None ∨ uploadingIssueId pg = None ∨ uploadingIssueId pg = Some "" →
  handleEvidenceUpload env file pg = setUploadingIssueId None pg.
Proof.
  unfold handleEvidenceUpload.
  intros [-> | [-> | ->]]; [done | by destruct file | by destruct file].
Qed.

(** The classifier call settles in one way only. *)
Lemma settles_agree (description : string) (imageBase64 mimeType : option string)
    (r1 r2 : CreateIssue.Error + CreateIssue.AIAnalysisResponse.t) :
  CreateIssue.settles
    (CreateIssue.analyzeIssueWithEvidence (base env) description imageBase64
       mimeType) r1 →
  CreateIssue.settles
    (CreateIssue.analyzeIssueWithEvidence (base env) description imageBase64
       mimeType) r2 →
  r1 = r2.
Proof.
  intros [st1 H1] [st2 H2].
  destruct (CreateIssueProps.analyze_spec (base env) description imageBase64
              mimeType) as [r Hr].
  rewrite Hr in H1, H2. simpl in H1, H2. congruence.
Qed.

(** The result of an upload, path by path. *)
Lemma upload_cases (file : option CreateIssue.File.t) (pg : Page.t) :
  ((file = None ∨ uploadingIssueId pg = None
    ∨ ∃ issueId, uploadingIssueId pg = Some issueId
                 ∧ JS.truthy issueId = false)
   ∧ handleEvidenceUpload env file pg = setUploadingIssueId None pg)
  ∨ (∃ f issueId,
       file = Some f ∧ uploadingIssueId pg = Some issueId
       ∧ JS.truthy issueId = true
       ∧ ((∃ a,
             handleEvidenceUpload env file pg
             = (inr tt,
                {| app := a; activeTab := activeTab pg;
                   saveStatus := saveStatus pg; reportData := reportData pg;
                   uploadingIssueId := None;
                   evidenceInput := match evidenceInput pg with
                                    | Some _ => Some ""
                                    | None => None
                                    end;
                   fileDialogs := fileDialogs pg; form := form pg;
                   localStorage := localStorage pg; timeouts := timeouts pg |})
             ∧ ((∃ e, CreateIssue.fileToBase64 (base env) f = inl e)
                ∨ ∃ b e,
                    CreateIssue.fileToBase64 (base env) f = inr b
                    ∧ CreateIssue.settles
                        (CreateIssue.analyzeIssueWithEvidence (base env)
                           "Analyze this image and provide a factual caption."
                           (Some b) (Some (CreateIssue.File.type f)))
                        (inl e))
             ∧ CreateIssue.tenantCase a = CreateIssue.tenantCase (app pg)
             ∧ CreateIssue.dispatched a = CreateIssue.dispatched (app pg)
             ∧ CreateIssue.isAnalyzing a = false
             ∧ CreateIssue.alerts a
               = CreateIssue.alerts (app pg) ++ ["Failed to upload evidence."])
          ∨ (∃ a b response item,
               handleEvidenceUpload env file pg
               = (inr tt,
                  {| app := a; activeTab := activeTab pg;
                     saveStatus := saveStatus pg; reportData := reportData pg;
                     uploadingIssueId := None;
                     evidenceInput := match evidenceInput pg with
                                      | Some _ => Some ""
                                      | None => None
                                      end;
                     fileDialogs := fileDialogs pg; form := form pg;
                     localStorage := localStorage pg;
                     timeouts := timeouts pg |})
               ∧ CreateIssue.fileToBase64 (base env) f = inr b
               ∧ CreateIssue.settles
                   (CreateIssue.analyzeIssueWithEvidence (base env)
                      "Analyze this image and provide a factual caption."
                      (Some b) (Some (CreateIssue.File.type f)))
                   (inr response)
               ∧ CreateIssue.tenantCase a
                 = Store.caseReducer (CreateIssue.tenantCase (app pg))
                     (Store.ADD_EVIDENCE item)
               ∧ CreateIssue.dispatched a
                 = CreateIssue.dispatched (app pg) ++ [Store.ADD_EVIDENCE item]
               ∧ CreateIssue.isAnalyzing a = false
               ∧ CreateIssue.alerts a = CreateIssue.alerts (app pg)
               ∧ item
                 = {| EvidenceItem.id :=
                        CreateIssue.uuidv4 (base env) (CreateIssue.uuids (app pg));
                      EvidenceItem.issue_id := issueId;
                      EvidenceItem.file_reference := b;
                      EvidenceItem.captured_at :=
                        CreateIssue.toISOString (base env)
                          (CreateIssue.dates (app pg));
                      EvidenceItem.uploaded_at :=
                        CreateIssue.toISOString (base env)
                          (S (CreateIssue.dates (app pg)));
                      EvidenceItem.ai_caption :=
                        JS.or_str
                          (match CreateIssue.AIAnalysisResponse.evidence_items
                                   response with
                           | Some (ev :: _) =>
                               CreateIssue.PartialEvidence.ai_caption ev
                           | _ => None
                           end) "Uploaded evidence";
                      EvidenceItem.user_caption := "" |}))).
Proof.
  unfold handleEvidenceUpload.
  destruct file as [f|]; [| left; split; [by left | done]].
  destruct (uploadingIssueId pg) as [issueId|] eqn:Hup;
    [| left; split; [right; by left | done]].
  destruct (JS.truthy issueId) eqn:Hid;
    [| left; split; [right; right; by exists issueId | done]].
  right. exists f, issueId.
  split; [reflexivity |]. split; [reflexivity |]. split; [exact Hid |].
  unfold try_catch_finally, try_catch, bind, await.
  cbn [liftApp CreateIssue.setIsAnalyzing CreateIssue.update app].
  destruct (CreateIssue.fileToBase64 (base env) f) as [e|b] eqn:Hfile.
  { left. cbn. eexists. split; [reflexivity |]. cbn.
    split; [left; by exists e |]. repeat split; reflexivity. }
  unfold liftApp.
  destruct (CreateIssueProps.analyze_spec (base env)
              "Analyze this image and provide a factual caption."
              (Some b) (Some (CreateIssue.File.type f))) as [[e|response] Hr];
    rewrite Hr.
  { left. cbn. eexists. split; [reflexivity |]. cbn.
    split; [right; exists b, e; split; [reflexivity |];
            exists (app pg); rewrite Hr; reflexivity |].
    repeat split; reflexivity. }
  right. cbn. eexists _, b, response, _.
  split; [reflexivity |]. split; [reflexivity |].
  split; [exists (app pg); rewrite Hr; reflexivity |].
  repeat split; reflexivity.
Qed.

(** X13. Whatever the file, the state and the answers of the remote
    calls, an upload ends without throwing, with no issue waiting for a
    file, with the same issues, communications and metadata, and with
    either nothing dispatched or exactly one [ADD_EVIDENCE]; the
    evidence then belongs to the issue that was waiting and holds the
    encoded file. *)
Theorem upload_outcomes (file : option CreateIssue.File.t) (pg : Page.t) :
  let pg' := snd (handleEvidenceUpload env file pg) in
  let c := CreateIssue.tenantCase (app pg) in
  let c' := CreateIssue.tenantCase (app pg') in
  fst (handleEvidenceUpload env file pg) = inr tt
  ∧ uploadingIssueId pg' = None
  ∧ TenantCase.issues c' = TenantCase.issues c
  ∧ TenantCase.communications c' = TenantCase.communications c
  ∧ TenantCase.meta c' = TenantCase.meta c
  ∧ ((CreateIssue.dispatched (app pg') = CreateIssue.dispatched (app pg)
      ∧ TenantCase.evidence c' = TenantCase.evidence c)
     ∨ ∃ f issueId item,
         file = Some f
         ∧ uploadingIssueId pg = Some issueId
         ∧ CreateIssue.dispatched (app pg')
           = CreateIssue.dispatched (app pg) ++ [Store.ADD_EVIDENCE item]
         ∧ TenantCase.evidence c' = TenantCase.evidence c ++ [item]
         ∧ EvidenceItem.issue_id item = issueId
         ∧ CreateIssue.fileToBase64 (base env) f
           = inr (EvidenceItem.file_reference item)
         ∧ CreateIssue.isAnalyzing (app pg') = false).
Proof.
  cbv zeta.
  destruct (upload_cases file pg)
    as [[_ ->] | (f & issueId & -> & Hup & Hid
              & [(a & -> & _ & Hc & Hd & Hi & Ha)
                | (a & b & response & item & -> & Hfile & Hcls & Hc & Hd & Hi
                   & Ha & Hitem)])].
  - simpl. do 5 (split; [reflexivity |]). left. done.
  - simpl. rewrite Hc, Hd. do 5 (split; [reflexivity |]). left. done.
  - simpl. rewrite Hc, Hd. simpl. do 5 (split; [reflexivity |]).
    right. exists f, issueId, item. rewrite Hitem. simpl. done.
Qed.

(** X14. When the classifier throws during an upload, no evidence is
    added: the case is the one before, one alert says that the upload
    failed, the busy flag is down and no issue is waiting for a file. *)
Theorem upload_error_adds_nothing (f : CreateIssue.File.t) (pg : Page.t)
    (issueId b : string) (e : CreateIssue.Error) :
  uploadingIssueId pg = Some issueId →
  JS.truthy issueId = true →
  CreateIssue.fileToBase64 (base env) f = inr b →
  CreateIssue.settles
    (CreateIssue.analyzeIssueWithEvidence (base env)
       "Analyze this image and provide a factual caption."
       (Some b) (Some (CreateIssue.File.type f))) (inl e) →
  let pg' := snd (handleEvidenceUpload env (Some f) pg) in
  CreateIssue.tenantCase (app pg') = CreateIssue.tenantCase (app pg)
  ∧ CreateIssue.dispatched (app pg') = CreateIssue.dispatched (app pg)
  ∧ CreateIssue.alerts (app pg')
    = CreateIssue.alerts (app pg) ++ ["Failed to upload evidence."]
  ∧ CreateIssue.isAnalyzing (app pg') = false
  ∧ uploadingIssueId pg' = None.
Proof.
  intros Hup Hid Hfile Hcls. cbv zeta.
  destruct (upload_cases (Some f) pg)
    as [[[? | [? | (i & ? & ?)]] _]
       | (f' & i & [= <-] & Hup' & _
          & [(a & -> & _ & Hc & Hd & Hi & Ha)
            | (a & b' & response & item & _ & Hfile' & Hcls' & _)])];
    try congruence.
  - simpl. by rewrite Hc, Hd, Hi, Ha.
  - exfalso. assert (b' = b) as -> by congruence.
    pose proof (settles_agree _ _ _ _ _ Hcls Hcls'). done.
Qed.

(** X15. [Add Photo] on the card of an issue followed by an upload that
    succeeds puts one more photo at the end of that card and leaves the
    card of every issue with another id as it was. The photo has no
    caption of the user's; when the first evidence item of the
    classifier's answer has a caption that is not empty, that caption is
    the one stored and shown; when the answer has no evidence items, an
    empty list of them, or a first item with no caption or an empty one,
    the caption stored and shown is [Uploaded evidence]. *)
Theorem requested_photo_lands_on_its_card (f : CreateIssue.File.t)
    (pg : Page.t) (issue : Issue.t) (b : string)
    (response : CreateIssue.AIAnalysisResponse.t) :
  JS.truthy (Issue.id issue) = true →
  CreateIssue.fileToBase64 (base env) f = inr b →
  CreateIssue.settles
    (CreateIssue.analyzeIssueWithEvidence (base env)
       "Analyze this image and provide a factual caption."
       (Some b) (Some (CreateIssue.File.type f))) (inr response) →
  let pg1 := snd (handleRequestAddEvidence (Issue.id issue) pg) in
  let pg2 := snd (handleEvidenceUpload env (Some f) pg1) in
  let c := CreateIssue.tenantCase (app pg) in
  let c2 := CreateIssue.tenantCase (app pg2) in
  ∃ item,
    cardEvidence c2 issue = cardEvidence c issue ++ [item]
    ∧ EvidenceItem.file_reference item = b
    ∧ EvidenceItem.user_caption item = ""
    ∧ (∀ ev rest s,
         CreateIssue.AIAnalysisResponse.evidence_items response
         = Some (ev :: rest) →
         CreateIssue.PartialEvidence.ai_caption ev = Some s →
         s ≠ "" →
         EvidenceItem.ai_caption item = s ∧ caption item = s)
    ∧ ((CreateIssue.AIAnalysisResponse.evidence_items response = None
        ∨ CreateIssue.AIAnalysisResponse.evidence_items response = Some []
        ∨ ∃ ev rest,
            CreateIssue.AIAnalysisResponse.evidence_items response
            = Some (ev :: rest)
            ∧ (CreateIssue.PartialEvidence.ai_caption ev = None
               ∨ CreateIssue.PartialEvidence.ai_caption ev = Some "")) →
       EvidenceItem.ai_caption item = "Uploaded evidence"
       ∧ caption item = "Uploaded evidence")
    ∧ ∀ other, Issue.id other ≠ Issue.id issue →
        cardEvidence c2 other = cardEvidence c other.
Proof.
  intros Hid Hfile Hcls. cbv zeta.
  set (pg1 := snd (handleRequestAddEvidence (Issue.id issue) pg)).
  assert (uploadingIssueId pg1 = Some (Issue.id issue)) as Hup1 by reflexivity.
  assert (app pg1 = app pg) as Happ by reflexivity.
  destruct (upload_cases (Some f) pg1)
    as [[[? | [? | (i & ? & ?)]] _]
       | (f' & i & [= <-] & Hup' & _
          & [(a & _ & Herr & _)
            | (a & b' & response' & item & -> & Hfile' & Hcls' & Hc & _ & _
               & _ & Hitem)])];
    try congruence.
  - exfalso. destruct Herr as [[e He] | (b' & e & Hfile' & Hcls')];
      [congruence |].
    assert (b' = b) as -> by congruence.
    pose proof (settles_agree _ _ _ _ _ Hcls Hcls'). done.
  - assert (b' = b) as -> by congruence.
    assert (i = Issue.id issue) as -> by congruence.
    assert (response' = response) as ->.
    { pose proof (settles_agree _ _ _ _ _ Hcls Hcls'). congruence. }
    cbn [snd app]. rewrite Hc, Happ. exists item.
    rewrite filter_issue_id_app.
    assert (EvidenceItem.issue_id item = Issue.id issue) as Hiid
      by (rewrite Hitem; reflexivity).
    rewrite Hiid, String.eqb_refl.
    split; [reflexivity |]. split; [by rewrite Hitem |].
    split; [by rewrite Hitem |]. split; [| split].
    + intros ev rest s Hev Hs Hne. rewrite Hitem. unfold caption.
      cbn [EvidenceItem.ai_caption EvidenceItem.user_caption].
      rewrite Hev, Hs. destruct s as [|ch s]; [done | by split].
    + intros Hnone. rewrite Hitem. unfold caption.
      cbn [EvidenceItem.ai_caption EvidenceItem.user_caption].
      destruct Hnone as [-> | [-> | (ev & rest & -> & [-> | ->])]];
        by split.
    + intros other Hne. rewrite filter_issue_id_app, Hiid.
      apply not_eq_sym, String.eqb_neq in Hne. rewrite Hne.
      by rewrite app_nil_r.
Qed.

End Upload.

Lemma upload_without_target_only_clears_witness :
  handleEvidenceUpload Fixtures.env_ok (Some Fixtures.photo) Fixtures.page_blank
  = setUploadingIssueId None Fixtures.page_blank.
Proof.
  apply (upload_without_target_only_clears Fixtures.env_ok
           (Some Fixtures.photo) Fixtures.page_blank).
  right. left. reflexivity.
Defined.

Lemma upload_error_adds_nothing_witness :
  let pg' := snd (handleEvidenceUpload Fixtures.env_down (Some Fixtures.photo)
                    Fixtures.page_uploading) in
  CreateIssue.tenantCase (app pg')
  = CreateIssue.tenantCase (app Fixtures.page_uploading)
  ∧ CreateIssue.dispatched (app pg')
    = CreateIssue.dispatched (app Fixtures.page_uploading)
  ∧ CreateIssue.alerts (app pg')
    = CreateIssue.alerts (app Fixtures.page_uploading)
      ++ ["Failed to upload evidence."]
  ∧ CreateIssue.isAnalyzing (app pg') = false
  ∧ uploadingIssueId pg' = None.
Proof.
  apply (upload_error_adds_nothing Fixtures.env_down Fixtures.photo
           Fixtures.page_uploading "i1" "data:image/png;base64,AAAA" "503");
    try reflexivity.
  exists Fixtures.app_leak. reflexivity.
Defined.

Lemma requested_photo_lands_on_its_card_witness :
  let pg1 := snd (handleRequestAddEvidence (Issue.id Sample.leak)
                    Fixtures.page_blank) in
  let pg2 := snd (handleEvidenceUpload Fixtures.env_ok (Some Fixtures.photo) pg1) in
  let c := CreateIssue.tenantCase (app Fixtures.page_blank) in
  let c2 := CreateIssue.tenantCase (app pg2) in
  ∃ item,
    cardEvidence c2 Sample.leak = cardEvidence c Sample.leak ++ [item]
    ∧ EvidenceItem.file_reference item = "data:image/png;base64,AAAA"
    ∧ EvidenceItem.user_caption item = ""
    ∧ EvidenceItem.ai_caption item = "Water stain under the sink"
    ∧ caption item = "Water stain under the sink".
Proof.
  destruct (requested_photo_lands_on_its_card Fixtures.env_ok Fixtures.photo
              Fixtures.page_blank Sample.leak "data:image/png;base64,AAAA"
              Fixtures.caption_response)
    as (item & Hcard & Hfile & Huser & Hcap & _);
    [reflexivity | reflexivity | exists Fixtures.app_leak; reflexivity |].
  exists item.
  split; [exact Hcard |]. split; [exact Hfile |]. split; [exact Huser |].
  eapply (Hcap _ [] "Water stain under the sink");
    [reflexivity | reflexivity | done].
Defined.

End UploadProps.

(** ** Saving, loading and resetting the case; the report *)

Module PersistProps.
Import Page.

Section Persist.
Variable env : Env.

(** What saving does, when the storage takes the entry and when it
    does not. *)
Lemma save_run (pg : Page.t) :
  let json := JSON_stringify env (CreateIssue.tenantCase (app pg)) in
  handleSaveCase env pg
  = if storageAccepts env (localStorage pg) storageKey json then
      (inr tt,
       {| app := app pg; activeTab := activeTab pg; saveStatus := saved;
          reportData := reportData pg;
          uploadingIssueId := uploadingIssueId pg;
          evidenceInput := evidenceInput pg; fileDialogs := fileDialogs pg;
          form := form pg;
          localStorage := <[storageKey := json]> (localStorage pg);
          timeouts := timeouts pg ++ [2000%Z] |})
    else (inl "QuotaExceededError", pg).
Proof.
  cbv zeta. unfold handleSaveCase, bind, setItem.
  by destruct (storageAccepts env (localStorage pg) storageKey _).
Qed.

(** X16. Saving either stores the case or throws. When the storage takes
    the entry, the button shows [saved], and a page that mounts on that
    storage loads the case that was saved, whatever it held, provided the
    case survives serialization: [JSON.parse] gives it back from what
    [JSON.stringify] made of it, which is not the empty string. When the
    storage refuses the entry, the handler throws, the storage and the
    button are as before, and a page that mounts finds the storage of
    before the save. Saving never changes the case. *)
Theorem save_then_mount_restores (pg fresh : Page.t) :
  let c := CreateIssue.tenantCase (app pg) in
  let json := JSON_stringify env c in
  JSON_parse_case env json = inr c →
  JS.truthy json = true →
  localStorage fresh = localStorage (snd (handleSaveCase env pg)) →
  CreateIssue.tenantCase (app (snd (handleSaveCase env pg))) = c
  ∧ (storageAccepts env (localStorage pg) storageKey json = true →
     fst (handleSaveCase env pg) = inr tt
     ∧ saveStatus (snd (handleSaveCase env pg)) = saved
     ∧ localStorage (snd (handleSaveCase env pg)) !! storageKey = Some json
     ∧ fst (loadOnMount env fresh) = inr tt
     ∧ CreateIssue.tenantCase (app (snd (loadOnMount env fresh))) = c
     ∧ CreateIssue.dispatched (app (snd (loadOnMount env fresh)))
       = CreateIssue.dispatched (app fresh) ++ [Store.LOAD_CASE c])
  ∧ (storageAccepts env (localStorage pg) storageKey json = false →
     handleSaveCase env pg = (inl "QuotaExceededError", pg)
     ∧ localStorage fresh = localStorage pg).
Proof.
  intros c json Hparse Hne Hstore. subst c json.
  rewrite save_run in *. cbv zeta in *.
  destruct (storageAccepts env (localStorage pg) storageKey _).
  - simpl in Hstore. split; [reflexivity |]. split; [| done].
    intros _. split; [reflexivity |]. split; [reflexivity |].
    split; [apply lookup_insert_eq |].
    unfold loadOnMount. rewrite Hstore, lookup_insert_eq, Hne.
    unfold try_catch, bind, await. rewrite Hparse. done.
  - simpl in Hstore. split; [reflexivity |]. split; [done |].
    intros _. done.
Qed.

(** X17. What is stored but cannot be used never reaches the case: with
    no saved entry, with an empty one, or with one that [JSON.parse]
    rejects, mounting dispatches nothing, keeps the case and does not
    throw; in the last case the failure is logged to the console. *)
Theorem unusable_snapshot_is_ignored (pg : Page.t) :
  localStorage pg !! storageKey = None
  ∨ localStorage pg !! storageKey = Some ""
  ∨ (∃ data e, localStorage pg !! storageKey = Some data
               ∧ JSON_parse_case env data = inl e) →
  let pg' := snd (loadOnMount env pg) in
  fst (loadOnMount env pg) = inr tt
  ∧ CreateIssue.tenantCase (app pg') = CreateIssue.tenantCase (app pg)
  ∧ CreateIssue.dispatched (app pg') = CreateIssue.dispatched (app pg)
  ∧ localStorage pg' = localStorage pg.
Proof.
  unfold loadOnMount.
  intros [-> | [-> | (data & e & -> & Hparse)]]; [done | done |].
  destruct (JS.truthy data); [| done].
  unfold try_catch, bind, await. rewrite Hparse. done.
Qed.

(** X18. A reset that the user confirms removes the saved entry, puts
    the empty case in place, shows the first tab and drops the report; a
    page that mounts afterwards on that storage loads nothing. A reset
    that the user declines changes nothing. *)
Theorem reset_clears_case_and_storage (pg : Page.t) :
  let pg' := snd (handleResetCase true pg) in
  CreateIssue.tenantCase (app pg') = Store.EMPTY_CASE
  ∧ localStorage pg' !! storageKey = None
  ∧ activeTab pg' = tab_meta
  ∧ reportData pg' = None
  ∧ loadOnMount env pg' = (inr tt, pg')
  ∧ handleResetCase false pg = (inr tt, pg).
Proof.
  cbv zeta. cbn [handleResetCase]. unfold bind. simpl.
  repeat split.
  - apply lookup_delete_eq.
  - unfold loadOnMount. cbn [localStorage]. by rewrite lookup_delete_eq.
Qed.

(** How the report request settles, from every state: the console is
    written when it throws, nothing else ever is. *)
Lemma generateReport_spec (caseData : TenantCase.t) :
  ∃ r, ∀ pg,
    generateReport env caseData pg
    = (r, match r with
          | inl e => snd (liftApp (CreateIssue.console_error e) pg)
          | inr _ => pg
          end).
Proof.
  unfold generateReport, try_catch, bind, await, throw.
  destruct (generateReportContent env _) as [e|[s|]].
  - exists (inl e). done.
  - destruct (JS.truthy s).
    + destruct (CreateIssue.JSON_parse (base env) s) as [e|resp].
      * exists (inl e). done.
      * exists (inr resp). done.
    + exists (inl "No response from AI"). done.
  - exists (inl "No response from AI"). done.
Qed.

(** X19. Generating the report never throws, never changes the case,
    dispatches nothing, raises no alert and always ends with the busy
    flag down. When the request for the report throws [e], the report
    shown before is kept and [e] is logged twice, once by the service and
    once by the handler; when the request returns an answer, nothing is
    logged and the report becomes the three texts of that answer, each of
    them the empty string when the answer does not have it. *)
Theorem report_outcomes (pg : Page.t) :
  let c := CreateIssue.tenantCase (app pg) in
  let pg' := snd (handleGenerateReport env pg) in
  fst (handleGenerateReport env pg) = inr tt
  ∧ CreateIssue.tenantCase (app pg') = c
  ∧ CreateIssue.dispatched (app pg') = CreateIssue.dispatched (app pg)
  ∧ CreateIssue.alerts (app pg') = CreateIssue.alerts (app pg)
  ∧ CreateIssue.isAnalyzing (app pg') = false
  ∧ (∀ e, settles (generateReport env c) (inl e) →
       reportData pg' = reportData pg
       ∧ CreateIssue.console (app pg')
         = CreateIssue.console (app pg) ++ [e; e])
  ∧ (∀ response, settles (generateReport env c) (inr response) →
       reportData pg'
       = Some {| snippet :=
                   default ""
                     (CreateIssue.AIAnalysisResponse.report_snippet response);
                 timeline :=
                   default ""
                     (CreateIssue.AIAnalysisResponse.timeline_summary response);
                 pattern :=
                   default ""
                     (CreateIssue.AIAnalysisResponse.pattern_summary response) |}
       ∧ CreateIssue.console (app pg') = CreateIssue.console (app pg)).
Proof.
  cbv zeta. unfold handleGenerateReport.
  unfold try_catch_finally, try_catch, bind.
  cbn [liftApp CreateIssue.setIsAnalyzing CreateIssue.update app].
  assert (∀ o : option string, JS.or_str o "" = default "" o) as Hor.
  { intros [[|ch s]|]; reflexivity. }
  destruct (generateReport_spec (CreateIssue.tenantCase (app pg)))
    as [[e|response] Hr]; rewrite !Hr; cbn.
  - do 5 (split; [reflexivity |]). split.
    + intros e' [pg0 He']. rewrite Hr in He'. simpl in He'.
      injection He' as <-. split; [reflexivity |]. by rewrite <- app_assoc.
    + intros response [pg0 Hresp]. rewrite Hr in Hresp. done.
  - do 5 (split; [reflexivity |]). split.
    + intros e [pg0 He]. rewrite Hr in He. done.
    + intros response' [pg0 Hresp]. rewrite Hr in Hresp. simpl in Hresp.
      injection Hresp as <-. by rewrite !Hor.
Qed.

End Persist.

Lemma save_then_mount_restores_witness :
  let c := CreateIssue.tenantCase (app Fixtures.page_leak) in
  CreateIssue.tenantCase
    (app (snd (handleSaveCase Fixtures.env_ok Fixtures.page_leak))) = c
  ∧ fst (handleSaveCase Fixtures.env_ok Fixtures.page_leak) = inr tt
  ∧ saveStatus (snd (handleSaveCase Fixtures.env_ok Fixtures.page_leak)) = saved
  ∧ localStorage (snd (handleSaveCase Fixtures.env_ok Fixtures.page_leak))
      !! storageKey = Some "leak-json"
  ∧ fst (loadOnMount Fixtures.env_ok Fixtures.page_saved) = inr tt
  ∧ CreateIssue.tenantCase
      (app (snd (loadOnMount Fixtures.env_ok Fixtures.page_saved))) = c
  ∧ CreateIssue.dispatched
      (app (snd (loadOnMount Fixtures.env_ok Fixtures.page_saved)))
    = CreateIssue.dispatched (app Fixtures.page_saved) ++ [Store.LOAD_CASE c].
Proof.
  destruct (save_then_mount_restores Fixtures.env_ok Fixtures.page_leak
              Fixtures.page_saved) as (Hcase & Hok & _);
    [reflexivity | reflexivity | reflexivity |].
  split; [exact Hcase |]. apply Hok. reflexivity.
Defined.

(** A full storage: saving throws and a mounting page still finds what
    was stored before. *)
Lemma save_on_full_storage_throws :
  handleSaveCase Fixtures.env_down Fixtures.page_leak
  = (inl "QuotaExceededError", Fixtures.page_leak).
Proof. by rewrite save_run. Qed.

Lemma report_outcomes_witness :
  reportData (snd (handleGenerateReport Fixtures.env_ok Fixtures.page_leak))
  = Some {| snippet := "# Report"; timeline := ""; pattern := "Slow repairs" |}
  ∧ CreateIssue.console
      (app (snd (handleGenerateReport Fixtures.env_ok Fixtures.page_leak)))
    = CreateIssue.console (app Fixtures.page_leak).
Proof.
  destruct (report_outcomes Fixtures.env_ok Fixtures.page_leak)
    as (_ & _ & _ & _ & _ & _ & Hok).
  apply (Hok Fixtures.caption_response).
  exists Fixtures.page_leak. reflexivity.
Defined.

Lemma unusable_snapshot_is_ignored_witness :
  let pg' := snd (loadOnMount Fixtures.env_ok Fixtures.page_corrupt) in
  fst (loadOnMount Fixtures.env_ok Fixtures.page_corrupt) = inr tt
  ∧ CreateIssue.tenantCase (app pg')
    = CreateIssue.tenantCase (app Fixtures.page_corrupt)
  ∧ CreateIssue.dispatched (app pg')
    = CreateIssue.dispatched (app Fixtures.page_corrupt)
  ∧ localStorage pg' = localStorage Fixtures.page_corrupt.
Proof.
  apply (unusable_snapshot_is_ignored Fixtures.env_ok Fixtures.page_corrupt).
  right. right. exists "{broken", "SyntaxError". split; reflexivity.
Defined.

End PersistProps.

(** ** The create-issue flow, further *)

Module CreateMore.
Import Store CreateIssue.

Section Flow.
Variable env : Env.

(** X20. With neither text nor image, which is when the [Analyze & Add]
    button is disabled on an idle page, the create-issue handler does
    nothing at all: it does not even raise the busy flag. *)
Theorem create_without_input_is_a_no_op (pg : Page.t) :
  Page.createDisabled pg = true →
  isAnalyzing (Page.app pg) = false →
  handleCreateIssue env (Page.app pg) = (inr tt, Page.app pg).
Proof.
  unfold Page.createDisabled, handleCreateIssue. intros Hdis Hidle.
  rewrite Hidle in Hdis. simpl in Hdis. by rewrite Hdis.
Qed.

(** What the flow does when the classifier throws. *)
Lemma create_error_run (st : App) (imageBase64 : option string) (e : Error) :
  JS.truthy (newIssueText st) = true ∨ is_Some (newIssueImage st) →
  settles (encodeImage env (newIssueImage st)) (inr imageBase64) →
  settles (analyzeIssueWithEvidence env (newIssueText st) imageBase64
             (File.type <$> newIssueImage st)) (inl e) →
  handleCreateIssue env st
  = (inr tt,
     {| tenantCase := tenantCase st; isAnalyzing := false;
        newIssueText := newIssueText st; newIssueImage := newIssueImage st;
        dispatched := dispatched st;
        console := (console st ++ [e]) ++ [e];
        alerts := alerts st ++ ["Failed to analyze issue. Check console."];
        uuids := uuids st; dates := dates st |}).
Proof.
  intros Hguard Himg Hcls. unfold handleCreateIssue.
  assert (negb (JS.truthy (newIssueText st))
          && negb (bool_decide (is_Some (newIssueImage st))) = false) as ->.
  { destruct Hguard as [-> | Hi]; [done |].
    rewrite (bool_decide_eq_true_2 _ Hi). by rewrite andb_false_r. }
  unfold try_catch_finally, try_catch, bind.
  cbn [setIsAnalyzing update].
  rewrite (CreateIssueProps.settles_encodeImage _ _ _ _ Himg).
  rewrite (CreateIssueProps.settles_analyze _ _ _ _ _ _ Hcls).
  reflexivity.
Qed.

(** X21. When the classifier throws, the failure is surfaced and the
    user can retry at once: the handler does not throw, one alert is
    raised, the busy flag is down again, and the typed text and the
    chosen image are still in the form. *)
Theorem create_error_keeps_the_inputs (st : App) (imageBase64 : option string)
    (e : Error) :
  JS.truthy (newIssueText st) = true ∨ is_Some (newIssueImage st) →
  settles (encodeImage env (newIssueImage st)) (inr imageBase64) →
  settles (analyzeIssueWithEvidence env (newIssueText st) imageBase64
             (File.type <$> newIssueImage st)) (inl e) →
  let st' := snd (handleCreateIssue env st) in
  fst (handleCreateIssue env st) = inr tt
  ∧ newIssueText st' = newIssueText st
  ∧ newIssueImage st' = newIssueImage st
  ∧ isAnalyzing st' = false
  ∧ alerts st' = alerts st ++ ["Failed to analyze issue. Check console."]
  ∧ console st' = console st ++ [e; e].
Proof.
  intros Hguard Himg Hcls. cbv zeta.
  rewrite (create_error_run st imageBase64 e Hguard Himg Hcls). simpl.
  by rewrite <- app_assoc.
Qed.

(** X22. When the image cannot be read, the classifier is never called
    and nothing is added: the case is the one before, the error is logged
    once, one alert is raised and the inputs are kept. *)
Theorem unreadable_image_adds_nothing (st : App) (f : File.t) (e : Error) :
  newIssueImage st = Some f →
  fileToBase64 env f = inl e →
  let st' := snd (handleCreateIssue env st) in
  fst (handleCreateIssue env st) = inr tt
  ∧ tenantCase st' = tenantCase st
  ∧ dispatched st' = dispatched st
  ∧ console st' = console st ++ [e]
  ∧ alerts st' = alerts st ++ ["Failed to analyze issue. Check console."]
  ∧ isAnalyzing st' = false
  ∧ newIssueText st' = newIssueText st
  ∧ newIssueImage st' = newIssueImage st.
Proof.
  intros Himage Hfile. cbv zeta.
  assert (handleCreateIssue env st
          = (inr tt,
             {| tenantCase := tenantCase st; isAnalyzing := false;
                newIssueText := newIssueText st;
                newIssueImage := newIssueImage st;
                dispatched := dispatched st;
                console := console st ++ [e];
                alerts := alerts st ++ ["Failed to analyze issue. Check console."];
                uuids := uuids st; dates := dates st |})) as ->.
  { unfold handleCreateIssue. rewrite Himage.
    rewrite bool_decide_eq_true_2 by eauto. rewrite andb_false_r.
    unfold try_catch_finally, try_catch, bind.
    cbn [setIsAnalyzing update].
    rewrite CreateIssueProps.encodeImage_spec. cbn [newIssueImage].
    rewrite Himage, Hfile. reflexivity. }
  simpl. by rewrite Himage.
Qed.

(** X23. When the classifier answers, the form is emptied for the next
    issue: the text is cleared, the image is dropped, the busy flag is
    down, no alert is raised and nothing is logged. *)
Theorem create_success_clears_the_inputs (st : App)
    (imageBase64 : option string) (response : AIAnalysisResponse.t) :
  JS.truthy (newIssueText st) = true ∨ is_Some (newIssueImage st) →
  settles (encodeImage env (newIssueImage st)) (inr imageBase64) →
  settles (analyzeIssueWithEvidence env (newIssueText st) imageBase64
             (File.type <$> newIssueImage st)) (inr response) →
  let st' := snd (handleCreateIssue env st) in
  fst (handleCreateIssue env st) = inr tt
  ∧ newIssueText st' = ""
  ∧ newIssueImage st' = None
  ∧ isAnalyzing st' = false
  ∧ alerts st' = alerts st
  ∧ console st' = console st.
Proof.
  intros Hguard Himg Hcls. cbv zeta.
  destruct (handleCreateIssue env st) as [r st'] eqn:Hrun.
  unfold handleCreateIssue in Hrun.
  assert (negb (JS.truthy (newIssueText st))
          && negb (bool_decide (is_Some (newIssueImage st))) = false) as Hg.
  { destruct Hguard as [-> | Hi]; [done |].
    rewrite (bool_decide_eq_true_2 _ Hi). by rewrite andb_false_r. }
  rewrite Hg in Hrun.
  unfold try_catch_finally, try_catch, bind in Hrun.
  cbn [setIsAnalyzing update] in Hrun.
  rewrite (CreateIssueProps.settles_encodeImage _ _ _ _ Himg) in Hrun.
  rewrite (CreateIssueProps.settles_analyze _ _ _ _ _ _ Hcls) in Hrun.
  match type of Hrun with
  | context [buildIssue env response ?t ?s] =>
      destruct (CreateIssueProps.buildIssue_spec env response t s)
        as (newIssue & n & Hb & _)
  end.
  rewrite Hb in Hrun.
  destruct imageBase64 as [b|];
    [destruct (AIAnalysisResponse.evidence_items response) as [[|ev evs]|];
     [| destruct (JS.truthy b) |] |];
    cbn in Hrun; injection Hrun as <- <-; repeat split.
Qed.

End Flow.

Lemma create_without_input_is_a_no_op_witness :
  handleCreateIssue Sample.env_empty_answer (Page.app Fixtures.page_blank)
  = (inr tt, Page.app Fixtures.page_blank).
Proof.
  apply (create_without_input_is_a_no_op Sample.env_empty_answer
           Fixtures.page_blank);
    reflexivity.
Defined.

Lemma create_error_keeps_the_inputs_witness :
  let st' := snd (handleCreateIssue Sample.env_failing Sample.app_mold) in
  fst (handleCreateIssue Sample.env_failing Sample.app_mold) = inr tt
  ∧ newIssueText st' = newIssueText Sample.app_mold
  ∧ newIssueImage st' = newIssueImage Sample.app_mold
  ∧ isAnalyzing st' = false
  ∧ alerts st'
    = alerts Sample.app_mold ++ ["Failed to analyze issue. Check console."]
  ∧ console st' = console Sample.app_mold ++ ["503"; "503"].
Proof.
  apply (create_error_keeps_the_inputs Sample.env_failing Sample.app_mold
           None "503").
  - left. reflexivity.
  - exists Sample.app_mold. reflexivity.
  - exists Sample.app_mold. reflexivity.
Defined.

Lemma unreadable_image_adds_nothing_witness :
  let st' := snd (handleCreateIssue Fixtures.env_unreadable Fixtures.app_photo) in
  fst (handleCreateIssue Fixtures.env_unreadable Fixtures.app_photo) = inr tt
  ∧ tenantCase st' = tenantCase Fixtures.app_photo
  ∧ dispatched st' = dispatched Fixtures.app_photo
  ∧ console st' = console Fixtures.app_photo ++ ["NotReadableError"]
  ∧ alerts st'
    = alerts Fixtures.app_photo ++ ["Failed to analyze issue. Check console."]
  ∧ isAnalyzing st' = false
  ∧ newIssueText st' = newIssueText Fixtures.app_photo
  ∧ newIssueImage st' = newIssueImage Fixtures.app_photo.
Proof.
  apply (unreadable_image_adds_nothing Fixtures.env_unreadable
           Fixtures.app_photo Fixtures.photo "NotReadableError");
    reflexivity.
Defined.

Lemma create_success_clears_the_inputs_witness :
  let st' := snd (handleCreateIssue Sample.env_empty_answer Sample.app_mold) in
  fst (handleCreateIssue Sample.env_empty_answer Sample.app_mold) = inr tt
  ∧ newIssueText st' = ""
  ∧ newIssueImage st' = None
  ∧ isAnalyzing st' = false
  ∧ alerts st' = alerts Sample.app_mold
  ∧ console st' = console Sample.app_mold.
Proof.
  apply (create_success_clears_the_inputs Sample.env_empty_answer
           Sample.app_mold None Sample.empty_response).
  - left. reflexivity.
  - exists Sample.app_mold. reflexivity.
  - exists Sample.app_mold. reflexivity.
Defined.

End CreateMore.

(** ** What the page shows of the case *)

Module ViewProps.
Import Page.

Lemma chips_titles (issues : list Issue.t) (ids : list string) :
  omap id (map (fun i => Issue.title <$> Timeline.findIssue issues i) ids)
  = map Issue.title (omap (Timeline.findIssue issues) ids).
Proof.
  induction ids as [|i ids IH]; [done |].
  cbn. destruct (Timeline.findIssue issues i); cbn. all: by rewrite IH.
Qed.

(** X24. The log of communications and the timeline agree on the links
    of a communication: the chips shown under it are the titles of the
    issues on whose rows it has a dot, in the same order, a link that
    names no issue giving neither chip nor dot; and it is drawn on the top
    line exactly when it shows no chip. *)
Theorem chips_match_row_dots (parseDate : string → option Z)
    (x : option Z → Timeline.num) (y : Timeline.Band)
    (c : TenantCase.t) (comm : Communication.t) :
  let resolved :=
    omap (Timeline.findIssue (TenantCase.issues c))
         (Communication.linked_issue_ids comm) in
  match commChips c comm with
  | Some chips => omap id chips
  | None => []
  end = map Issue.title resolved
  ∧ Timeline.commCircles parseDate x y (TenantCase.issues c) comm
    = match resolved with
      | [] => [Timeline.generalCircle parseDate x comm]
      | _ :: _ => map (Timeline.rowCircle parseDate x y comm) resolved
      end.
Proof.
  cbv zeta. split.
  - unfold commChips.
    destruct (Communication.linked_issue_ids comm) as [|i ids]; [done |].
    change (0 <? length (i :: ids))%nat with true. cbv iota.
    apply chips_titles.
  - rewrite TimelineProps.commCircles_spec. unfold Timeline.spec_markers.
    destruct (omap (Timeline.findIssue (TenantCase.issues c))
                   (Communication.linked_issue_ids comm));
      [done | by rewrite app_nil_r].
Qed.

(** X25. The three numbers of the case summary follow the issues: an
    added issue raises the total by one, the emergency count by one when
    it is an emergency and the resolved count by one when it is resolved;
    evidence, communications, metadata and report actions change none of
    them; and neither count exceeds the total. *)
Theorem summary_counts_follow_issues (c : TenantCase.t) (a : Store.Action) :
  match a with Store.LOAD_CASE _ | Store.RESET_CASE => False | _ => True end →
  let c' := Store.caseReducer c a in
  totalIssues c'
  = (totalIssues c + match a with Store.ADD_ISSUE _ => 1 | _ => 0 end)%nat
  ∧ emergencyIssues c'
    = (emergencyIssues c
       + match a with
         | Store.ADD_ISSUE i =>
             match Issue.severity i with emergency => 1 | _ => 0 end
         | _ => 0
         end)%nat
  ∧ resolvedIssues c'
    = (resolvedIssues c
       + match a with
         | Store.ADD_ISSUE i =>
             match Issue.status i with resolved => 1 | _ => 0 end
         | _ => 0
         end)%nat
  ∧ (emergencyIssues c <= totalIssues c)%nat
  ∧ (resolvedIssues c <= totalIssues c)%nat.
Proof.
  intros Ha. cbv zeta.
  unfold totalIssues, emergencyIssues, resolvedIssues.
  split; [| split; [| split; [| split; apply List.filter_length_le]]].
  - destruct a; simpl; rewrite ?length_app; simpl; try lia; done.
  - destruct a; simpl; rewrite ?List.filter_app, ?length_app; simpl;
      try lia; try done.
    by destruct (Issue.severity payload).
  - destruct a; simpl; rewrite ?List.filter_app, ?length_app; simpl;
      try lia; try done.
    by destruct (Issue.status payload).
Qed.

Lemma summary_counts_follow_issues_witness :
  let c' := Store.caseReducer Sample.named_case (Store.ADD_ISSUE Sample.leak) in
  totalIssues c' = (totalIssues Sample.named_case + 1)%nat
  ∧ emergencyIssues c'
    = (emergencyIssues Sample.named_case
       + match Issue.severity Sample.leak with emergency => 1 | _ => 0 end)%nat
  ∧ resolvedIssues c'
    = (resolvedIssues Sample.named_case
       + match Issue.status Sample.leak with resolved => 1 | _ => 0 end)%nat
  ∧ (emergencyIssues Sample.named_case <= totalIssues Sample.named_case)%nat
  ∧ (resolvedIssues Sample.named_case <= totalIssues Sample.named_case)%nat.
Proof.
  apply (summary_counts_follow_issues Sample.named_case
           (Store.ADD_ISSUE Sample.leak)).
  exact I.
Defined.

End ViewProps.

(** ** The timeline chart, further *)

Module ChartMore.
Import Timeline.

Lemma substring0_length (n : nat) (s : string) :
  String.length (JS.substring0 n s) = Nat.min n (String.length s).
Proof.
  revert s. induction n as [|n IH]; intros [|c s]; simpl; try done.
  by rewrite IH.
Qed.

Lemma append_length (s1 s2 : string) :
  String.length (s1 +:+ s2) = (String.length s1 + String.length s2)%nat.
Proof. induction s1 as [|c s1 IH]; simpl; [done | by rewrite IH]. Qed.

(** X26. A row label never exceeds 25 characters: a title of at most 25
    characters is shown as it is, a longer one is cut to its first 22
    characters followed by three dots, which makes exactly 25. *)
Theorem truncated_label_fits (str : string) :
  (String.length (truncate_label str) <= 25)%nat
  ∧ ((String.length str <= 25)%nat → truncate_label str = str)
  ∧ ((25 < String.length str)%nat →
     truncate_label str = JS.substring0 22 str +:+ "..."
     ∧ String.length (truncate_label str) = 25%nat).
Proof.
  unfold truncate_label.
  destruct (Nat.ltb_spec 25 (String.length str)) as [Hlong | Hshort].
  - rewrite append_length, substring0_length.
    change (String.length "...") with 3%nat.
    split; [lia |]. split; [intros ?; exfalso; lia |].
    intros _. split; [done | lia].
  - split; [lia |]. split; [done | intros ?; exfalso; lia].
Qed.

Lemma bandDomain_from (names acc : list string) :
  NoDup acc →
  let dom := fold_left
               (fun (dom : list string) t =>
                  if bool_decide (t ∈ dom) then dom else dom ++ [t])
               names acc in
  NoDup dom
  ∧ (∀ t, t ∈ dom ↔ t ∈ acc ∨ t ∈ names)
  ∧ (length dom <= length acc + length names)%nat.
Proof.
  revert acc. induction names as [|n names IH]; intros acc Hnd; simpl.
  - split; [done |]. split; [| lia].
    intros t. split; [by left | intros [? | H]; [done | inversion H]].
  - destruct (bool_decide (n ∈ acc)) eqn:Hin.
    + apply bool_decide_eq_true in Hin.
      destruct (IH acc Hnd) as (H1 & H2 & H3).
      split; [done |]. split; [| lia].
      intros t. rewrite H2, elem_of_cons.
      split; [intros [? | ?]; auto | intros [? | [-> | ?]]; auto].
    + apply bool_decide_eq_false in Hin.
      assert (NoDup (acc ++ [n])) as Hnd'.
      { apply NoDup_app. split; [done |]. split; [| apply NoDup_singleton].
        intros t Ht Ht'. apply list_elem_of_singleton in Ht' as ->. done. }
      destruct (IH (acc ++ [n]) Hnd') as (H1 & H2 & H3).
      split; [done |]. split; [| rewrite length_app in H3; simpl in H3; lia].
      intros t. rewrite H2, elem_of_app, list_elem_of_singleton, elem_of_cons.
      tauto.
Qed.

Lemma index_of_elem (t : string) (l : list string) :
  t ∈ l → ∃ i, index_of t l = Some i.
Proof.
  induction l as [|s l IH]; intros Hin; [inversion Hin |].
  simpl. destruct (String.eqb_spec s t) as [-> | Hne]; [eauto |].
  apply elem_of_cons in Hin as [-> | Hin]; [done |].
  destruct (IH Hin) as [i ->]. simpl. eauto.
Qed.

Lemma bandDomain_elem (names : list string) (t : string) :
  t ∈ bandDomain names ↔ t ∈ names.
Proof.
  destruct (bandDomain_from names [] (NoDup_nil_2)) as (_ & Hin & _).
  fold (bandDomain names) in Hin. rewrite Hin.
  split; [intros [H | H]; [inversion H | done] | by right].
Qed.

Lemma bandDomain_snoc (names : list string) (t : string) :
  bandDomain (names ++ [t])
  = if bool_decide (t ∈ names) then bandDomain names
    else bandDomain names ++ [t].
Proof.
  unfold bandDomain. rewrite fold_left_app. simpl.
  fold (bandDomain names).
  by rewrite (bool_decide_ext _ _ (bandDomain_elem names t)).
Qed.

Lemma bandDomain_remove_dups (names : list string) :
  bandDomain names = reverse (remove_dups (reverse names)).
Proof.
  induction names as [|t names IH] using rev_ind; [done |].
  rewrite bandDomain_snoc, reverse_app. simpl.
  destruct (decide_rel elem_of t (reverse names)) as [Hin | Hnot].
  - rewrite elem_of_reverse in Hin. by rewrite bool_decide_eq_true_2.
  - rewrite elem_of_reverse in Hnot.
    rewrite bool_decide_eq_false_2 by done.
    by rewrite reverse_cons, IH.
Qed.

Lemma bandDomain_order (names : list string) (i j : nat) (s t : string) :
  bandDomain names !! i = Some s →
  bandDomain names !! j = Some t →
  (i < j)%nat →
  ∃ k, names !! k = Some s ∧ ∀ k', names !! k' = Some t → (k < k')%nat.
Proof.
  revert i j s t.
  induction names as [|n names IH] using rev_ind; intros i j s t Hi Hj Hij;
    [done |].
  rewrite bandDomain_snoc in Hi, Hj.
  assert (∀ k u, names !! k = Some u → (names ++ [n]) !! k = Some u) as Hkeep.
  { intros k u Hk. by rewrite lookup_app_l by (by eapply lookup_lt_Some). }
  assert (∀ k k' u, names !! k = Some u → (names ++ [n]) !! k' = Some t →
            (∀ k'', names !! k'' = Some t → (k < k'')%nat) → (k < k')%nat)
    as Hlater.
  { intros k k' u Hk Hk' Hbefore.
    apply lookup_lt_Some in Hk as Hlt.
    destruct (decide (k' < length names)%nat) as [Hin | Hout]; [| lia].
    rewrite lookup_app_l in Hk' by done. by apply Hbefore. }
  destruct (bool_decide (n ∈ names)) eqn:Hn.
  - destruct (IH i j s t Hi Hj Hij) as (k & Hk & Hbefore).
    exists k. split; [by apply Hkeep |].
    intros k' Hk'. by apply (Hlater k k' s).
  - apply bool_decide_eq_false in Hn.
    destruct (decide (j < length (bandDomain names))%nat) as [Hjin | Hjout].
    + rewrite lookup_app_l in Hi by lia. rewrite lookup_app_l in Hj by done.
      destruct (IH i j s t Hi Hj Hij) as (k & Hk & Hbefore).
      exists k. split; [by apply Hkeep |].
      intros k' Hk'. by apply (Hlater k k' s).
    + apply lookup_lt_Some in Hj as Hjlt.
      rewrite length_app in Hjlt. simpl in Hjlt.
      assert (j = length (bandDomain names)) as -> by lia.
      rewrite lookup_app_l in Hi by done.
      rewrite list_lookup_middle in Hj by done. injection Hj as <-.
      assert (s ∈ names) as Hs.
      { apply bandDomain_elem, list_elem_of_lookup. eauto. }
      apply list_elem_of_lookup in Hs as [k Hk].
      exists k. split; [by apply Hkeep |].
      intros k' Hk'. apply lookup_lt_Some in Hk as Hlt.
      destruct (decide (k' < length names)%nat) as [Hin | Hout]; [| lia].
      rewrite lookup_app_l in Hk' by done.
      exfalso. apply Hn, list_elem_of_lookup. eauto.
Qed.

Lemma index_of_lookup (l : list string) (i : nat) (t : string) :
  NoDup l → l !! i = Some t → index_of t l = Some i.
Proof.
  revert i. induction l as [|s l IH]; intros i Hnd Hi; [done |].
  apply NoDup_cons in Hnd as [Hnot Hnd].
  destruct i as [|i]; simpl in *.
  - injection Hi as ->. by rewrite String.eqb_refl.
  - destruct (String.eqb_spec s t) as [-> | Hne].
    + exfalso. apply Hnot, list_elem_of_lookup. eauto.
    + by rewrite (IH i Hnd Hi).
Qed.

Lemma or_zero_some (q : Q) : (or_zero (Some q) == q)%Q.
Proof.
  unfold or_zero. destruct (Qeq_bool q 0) eqn:Hq; [| reflexivity].
  apply Qeq_bool_iff in Hq. by symmetry.
Qed.

(** X27. The rows of the chart are the distinct titles of the issues,
    in the order of their first occurrence: no title has two rows, every
    issue has a row, so that the position of its bar is never undefined,
    and issues that share a title share a row. The rows are the titles
    with every occurrence but the first of each taken out: a title on a
    row above another occurs in the list of issues before every
    occurrence of the other. The row number [i], counted from the top
    and from zero, starts [i] steps below the first, and that is where
    the bar of an issue with its title is drawn. *)
Theorem every_issue_has_one_row (issues : list Issue.t) (height : Z)
    (padding : Q) :
  let titles := map Issue.title issues in
  let y := scaleBand titles height padding in
  NoDup (band_domain y)
  ∧ (∀ t, t ∈ band_domain y ↔ ∃ d, d ∈ issues ∧ Issue.title d = t)
  ∧ (∀ d, d ∈ issues → ∃ q, band_y y (Issue.title d) = Some q)
  ∧ (length (band_domain y) <= length issues)%nat
  ∧ band_domain y = reverse (remove_dups (reverse titles))
  ∧ (∀ i j s t,
       band_domain y !! i = Some s → band_domain y !! j = Some t →
       (i < j)%nat →
       ∃ k, titles !! k = Some s
            ∧ ∀ k', titles !! k' = Some t → (k < k')%nat)
  ∧ (∀ i t, band_domain y !! i = Some t →
       band_y y t
       = Some (band_start y + band_step y * inject_Z (Z.of_nat i))%Q)
  ∧ (∀ parseDate x clock k d i,
       band_domain y !! i = Some (Issue.title d) →
       (rect_y (bar parseDate x y clock k d)
        == band_start y + band_step y * inject_Z (Z.of_nat i))%Q).
Proof.
  cbv zeta. unfold band_y. cbn [scaleBand band_domain band_start band_step].
  destruct (bandDomain_from (map Issue.title issues) [] (NoDup_nil_2))
    as (Hnd & Hin & Hlen).
  fold (bandDomain (map Issue.title issues)) in Hnd, Hin, Hlen.
  assert (∀ t, t ∈ bandDomain (map Issue.title issues)
               ↔ ∃ d, d ∈ issues ∧ Issue.title d = t) as Hdom.
  { intros t. rewrite Hin. split.
    - intros [H | H]; [inversion H |].
      apply list_elem_of_fmap in H as (d & -> & Hd). eauto.
    - intros (d & Hd & <-). right.
      by apply (list_elem_of_fmap_2 Issue.title). }
  split; [exact Hnd |]. split; [exact Hdom |]. split; [| split].
  - intros d Hd.
    destruct (index_of_elem (Issue.title d) (bandDomain (map Issue.title issues)))
      as [i ->]; [apply Hdom; eauto | simpl; eauto].
  - rewrite length_map in Hlen. simpl in Hlen. exact Hlen.
  - split; [apply bandDomain_remove_dups |].
    split; [apply bandDomain_order |]. split.
    + intros i t Hi. by rewrite (index_of_lookup _ i t Hnd Hi).
    + intros parseDate x clock k d i Hi. cbn [bar rect_y]. unfold band_y.
      cbn [scaleBand band_domain band_start band_step].
      rewrite (index_of_lookup _ i _ Hnd Hi). apply or_zero_some.
Qed.

Lemma every_issue_has_one_row_witness :
  let issues := [Sample.leak; Sample.today_issue; Sample.leak] in
  let y := scaleBand (map Issue.title issues) 300 (4 # 10) in
  band_domain y = ["Leak"; "Mold"]
  ∧ (rect_y (bar Sample.parseDate (scaleTime None 800) y Sample.clock 1
               Sample.today_issue) == 175)%Q.
Proof.
  destruct (every_issue_has_one_row
              [Sample.leak; Sample.today_issue; Sample.leak] 300 (4 # 10))
    as (_ & _ & _ & _ & Hrows & _ & _ & Hbar).
  split; [exact Hrows |].
  rewrite (Hbar Sample.parseDate (scaleTime None 800) Sample.clock 1%nat
             Sample.today_issue 1%nat); reflexivity.
Defined.

Section Chart.
Variable parseDate : string → option Z.
Variable nice : Z * Z → Z * Z.

Lemma commCircles_length x y issues (comm : Communication.t) :
  length (commCircles parseDate x y issues comm)
  = Nat.max 1 (length (omap (findIssue issues)
                            (Communication.linked_issue_ids comm))).
Proof.
  rewrite TimelineProps.commCircles_spec. unfold spec_markers.
  destruct (omap (findIssue issues) (Communication.linked_issue_ids comm));
    [done |].
  rewrite app_nil_r, length_map. simpl. lia.
Qed.

(** X28. On a mounted chart there is one bar per issue, and no
    communication is left out: each has as many dots as it has links that
    resolve, and one dot when it has none, so that there are at least as
    many dots as communications. *)
Theorem every_communication_is_drawn (clientWidth : Z) (clock : nat → Z)
    (issues : list Issue.t) (communications : list Communication.t) :
  ∃ chart,
    TimelineChart parseDate nice (Some clientWidth) clock issues communications
    = Some chart
    ∧ length (bars chart) = length issues
    ∧ length (circles chart)
      = sum_list_with
          (fun comm =>
             Nat.max 1 (length (omap (findIssue issues)
                                     (Communication.linked_issue_ids comm))))
          communications
    ∧ (length communications <= length (circles chart))%nat.
Proof.
  assert (∀ x y,
            length (flat_map (commCircles parseDate x y issues) communications)
            = sum_list_with
                (fun comm =>
                   Nat.max 1 (length (omap (findIssue issues)
                                           (Communication.linked_issue_ids comm))))
                communications
            ∧ (length communications
               <= length (flat_map (commCircles parseDate x y issues)
                                   communications))%nat) as Hdots.
  { intros x y. induction communications as [|comm comms [IH1 IH2]]; [done |].
    simpl. rewrite length_app, commCircles_length, IH1.
    split; [done |]. rewrite <- IH1. lia. }
  destruct issues as [|d issues'] eqn:Hissues;
    [destruct communications as [|c communications'] eqn:Hcomms |].
  - eexists. split; [reflexivity |]. done.
  - rewrite TimelineProps.chart_with_data by (right; done).
    eexists. split; [reflexivity |]. cbn [bars circles].
    split; [done |]. apply Hdots.
  - rewrite TimelineProps.chart_with_data by (left; done).
    eexists. split; [reflexivity |]. cbn [bars circles].
    split; [by rewrite length_imap |]. apply Hdots.
Qed.

Lemma scaleTime_between (d0 d1 width t : Z) (q : Q) :
  (d0 <= t <= d1)%Z → (0 <= width)%Z →
  scaleTime (Some (d0, d1)) width (Some t) = Some q →
  (0 <= q <= inject_Z width)%Q.
Proof.
  intros Ht Hw Hq. simpl in Hq. injection Hq as <-.
  destruct (Z.eqb_spec (d1 - d0) 0) as [Heq | Hne].
  - unfold Qle, Qmult, inject_Z. simpl. lia.
  - destruct (d1 - d0)%Z as [|p|p] eqn:Hd; [done | | lia].
    assert (0 <= t - d0 <= Z.pos p)%Z as Ha by lia.
    revert Ha. generalize (t - d0)%Z. intros a Ha.
    unfold Qle, Qdiv, Qmult, Qinv, inject_Z. simpl. nia.
Qed.

Section Widening.
Hypothesis nice_widens :
  ∀ d : Z * Z, (fst d <= snd d)%Z →
    (fst (nice d) <= fst d)%Z ∧ (snd d <= snd (nice d))%Z.

(** X29. On an element at least as wide as the two side margins, and
    with a widening that contains the extent it is made from, every dot
    and the left end of every bar lie between the two ends of the time
    axis, whenever their date is valid. *)
Theorem dots_and_bars_start_inside_the_axis (clientWidth : Z)
    (clock : nat → Z) (issues : list Issue.t)
    (communications : list Communication.t) (chart : Chart) :
  (margin_left + margin_right <= clientWidth)%Z →
  TimelineChart parseDate nice (Some clientWidth) clock issues communications
  = Some chart →
  let width := inject_Z (clientWidth - margin_left - margin_right) in
  (∀ circle q, circle ∈ circles chart → cx circle = Some q →
               (0 <= q <= width)%Q)
  ∧ (∀ rect q, rect ∈ bars chart → rect_x rect = Some q →
               (0 <= q <= width)%Q).
Proof.
  intros Hwide Hchart. cbv zeta.
  destruct (TimelineProps.timeDomain_some parseDate nice issues communications
              (clock 0%nat)) as (lo & hi & _ & Hdom & Hle & Hall).
  destruct (nice_widens (lo, hi) Hle) as [Hlo Hhi]. simpl in Hlo, Hhi.
  destruct (nice (lo, hi)) as [d0 d1] eqn:Hnice. simpl in Hlo, Hhi.
  assert (∀ s t q,
            Some t ∈ allDates parseDate issues communications (clock 0%nat) →
            parseDate s = Some t →
            scaleTime (Some (d0, d1))
              (clientWidth - margin_left - margin_right) (parseDate s) = Some q →
            (0 <= q <= inject_Z (clientWidth - margin_left - margin_right))%Q)
    as Hpos.
  { intros s t q Hin Hs Hq. rewrite Hs in Hq.
    apply (scaleTime_between d0 d1 _ t q); [| lia | exact Hq].
    specialize (Hall t Hin). lia. }
  assert (∀ s q,
            scaleTime (Some (d0, d1))
              (clientWidth - margin_left - margin_right) (parseDate s) = Some q →
            ∃ t, parseDate s = Some t) as Hvalid.
  { intros s q Hq. destruct (parseDate s) as [t|]; [eauto | done]. }
  unfold TimelineChart in Hchart.
  destruct ((length issues =? 0)%nat && (length communications =? 0)%nat);
    injection Hchart as <-; cbn [circles bars].
  { split; intros ? ? Hin; inversion Hin. }
  rewrite Hdom. split.
  - intros circle q Hin Hcx.
    apply list_elem_of_In, in_flat_map in Hin as (comm & Hcomm & Hin).
    apply list_elem_of_In in Hcomm, Hin.
    assert (cx circle
            = scaleTime (Some (d0, d1))
                (clientWidth - margin_left - margin_right)
                (parseDate (Communication.date comm))) as Hx.
    { rewrite TimelineProps.commCircles_spec in Hin. unfold spec_markers in Hin.
      apply elem_of_app in Hin as [Hin | Hin].
      - apply list_elem_of_fmap in Hin as (issue & -> & _). done.
      - destruct (omap _ _); [| inversion Hin].
        apply list_elem_of_singleton in Hin as ->. done. }
    rewrite Hx in Hcx. destruct (Hvalid _ _ Hcx) as [t Ht].
    apply (Hpos (Communication.date comm) t q); [| done | done].
    by apply (TimelineProps.comm_in_allDates parseDate _ _ _ comm).
  - intros rect q Hin Hrx.
    apply list_elem_of_lookup in Hin as [k Hk].
    rewrite list_lookup_imap in Hk.
    destruct (issues !! k) as [d|] eqn:Hd; [| done].
    injection Hk as <-. cbn [bar rect_x] in Hrx.
    destruct (Hvalid _ _ Hrx) as [t Ht].
    apply (Hpos (Issue.first_noticed_at d) t q); [| done | done].
    apply (TimelineProps.issue_in_allDates parseDate _ _ _ d); [| done].
    apply list_elem_of_lookup. eauto.
Qed.

End Widening.

End Chart.

Lemma dots_and_bars_start_inside_the_axis_witness :
  ∃ chart,
    TimelineChart Sample.parseDate Sample.nice (Some 1010%Z) Sample.clock
      [Sample.leak] [Sample.linked_comm; Sample.dangling] = Some chart
    ∧ let width := inject_Z (1010 - margin_left - margin_right) in
      (∀ circle q, circle ∈ circles chart → cx circle = Some q →
                   (0 <= q <= width)%Q)
      ∧ (∀ rect q, rect ∈ bars chart → rect_x rect = Some q →
                   (0 <= q <= width)%Q).
Proof.
  eexists. split; [reflexivity |].
  apply (dots_and_bars_start_inside_the_axis Sample.parseDate Sample.nice
           TimelineProps.sample_nice_widens 1010%Z Sample.clock
           [Sample.leak] [Sample.linked_comm; Sample.dangling]).
  - vm_compute. discriminate.
  - reflexivity.
Defined.

End ChartMore.

(** ** From the link buttons to the rows of the chart *)

Module LinkProps.
Import Page.

Lemma findIssue_resolves (issues : list Issue.t) (i : string) :
  (∃ d, d ∈ issues ∧ Issue.id d = i) →
  ∃ d', Timeline.findIssue issues i = Some d' ∧ Issue.id d' = i.
Proof.
  intros (d & Hd & Hid). unfold Timeline.findIssue.
  destruct (List.find _ issues) as [d'|] eqn:Hfind.
  - apply find_some in Hfind as [_ Heq]. apply String.eqb_eq in Heq. eauto.
  - apply list_elem_of_In in Hd.
    pose proof (find_none _ _ Hfind d Hd) as Hno. simpl in Hno.
    rewrite Hid, String.eqb_refl in Hno. done.
Qed.

Lemma all_links_resolve (issues : list Issue.t) (links : list string) :
  (∀ i, i ∈ links → ∃ d, d ∈ issues ∧ Issue.id d = i) →
  map Issue.id (omap (Timeline.findIssue issues) links) = links.
Proof.
  induction links as [|i links IH]; intros Hall; [done |].
  destruct (findIssue_resolves issues i) as (d' & Hfind & Hid).
  { apply Hall. by left. }
  cbn. rewrite Hfind. cbn. rewrite Hid. f_equal.
  apply IH. intros j Hj. apply Hall. by right.
Qed.

(** X30. From the selected links to the dots of the chart, under a
    stated condition: every selected id is the id of an issue of the
    case. Under that condition a communication logged with a selection
    that is not empty gets exactly one dot per selected id, on the row of
    an issue with that id and in the order of the selection, and no dot
    on the top line. The condition is kept by a press on the link button
    of an issue of the case, which puts the id at the end of the
    selection when it was not selected, and by every action of the store
    other than [LOAD_CASE] and [RESET_CASE]. It is not kept by a
    confirmed reset of the case, which empties the issues and leaves the
    form as it was: a communication logged after the reset still carries
    the selected ids, and its only dot is on the top line. *)
Theorem selected_links_get_row_dots (env : Env)
    (parseDate : string → option Z) (x : option Z → Timeline.num)
    (y : Timeline.Band) (pg : Page.t) :
  let links := commLinkedIssues (form pg) in
  let c := CreateIssue.tenantCase (app pg) in
  logDisabled pg = false →
  links ≠ [] →
  (∀ i, i ∈ links → ∃ d, d ∈ TenantCase.issues c ∧ Issue.id d = i) →
  let pg' := snd (handleLogCommunication env pg) in
  let c' := CreateIssue.tenantCase (app pg') in
  let reset := snd (handleResetCase true pg) in
  let logged := snd (handleLogCommunication env reset) in
  (∀ issue, issue ∈ TenantCase.issues c →
     let pressed := snd (handleToggleIssueLink (Issue.id issue) pg) in
     (∀ i, i ∈ commLinkedIssues (form pressed) →
           ∃ d, d ∈ TenantCase.issues c ∧ Issue.id d = i)
     ∧ (Issue.id issue ∉ links →
        commLinkedIssues (form pressed) = links ++ [Issue.id issue]))
  ∧ (∀ a, match a with
          | Store.LOAD_CASE _ | Store.RESET_CASE => False
          | _ => True
          end →
          ∀ i, i ∈ links →
               ∃ d, d ∈ TenantCase.issues (Store.caseReducer c a)
                    ∧ Issue.id d = i)
  ∧ (∃ comm rows,
       last (TenantCase.communications c') = Some comm
       ∧ Communication.linked_issue_ids comm = links
       ∧ omap (Timeline.findIssue (TenantCase.issues c'))
              (Communication.linked_issue_ids comm) = rows
       ∧ map Issue.id rows = links
       ∧ Timeline.commCircles parseDate x y (TenantCase.issues c') comm
         = map (Timeline.rowCircle parseDate x y comm) rows)
  ∧ (TenantCase.issues (CreateIssue.tenantCase (app reset)) = []
     ∧ form reset = form pg
     ∧ ∃ comm,
         TenantCase.communications (CreateIssue.tenantCase (app logged))
         = [comm]
         ∧ Communication.linked_issue_ids comm = links
         ∧ Timeline.commCircles parseDate x y
             (TenantCase.issues (CreateIssue.tenantCase (app logged))) comm
           = [Timeline.generalCircle parseDate x comm]).
Proof.
  intros links c Hmsg Hne Hall. cbv zeta.
  split; [| split; [| split]].
  - intros issue Hissue. split.
    + intros i Hi. cbn in Hi.
      apply FormProps.toggleLink_elem in Hi as [[-> _] | [_ Hi]]; eauto.
    + intros Hnot. cbn. by apply FormProps.toggleLink_absent.
  - intros a Ha i Hi. destruct (Hall i Hi) as (d & Hd & Hid).
    exists d. split; [| exact Hid].
    destruct a; try done; cbn; try exact Hd.
    apply elem_of_app. by left.
  - rewrite (FormProps.log_run env pg Hmsg). cbv zeta.
    cbn [snd app CreateIssue.tenantCase Store.caseReducer
         TenantCase.communications TenantCase.issues].
    eexists _, _. split; [apply last_snoc |].
    cbn [Communication.linked_issue_ids].
    split; [reflexivity |].
    split; [reflexivity |]. split; [by apply all_links_resolve |].
    rewrite TimelineProps.commCircles_spec. unfold Timeline.spec_markers.
    cbn [Communication.linked_issue_ids].
    pose proof (all_links_resolve _ _ Hall) as Hids. fold c links in Hids.
    fold c links.
    destruct (omap (Timeline.findIssue (TenantCase.issues c)) links) as [|r rs].
    + simpl in Hids. by destruct links.
    + by rewrite app_nil_r.
  - split; [reflexivity |]. split; [reflexivity |].
    assert (logDisabled (snd (handleResetCase true pg)) = false) as Hmsg'
      by exact Hmsg.
    rewrite (FormProps.log_run env _ Hmsg'). cbv zeta.
    cbn [snd app CreateIssue.tenantCase Store.caseReducer
         TenantCase.communications TenantCase.issues].
    eexists. split; [reflexivity |].
    cbn [Communication.linked_issue_ids].
    split; [reflexivity |].
    rewrite TimelineProps.commCircles_spec. unfold Timeline.spec_markers.
    cbn [Communication.linked_issue_ids].
    assert (∀ l, omap (Timeline.findIssue (TenantCase.issues Store.EMPTY_CASE)) l
                 = []) as Hnone.
    { intros l. induction l as [|i l IH]; [done | exact IH]. }
    change (TenantCase.issues
              (CreateIssue.tenantCase
                 (app (snd (handleResetCase true pg)))))
      with (TenantCase.issues Store.EMPTY_CASE).
    by rewrite Hnone.
Qed.

Lemma selected_links_get_row_dots_witness :
  let pg := Fixtures.page_leak in
  let x := Timeline.scaleTime (Some (1704067200000, 1709251200000)%Z) 800 in
  let y := Timeline.scaleBand ["Leak"] 300 (4 # 10) in
  let c' := CreateIssue.tenantCase
              (app (snd (handleLogCommunication Fixtures.env_ok pg))) in
  let logged := snd (handleLogCommunication Fixtures.env_ok
                       (snd (handleResetCase true pg))) in
  (∃ comm,
     last (TenantCase.communications c') = Some comm
     ∧ Communication.linked_issue_ids comm = ["i1"]
     ∧ Timeline.commCircles Sample.parseDate x y (TenantCase.issues c') comm
       = [Timeline.rowCircle Sample.parseDate x y comm Sample.leak])
  ∧ (∃ comm,
       TenantCase.communications (CreateIssue.tenantCase (app logged)) = [comm]
       ∧ Communication.linked_issue_ids comm = ["i1"]
       ∧ Timeline.commCircles Sample.parseDate x y
           (TenantCase.issues (CreateIssue.tenantCase (app logged))) comm
         = [Timeline.generalCircle Sample.parseDate x comm]).
Proof.
  destruct (selected_links_get_row_dots Fixtures.env_ok Sample.parseDate
              (Timeline.scaleTime (Some (1704067200000, 1709251200000)%Z) 800)
              (Timeline.scaleBand ["Leak"] 300 (4 # 10)) Fixtures.page_leak)
    as (_ & _ & (comm & rows & Hlast & Hids & Hrows & _ & Hdots)
        & (_ & _ & Hreset)).
  - reflexivity.
  - discriminate.
  - intros i Hi. apply list_elem_of_singleton in Hi as ->.
    exists Sample.leak. split; [| reflexivity].
    apply list_elem_of_singleton. reflexivity.
  - split; [| exact Hreset].
    exists comm. split; [exact Hlast |]. split; [exact Hids |].
    rewrite Hdots, <- Hrows, Hids. reflexivity.
Defined.

End LinkProps.
